(** * AutoFliff: a shallow embedding of the automation core and its contracts

    The development follows the Python sources:
    - [fliff_automator.py]  (retry executor, wager detection, odds
      conversion, parlay construction),
    - [github_api_manager.py] (workflow disabling),
    - [telegram_notifier.py] (notification sink),
    - [main.py] (orchestration driver).

    Modelling conventions.
    - A Python [str] is a [string]; one [ascii] stands for one code point
      of the Latin-1 range.
    - A Python [float] is the exact rational it denotes ([Q]); binary
      rounding is outside the model.  Equality of floats is [Qeq].
    - A Python [int] is a [Z].
    - A call that may raise returns a [result]; [Raise e] carries the
      exception object.
    - The remote page is observed through a fixed sequence of queries, so
      one run of an operation sees a _view_: the outcomes the page gave to
      those queries, in order. *)

From Stdlib Require Import ZArith QArith String Ascii List Bool Lia Lqa.
From Stdlib Require Import DecimalString DecimalN.
From stdpp Require Import base option gmap strings.
Import ListNotations.

Local Open Scope string_scope.
Local Open Scope Z_scope.
Local Open Scope list_scope.

(** ** Exceptions and fallible computations *)

Inductive exn : Type :=
| ValueError (msg : string)
| ZeroDivisionError (msg : string)
| AttributeError (msg : string)
| TypeError (msg : string)
| KeyError (key : string)
| RequestException (msg : string)
| TelegramError (msg : string)
| PlaywrightError (msg : string)
| Exception (msg : string).

Inductive result (A : Type) : Type :=
| Return (a : A)
| Raise (e : exn).
Arguments Return {A} a.
Arguments Raise {A} e.

#[global] Instance result_ret : MRet result := fun A a => Return a.
#[global] Instance result_bind : MBind result := fun A B k r =>
  match r with
  | Return a => k a
  | Raise e => Raise e
  end.
#[global] Instance result_fmap : FMap result := fun A B f r =>
  match r with
  | Return a => Return (f a)
  | Raise e => Raise e
  end.

(** [repr(s)] of a string of the Latin-1 range: the text between quotes,
    a double quote only when the text holds a single quote and no double
    one; the quote in use and the backslash are escaped, and so are tab,
    newline, carriage return and the characters that are not printable. *)
Definition has_char (c : ascii) (s : string) : bool :=
  existsb (Ascii.eqb c) (list_ascii_of_string s).

Definition hex_digit (n : N) : ascii :=
  if (n <? 10)%N then ascii_of_N (48 + n) else ascii_of_N (87 + n).

Definition is_printable (c : ascii) : bool :=
  let n := N_of_ascii c in
  ((32 <=? n) && (n <=? 126) || (161 <=? n) && negb (n =? 173))%N.

Definition repr_char (quote c : ascii) : string :=
  let n := N_of_ascii c in
  if Ascii.eqb c quote || Ascii.eqb c "092" then String "092" (String c EmptyString)
  else if (n =? 9)%N then String "092" "t"
  else if (n =? 10)%N then String "092" "n"
  else if (n =? 13)%N then String "092" "r"
  else if is_printable c then String c EmptyString
  else String "092" (String "x" (String (hex_digit (n / 16)) (String (hex_digit (n mod 16))
                                                                  EmptyString))).

Fixpoint repr_body (quote : ascii) (s : string) : string :=
  match s with
  | String c r => repr_char quote c +:+ repr_body quote r
  | EmptyString => EmptyString
  end.

Definition repr (s : string) : string :=
  let quote := (if has_char "'" s && negb (has_char "034" s) then "034" else "'")%char in
  String quote (repr_body quote s +:+ String quote EmptyString).

(** [str(e)]: the message an exception prints; a [KeyError] prints the
    [repr] of its key. *)
Definition exn_str (e : exn) : string :=
  match e with
  | ValueError m | ZeroDivisionError m | AttributeError m | TypeError m
  | RequestException m | TelegramError m | PlaywrightError m | Exception m => m
  | KeyError k => repr k
  end.

Definition raises {A : Type} (r : result A) : bool :=
  match r with Return _ => false | Raise _ => true end.

(** ** Python string primitives *)

Module Py.

(** [str.isspace] on the Latin-1 range. *)
Definition is_space (c : ascii) : bool :=
  let n := N_of_ascii c in
  ((9 <=? n) && (n <=? 13) || (28 <=? n) && (n <=? 32) || (n =? 133) || (n =? 160))%N.

Definition is_digit (c : ascii) : bool :=
  let n := N_of_ascii c in ((48 <=? n) && (n <=? 57))%N.

Definition digit_val (c : ascii) : N := (N_of_ascii c - 48)%N.

Fixpoint lstrip (s : string) : string :=
  match s with
  | String c r => if is_space c then lstrip r else s
  | EmptyString => EmptyString
  end.

Fixpoint rstrip (s : string) : string :=
  match s with
  | String c r =>
      match rstrip r with
      | EmptyString => if is_space c then EmptyString else String c EmptyString
      | r' => String c r'
      end
  | EmptyString => EmptyString
  end.

(** [s.strip()] *)
Definition strip (s : string) : string := lstrip (rstrip s).

(** [s.startswith(c)] for a one-character prefix. *)
Definition startswith (c : ascii) (s : string) : bool :=
  match s with
  | String d _ => Ascii.eqb c d
  | EmptyString => false
  end.

(** [s[1:]] *)
Definition tail (s : string) : string :=
  match s with
  | String _ r => r
  | EmptyString => EmptyString
  end.

(** [s.lower()] on ASCII letters. *)
Definition lower_char (c : ascii) : ascii :=
  let n := N_of_ascii c in
  if ((65 <=? n) && (n <=? 90))%N then ascii_of_N (n + 32) else c.

Fixpoint lower (s : string) : string :=
  match s with
  | String c r => String (lower_char c) (lower r)
  | EmptyString => EmptyString
  end.

Fixpoint is_prefix (p s : string) : bool :=
  match p, s with
  | EmptyString, _ => true
  | String a p', String b s' => Ascii.eqb a b && is_prefix p' s'
  | String _ _, EmptyString => false
  end.

(** [p in s] *)
Fixpoint contains (p s : string) : bool :=
  is_prefix p s ||
  match s with
  | String _ r => contains p r
  | EmptyString => false
  end.

(** [s.replace(',', '')] *)
Fixpoint remove_commas (s : string) : string :=
  match s with
  | String c r => if Ascii.eqb c "," then remove_commas r else String c (remove_commas r)
  | EmptyString => EmptyString
  end.

(** *** [float(text)]

    The accepted numerals are the decimal ones: an optional sign, digits
    with an optional point, and an optional exponent, surrounded by
    optional white space; single underscores may group the digits.  The
    value is the rational the numeral denotes: the rounding to a binary
    float is not modelled, and a statement below that would not survive
    it is stated for the magnitudes on which it does.  The literals for
    infinity and not-a-number denote no rational: [parse_float] gives
    [None] on them, and no statement below is about such a text. *)

Definition next_is_digit (s : string) : bool :=
  match s with
  | String c _ => is_digit c
  | EmptyString => false
  end.

(** Reads a digit part into [acc]; [count] is the number of digits read. *)
Fixpoint read_digits (acc : N) (count : nat) (s : string) : N * nat * string :=
  match s with
  | String c r =>
      if is_digit c then read_digits (10 * acc + digit_val c)%N (S count) r
      else if Ascii.eqb c "_" && negb (Nat.eqb count 0) && next_is_digit r
      then read_digits acc count r
      else (acc, count, s)
  | EmptyString => (acc, count, s)
  end.

Definition pow10 (e : Z) : Q :=
  if 0 <=? e then inject_Z (10 ^ e) else / inject_Z (10 ^ (- e)).

Definition read_exponent (s : string) : option Z :=
  match s with
  | EmptyString => Some 0
  | String c r =>
      if Ascii.eqb c "e" || Ascii.eqb c "E" then
        let '(neg, r1) :=
          match r with
          | String "-" r' => (true, r')
          | String "+" r' => (false, r')
          | _ => (false, r)
          end in
        match read_digits 0 0 r1 with
        | (_, O, _) => None
        | (v, S _, EmptyString) => Some (if neg then - Z.of_N v else Z.of_N v)
        | (_, S _, String _ _) => None
        end
      else None
  end.

Definition read_unsigned (s : string) : option Q :=
  let '(ip, ni, r1) := read_digits 0 0 s in
  let '(fp, nf, r2) :=
    match r1 with
    | String "." r => read_digits 0 0 r
    | _ => (0%N, O, r1)
    end in
  match (ni + nf)%nat with
  | O => None
  | S _ =>
      match read_exponent r2 with
      | Some e =>
          Some ((inject_Z (Z.of_N ip) + inject_Z (Z.of_N fp) * pow10 (- Z.of_nat nf))
                * pow10 e)%Q
      | None => None
      end
  end.

Definition float_error (s : string) : exn :=
  ValueError ("could not convert string to float: " +:+ repr s).

(** The sign in front of a numeral, and the rest. *)
Definition split_sign (t : string) : bool * string :=
  match t with
  | String "-" r => (true, r)
  | String "+" r => (false, r)
  | _ => (false, t)
  end.

(** The white space [float] skips around the numeral: the white space of
    ASCII, and of the characters above it those that are spaces.  The
    separators U+001C to U+001F, which [str.strip] removes, are not among
    them. *)
Definition is_float_space (c : ascii) : bool :=
  let n := N_of_ascii c in
  ((9 <=? n) && (n <=? 13) || (n =? 32) || (n =? 133) || (n =? 160))%N.

Fixpoint lstrip_by (p : ascii -> bool) (s : string) : string :=
  match s with
  | String c r => if p c then lstrip_by p r else s
  | EmptyString => EmptyString
  end.

Fixpoint rstrip_by (p : ascii -> bool) (s : string) : string :=
  match s with
  | String c r =>
      match rstrip_by p r with
      | EmptyString => if p c then EmptyString else String c EmptyString
      | r' => String c r'
      end
  | EmptyString => EmptyString
  end.

Definition float_strip (s : string) : string :=
  lstrip_by is_float_space (rstrip_by is_float_space s).

Definition parse_float (s : string) : option Q :=
  let '(neg, body) := split_sign (float_strip s) in
  match read_unsigned body with
  | Some q => Some (if neg then - q else q)%Q
  | None => None
  end.

Definition float (s : string) : result Q :=
  match parse_float s with
  | Some q => Return q
  | None => Raise (float_error s)
  end.

End Py.

(** ** Comparisons on floats *)

Definition Qlt_bool (x y : Q) : bool := negb (Qle_bool y x).

(** ** The retry executor ([FliffAutomator._retry_operation]) *)

Inductive event : Type :=
| Called (attempt : Z)
| Warned (operation_name : string) (attempt max_retries : Z) (e : exn) (wait_time : Z)
| Slept (wait_time : Z).

(** [range(n)] *)
Definition range (n : Z) : list Z := map Z.of_nat (seq 0 (Z.to_nat n)).

Section Retry.
Context {W A : Type}.

(** The wrapped unit of work is a closure over the world [W]. *)
Variable operation : W -> W * result A.

Record retry_run : Type := mk_run {
  run_result : result (option A);   (* [Return None]: the loop fell through *)
  run_world : W;
  run_log : list event }.

Fixpoint retry_loop (max_retries delay : Z) (operation_name : string)
    (attempts : list Z) (w : W) (log : list event) : retry_run :=
  match attempts with
  | [] => mk_run (Return None) w log
  | attempt :: rest =>
      let '(w', r) := operation w in
      let log := log ++ [Called attempt] in
      match r with
      | Return a => mk_run (Return (Some a)) w' log
      | Raise e =>
          if attempt =? max_retries - 1 then mk_run (Raise e) w' log
          else
            let wait_time := delay * 2 ^ attempt in
            retry_loop max_retries delay operation_name rest w'
              (log ++ [Warned operation_name (attempt + 1) max_retries e wait_time;
                       Slept wait_time])
      end
  end.

Definition _retry_operation (max_retries delay : Z) (operation_name : string)
    (w : W) : retry_run :=
  retry_loop max_retries delay operation_name (range max_retries) w [].

(** The worlds and outcomes of repeated calls. *)
Fixpoint world_after (n : nat) (w : W) : W :=
  match n with
  | O => w
  | S k => world_after k (fst (operation w))
  end.
End Retry.

Arguments mk_run {W A}.
Arguments run_result {W A}.
Arguments run_world {W A}.
Arguments run_log {W A}.

Definition default_max_retries : Z := 3.
Definition default_delay : Z := 2.

Definition is_call (ev : event) : bool :=
  match ev with Called _ => true | _ => false end.

Definition calls (log : list event) : nat := length (List.filter is_call log).

Definition sleeps (log : list event) : list Z :=
  omap (fun ev => match ev with Slept t => Some t | _ => None end) log.

(** ** Odds conversion ([FliffAutomator._convert_odds_to_decimal]) *)

(** Float division: Python raises on a zero divisor.  The quotient is the
    exact one; see [Py.float] for what that leaves out. *)
Definition float_div (x y : Q) : result Q :=
  if Qeq_bool y 0 then Raise (ZeroDivisionError "float division by zero")
  else Return (x / y)%Q.

Definition _convert_odds_to_decimal (odds_text : string) : result Q :=
  let odds_text := Py.strip odds_text in
  if Py.startswith "+" odds_text then
    v ← Py.float (Py.tail odds_text);
    float_div (v + 100) 100
  else if Py.startswith "-" odds_text then
    v ← Py.float (Py.tail odds_text);
    d ← Py.float (Py.tail odds_text);
    float_div (100 + v) d
  else
    Py.float odds_text.

(** ** Reading amounts from rendered text *)

Definition is_amount_char (c : ascii) : bool := Py.is_digit c || Ascii.eqb c ",".

(** The longest prefix of [s] made of characters satisfying [p], and the rest. *)
Fixpoint span (p : ascii -> bool) (s : string) : string * string :=
  match s with
  | String c r =>
      if p c then let '(run, rest) := span p r in (String c run, rest)
      else (EmptyString, s)
  | EmptyString => (EmptyString, EmptyString)
  end.

(** [re.search(r'[\d,]+', s).group()]: the first maximal run of digits and
    commas; [None] when the pattern does not occur. *)
Fixpoint search_digits_commas (s : string) : option string :=
  match s with
  | String c r =>
      if is_amount_char c then Some (fst (span is_amount_char s))
      else search_digits_commas r
  | EmptyString => None
  end.

(** [re.search(r'[\d,]+\.?\d*', s).group()]: the same run, then an optional
    point, then the digits that follow.  Every part after the run is
    optional, so the greedy match never backtracks. *)
Definition match_decimal_at (s : string) : string :=
  let '(run, rest) := span is_amount_char s in
  match rest with
  | String "." r => run +:+ "." +:+ fst (span Py.is_digit r)
  | _ => run
  end.

Fixpoint search_decimal (s : string) : option string :=
  match s with
  | String c r =>
      if is_amount_char c then Some (match_decimal_at s)
      else search_decimal r
  | EmptyString => None
  end.

(** ** Open-wager detection ([FliffAutomator.check_open_wagers]) *)

(** What one run of [_check_wagers] observes: the outcome of the click on
    the activity link, of the wait for network idle, and of the slip
    query; each slip is the outcome of its [text_content()]. *)
Record activity_view : Type := {
  nav_activity : result unit;
  load_activity : result unit;
  bet_slips : result (list (result string)) }.

Definition blocking_threshold : Q := 1.80%Q.

(** The payout the loop body parses from one slip: [None] when the text
    has no payout label or no digit run. *)
Definition slip_payout (payout_text : string) : result (option Q) :=
  if Py.contains "payout" (Py.lower payout_text) then
    match search_digits_commas payout_text with
    | Some m => payout ← Py.float (Py.remove_commas m); Return (Some payout)
    | None => Return None
    end
  else Return None.

Definition is_blocking (payout : option Q) : bool :=
  match payout with
  | Some p => Qlt_bool blocking_threshold p
  | None => false
  end.

Fixpoint scan_slips (slips : list (result string)) : result bool :=
  match slips with
  | [] => Return false
  | slip :: rest =>
      payout_text ← slip;
      payout ← slip_payout payout_text;
      if is_blocking payout then Return true else scan_slips rest
  end.

Definition _check_wagers (v : activity_view) : result bool :=
  _ ← nav_activity v;
  _ ← load_activity v;
  slips ← bet_slips v;
  match slips with
  | [] => Return false
  | _ => scan_slips slips
  end.

(** Attempt [i] of the retry executor observes [views i]. *)
Definition check_open_wagers (views : nat -> activity_view) : retry_run (W := nat) (A := bool) :=
  _retry_operation (fun i => (S i, _check_wagers (views i)))
    default_max_retries default_delay "check_open_wagers" O.

Definition ok_view (texts : list string) : activity_view :=
  {| nav_activity := Return tt; load_activity := Return tt;
     bet_slips := Return (map Return texts) |}.

(** ** Parlay construction ([FliffAutomator.execute_betting_strategy]) *)

(** The bet slip as [_get_current_payout] observes it: [Raise] when
    [wait_for_selector] or [text_content] raises, [Return None] when no
    element is returned, [Return (Some text)] otherwise. *)
Definition slip_view : Type := result (option string).

Definition _get_current_payout (bet_slip : slip_view) : result Q :=
  slip ← bet_slip;
  match slip with
  | None => Return 0%Q
  | Some payout_text =>
      match search_decimal payout_text with
      | Some m => Py.float (Py.remove_commas m)
      | None => Return 0%Q
      end
  end.

(** An unlocked proposal cell as one run observes it.  [odds_label] is the
    outcome of reading the text of its odds label ([Raise] also when the
    label is missing); [click_outcome] is the outcome of clicking the cell
    and [slip_after] the bet slip as read after that click and the pause
    that follows it. *)
Record proposal_view : Type := {
  odds_label : result string;
  click_outcome : result unit;
  slip_after : slip_view }.

Record game_view : Type := {
  proposals : result (list proposal_view) }.

Record sports_view : Type := {
  nav_sports : result unit;
  load_sports : result unit;
  games : result (list game_view) }.

(** An entry of [safe_games]. *)
Record candidate : Type := {
  element : proposal_view;
  odds : Q;
  game : game_view }.

(** [-250 <= odds_decimal <= 200] *)
Definition in_safe_range (odds_decimal : Q) : bool :=
  Qle_bool (-250) odds_decimal && Qle_bool odds_decimal 200.

(** The inner loop over one game's proposals.  The list built so far is
    kept when a proposal raises: [safe_games] is appended to in place. *)
Fixpoint scan_proposals (g : game_view) (ps : list proposal_view)
    (safe_games : list candidate) : list candidate * result unit :=
  match ps with
  | [] => (safe_games, Return tt)
  | proposal :: rest =>
      match odds_text ← Py.strip <$> odds_label proposal;
            _convert_odds_to_decimal odds_text with
      | Return odds_decimal =>
          scan_proposals g rest
            (if in_safe_range odds_decimal
             then safe_games ++ [{| element := proposal; odds := odds_decimal; game := g |}]
             else safe_games)
      | Raise e => (safe_games, Raise e)
      end
  end.

(** The outer loop: an exception inside one game is logged and the loop
    continues with the next game. *)
Fixpoint scan_games (gs : list game_view) (safe_games : list candidate) : list candidate :=
  match gs with
  | [] => safe_games
  | g :: rest =>
      match proposals g with
      | Return ps => scan_games rest (fst (scan_proposals g ps safe_games))
      | Raise _ => scan_games rest safe_games
      end
  end.

(** The locals of the accumulation loop when it is left. *)
Record parlay_outcome : Type := {
  placed : bool;                         (* the value returned *)
  current_payout : Q;
  parlay_selections : list candidate }.

Fixpoint build_parlay (min_payout max_payout : Q) (safe_games : list candidate)
    (current_payout : Q) (parlay_selections : list candidate) : result parlay_outcome :=
  match safe_games with
  | [] =>
      Return {| placed := Qle_bool min_payout current_payout;
                current_payout := current_payout;
                parlay_selections := parlay_selections |}
  | game_data :: rest =>
      if Qle_bool max_payout current_payout then
        Return {| placed := Qle_bool min_payout current_payout;
                  current_payout := current_payout;
                  parlay_selections := parlay_selections |}
      else
        _ ← click_outcome (element game_data);
        current_payout ← _get_current_payout (slip_after (element game_data));
        let parlay_selections := parlay_selections ++ [game_data] in
        if Qle_bool min_payout current_payout && Qle_bool current_payout max_payout then
          Return {| placed := true;
                    current_payout := current_payout;
                    parlay_selections := parlay_selections |}
        else build_parlay min_payout max_payout rest current_payout parlay_selections
  end.

Definition _execute_strategy (min_payout max_payout : Q) (v : sports_view) : result bool :=
  _ ← nav_sports v;
  _ ← load_sports v;
  gs ← games v;
  match gs with
  | [] => Return false
  | _ =>
      match scan_games gs [] with
      | [] => Return false
      | safe_games => placed <$> build_parlay min_payout max_payout safe_games 1 []
      end
  end.

Definition execute_betting_strategy (min_payout max_payout : Q)
    (views : nat -> sports_view) : retry_run (W := nat) (A := bool) :=
  _retry_operation (fun i => (S i, _execute_strategy min_payout max_payout (views i)))
    default_max_retries default_delay "betting_strategy" O.

(** The payout read after adding a leg. *)
Definition reading (c : candidate) : result Q :=
  _get_current_payout (slip_after (element c)).

(** ** Configuration from the environment *)

(** [os.getenv(key)] and [os.getenv(key, default)] *)
Definition getenv (env : gmap string string) (key : string) : option string := env !! key.

Definition getenv_default (env : gmap string string) (key default : string) : string :=
  match env !! key with
  | Some v => v
  | None => default
  end.

(** Truth value of an optional string: [None] and the empty string are false. *)
Definition truthy (v : option string) : bool :=
  match v with
  | Some (String _ _) => true
  | _ => false
  end.

(** ** The workflow manager ([github_api_manager.py]) *)

Module GitHub.

#[warnings="-register-all"]
Inductive json : Type :=
| JNull
| JBool (b : bool)
| JNum (n : Z)
| JStr (s : string)
| JArr (items : list json)
| JObj (fields : list (string * json)).

Record GitHubAPIManager : Type := {
  github_token : string;
  github_repository : string;
  workflow_filename : string }.

Definition __init__ (env : gmap string string) : result GitHubAPIManager :=
  let token := getenv env "GITHUB_TOKEN" in
  let repository := getenv env "GITHUB_REPOSITORY" in
  if negb (truthy token) then
    Raise (ValueError "GITHUB_TOKEN environment variable is required")
  else if negb (truthy repository) then
    Raise (ValueError "GITHUB_REPOSITORY environment variable is required")
  else
    Return {| github_token := default "" token;
              github_repository := default "" repository;
              workflow_filename := "main.yml" |}.

(** An HTTP response: what [raise_for_status()] and [json()] do on it. *)
Record response : Type := {
  raise_for_status : result unit;
  json_body : result json }.

(** The remote API as one call of [disable_workflow] observes it: the
    outcome of the listing request for the repository, and of the disable
    request for a given workflow id. *)
Record api_view : Type := {
  get_workflows : string -> result response;
  put_disable : string -> json -> result response }.

Fixpoint assoc (key : string) (fields : list (string * json)) : option json :=
  match fields with
  | [] => None
  | (k, v) :: rest => if String.eqb k key then Some v else assoc key rest
  end.

(** [obj.get(key, default)]: only a dict has the method. *)
Definition py_get (obj : json) (key : string) (default : json) : result json :=
  match obj with
  | JObj fields => Return (match assoc key fields with Some v => v | None => default end)
  | _ => Raise (AttributeError "object has no attribute 'get'")
  end.

Fixpoint chars (s : string) : list json :=
  match s with
  | String c r => JStr (String c EmptyString) :: chars r
  | EmptyString => []
  end.

(** [for x in obj]: the items of a list, the keys of a dict, the
    characters of a string; other values are not iterable. *)
Definition py_iter (obj : json) : result (list json) :=
  match obj with
  | JArr items => Return items
  | JObj fields => Return (map (fun kv => JStr (fst kv)) fields)
  | JStr s => Return (chars s)
  | _ => Raise (TypeError "object is not iterable")
  end.

(** [obj[key]] on a dict. *)
Definition py_getitem (obj : json) (key : string) : result json :=
  match obj with
  | JObj fields =>
      match assoc key fields with
      | Some v => Return v
      | None => Raise (KeyError key)
      end
  | _ => Raise (TypeError "object is not subscriptable")
  end.

Definition json_is_str (v : json) (s : string) : bool :=
  match v with
  | JStr t => String.eqb t s
  | _ => false
  end.

(** The search loop: the first workflow whose path is the target's; the
    loop stops there. *)
Fixpoint find_workflow (path : string) (workflows : list json) : result (option json) :=
  match workflows with
  | [] => Return None
  | workflow :: rest =>
      p ← py_get workflow "path" JNull;
      if json_is_str p path then Return (Some workflow) else find_workflow path rest
  end.

Definition workflow_path (m : GitHubAPIManager) : string :=
  ".github/workflows/" +:+ workflow_filename m.

Definition disable_workflow_body (m : GitHubAPIManager) (api : api_view) : result bool :=
  response ← get_workflows api (github_repository m);
  _ ← raise_for_status response;
  body ← json_body response;
  workflows ← py_get body "workflows" (JArr []);
  items ← py_iter workflows;
  target_workflow ← find_workflow (workflow_path m) items;
  match target_workflow with
  | None => Return false
  | Some target =>
      workflow_id ← py_getitem target "id";
      response ← put_disable api (github_repository m) workflow_id;
      _ ← raise_for_status response;
      Return true
  end.

(** Both handlers of the [try] log the exception and return [False]. *)
Definition disable_workflow (m : GitHubAPIManager) (api : api_view) : result bool :=
  match disable_workflow_body m api with
  | Return b => Return b
  | Raise _ => Return false
  end.

End GitHub.

(** ** The notification sink ([telegram_notifier.py]) *)

Module Telegram.

Record TelegramNotifier : Type := {
  bot_token : string;
  chat_id : string }.

Section Init.
(** The client constructor [Bot(token=...)] of the messaging library. *)
Variable Bot : string -> result unit.

Definition __init__ (env : gmap string string) : result TelegramNotifier :=
  let token := getenv env "TELEGRAM_BOT_TOKEN" in
  let chat := getenv env "TELEGRAM_CHAT_ID" in
  if negb (truthy token) then
    Raise (ValueError "TELEGRAM_BOT_TOKEN environment variable is required")
  else if negb (truthy chat) then
    Raise (ValueError "TELEGRAM_CHAT_ID environment variable is required")
  else
    _ ← Bot (default "" token);
    Return {| bot_token := default "" token; chat_id := default "" chat |}.
End Init.

(** The channel as one notification observes it. *)
Record channel_view : Type := {
  message_outcome : result unit;        (* [bot.send_message] *)
  photo_exists : bool;                  (* [os.path.exists(photo_path)] *)
  photo_outcome : result unit }.        (* opening the file and [bot.send_photo] *)

(** What reaches the channel.  The text of a message is kept as the values
    it is formatted from. *)
Inductive sent : Type :=
| BetPlacedText (wager_amount potential_payout : Q)
| Photo (photo_path caption : string).

(** [send_message] and [send_photo] catch every exception and report
    failure as [False]. *)
Definition send_message (ch : channel_view) (message : sent) : list sent * bool :=
  match message_outcome ch with
  | Return _ => ([message], true)
  | Raise _ => ([], false)
  end.

Definition send_photo (ch : channel_view) (photo_path caption : string) : list sent * bool :=
  if negb (photo_exists ch) then ([], false)
  else match photo_outcome ch with
       | Return _ => ([Photo photo_path caption], true)
       | Raise _ => ([], false)
       end.

(** The parameters of [send_bet_confirmation], after [self]. *)
Definition send_bet_confirmation_params : list string :=
  ["wager_amount"; "potential_payout"; "screenshot_path"].

Definition send_bet_confirmation (ch : channel_view)
    (wager_amount potential_payout : Q) (screenshot_path : string) : list sent * bool :=
  let '(out, success) := send_message ch (BetPlacedText wager_amount potential_payout) in
  if success then
    let '(out', success') := send_photo ch screenshot_path "Bet slip confirmation" in
    (out ++ out', success')
  else (out, success).

End Telegram.

(** ** Construction and login of the automator ([fliff_automator.py]) *)

Module Fliff.

(** The browser, context and page handles start as [None]. *)
Record FliffAutomator : Type := {
  base_url : string;
  latitude : Q;
  longitude : Q }.

Definition __init__ (env : gmap string string) : result FliffAutomator :=
  lat ← Py.float (getenv_default env "GEOLOCATION_LATITUDE" "40.7128");
  lon ← Py.float (getenv_default env "GEOLOCATION_LONGITUDE" "-74.0060");
  Return {| base_url := "https://fliff.com"; latitude := lat; longitude := lon |}.

(** The names an instance answers to: the attributes set by [__init__]
    and the methods of the class. *)
Definition attributes : list string :=
  ["browser"; "context"; "page"; "base_url"; "latitude"; "longitude"; "selectors";
   "_setup_browser"; "_retry_operation"; "login"; "get_balance"; "check_open_wagers";
   "check_and_claim_rewards"; "execute_betting_strategy"; "_convert_odds_to_decimal";
   "_get_current_payout"; "place_bet"; "take_bet_screenshot"; "take_error_screenshot";
   "close"].

Inductive field : Type := UsernameInput | PasswordInput.

(** The calls [_login] makes on the page. *)
Inductive page_call : Type :=
| SetupBrowser
| Goto (url : string)
| WaitLoginButton
| Fill (target : field) (value : option string)
| ClickLogin
| WaitLocationContinue
| ClickLocationContinue
| WaitNetworkIdle.

(** The page as one run of [_login] observes it. *)
Record login_view : Type := {
  page_open : bool;                               (* [self.page] is set *)
  setup_outcome : result unit;
  goto_outcome : result unit;
  login_button : result bool;                     (* [false]: no element *)
  fill_outcome : field -> option string -> result unit;
  click_login_outcome : result unit;
  location_continue : result bool;
  click_continue_outcome : result unit;
  load_outcome : result unit }.

Definition step {A : Type} (c : page_call) (r : result A)
    (k : A -> list page_call * result unit) : list page_call * result unit :=
  match r with
  | Return a => let '(log, out) := k a in (c :: log, out)
  | Raise e => ([c], Raise e)
  end.

Definition _login (self : FliffAutomator) (env : gmap string string)
    (v : login_view) : list page_call * result unit :=
  let body :=
    step (Goto (base_url self +:+ "/login")) (goto_outcome v) (fun _ =>
    step WaitLoginButton (login_button v) (fun found =>
    if negb found then ([], Raise (Exception "Login button not found")) else
    step (Fill UsernameInput (getenv env "FLIFF_USERNAME"))
         (fill_outcome v UsernameInput (getenv env "FLIFF_USERNAME")) (fun _ =>
    step (Fill PasswordInput (getenv env "FLIFF_PASSWORD"))
         (fill_outcome v PasswordInput (getenv env "FLIFF_PASSWORD")) (fun _ =>
    step ClickLogin (click_login_outcome v) (fun _ =>
    let prompt :=
      match location_continue v with
      | Return true => [WaitLocationContinue; ClickLocationContinue]
      | _ => [WaitLocationContinue]
      end in
    let '(log, out) := step WaitNetworkIdle (load_outcome v) (fun _ => ([], Return tt)) in
    (prompt ++ log, out)))))) in
  if page_open v then body
  else step SetupBrowser (setup_outcome v) (fun _ => body).

End Fliff.

(** ** The orchestration driver ([main.py]) *)

Module Main.

Definition goal_balance : Q := 10.00%Q.
Definition min_bet_threshold : Q := 1.80%Q.
Definition min_payout_threshold : Q := 50.00%Q.
Definition max_payout_threshold : Q := 100.00%Q.

Record FliffBotOrchestrator : Type := {
  automator : Fliff.FliffAutomator;
  github_manager : GitHub.GitHubAPIManager;
  telegram_notifier : Telegram.TelegramNotifier }.

Definition __init__ (Bot : string -> result unit) (env : gmap string string)
    : result FliffBotOrchestrator :=
  a ← Fliff.__init__ env;
  g ← GitHub.__init__ env;
  t ← Telegram.__init__ Bot env;
  Return {| automator := a; github_manager := g; telegram_notifier := t |}.

(** Status texts, kept as the values they are formatted from. *)
Inductive status : Type :=
| BotStarted
| StillInsufficient (balance : Q)
| NoSuitableParlay.

(** What the driver asks of its collaborators, in order. *)
Inductive action : Type :=
| StatusUpdate (message : status)
| Login
| GetBalance
| SuccessNotification (balance : Q)
| DisableWorkflow
| CheckOpenWagers
| ClaimRewards
| ExecuteStrategy (min_payout max_payout : Q)
| TakeBetScreenshot
| ReadSlipPayout
| BetConfirmation (wager_amount potential_payout : Q) (screenshot_path : string)
| TakeErrorScreenshot
| ErrorNotification (error_message screenshot_path : string)
| Close
| RemoveFile (path : string).

(** The collaborators as one run observes them.  The notifier's methods
    and [disable_workflow] catch their own exceptions, and the two
    screenshot helpers return the empty path instead of raising. *)
Record cycle_view : Type := {
  login_outcome : result unit;
  first_balance : result Q;
  open_wagers : result bool;
  rewards_outcome : result unit;
  balance_after_rewards : result Q;
  strategy_outcome : result bool;
  bet_screenshot : string;
  final_balance : result Q;
  bet_slip : slip_view;
  error_screenshot : string;
  close_outcome : result unit;
  file_exists : string -> bool;
  remove_outcome : result unit }.

(** The locals of [run] that outlive the [try] block, and the calls made. *)
Record frame : Type := {
  screenshot_path : option string;
  trace : list action }.

Definition M (A : Type) : Type := frame -> frame * result A.

#[global] Instance M_ret : MRet M := fun A a fr => (fr, Return a).
#[global] Instance M_bind : MBind M := fun A B k m fr =>
  match m fr with
  | (fr', Return a) => k a fr'
  | (fr', Raise e) => (fr', Raise e)
  end.

Definition call {A : Type} (a : action) (outcome : result A) : M A :=
  fun fr => ({| screenshot_path := screenshot_path fr; trace := trace fr ++ [a] |}, outcome).

Definition throw {A : Type} (e : exn) : M A := fun fr => (fr, Raise e).

Definition set_screenshot_path (p : string) : M unit :=
  fun fr => ({| screenshot_path := Some p; trace := trace fr |}, Return tt).

(** Python values passed by keyword. *)
Inductive pyval : Type :=
| PFloat (q : Q)
| PStr (s : string).

Fixpoint lookup_kw (name : string) (kwargs : list (string * pyval)) : option pyval :=
  match kwargs with
  | [] => None
  | (k, v) :: rest => if String.eqb k name then Some v else lookup_kw name rest
  end.

(** Binding of a call made with keywords only to parameters without
    defaults: a keyword that names no parameter is refused, then a
    parameter left without a value. *)
Definition bind_keywords (fname : string) (params : list string)
    (kwargs : list (string * pyval)) : result (list pyval) :=
  match List.find (fun kv => negb (existsb (String.eqb (fst kv)) params)) kwargs with
  | Some (k, _) =>
      Raise (TypeError (fname +:+ "() got an unexpected keyword argument '" +:+ k +:+ "'"))
  | None =>
      (fix bind (ps : list string) : result (list pyval) :=
         match ps with
         | [] => Return []
         | p :: rest =>
             match lookup_kw p kwargs with
             | Some v => vs ← bind rest; Return (v :: vs)
             | None =>
                 Raise (TypeError (fname +:+ "() missing 1 required positional argument: '"
                                   +:+ p +:+ "'"))
             end
         end) params
  end.

(** The float-valued methods of the automator that the driver may call,
    by name; a name outside [Fliff.attributes] raises on lookup. *)
Definition automator_method (v : cycle_view) (name : string) : M Q :=
  if negb (existsb (String.eqb name) Fliff.attributes) then
    throw (AttributeError ("'FliffAutomator' object has no attribute '" +:+ name +:+ "'"))
  else if String.eqb name "get_balance" then call GetBalance (final_balance v)
  else if String.eqb name "_get_current_payout" then
    call ReadSlipPayout (_get_current_payout (bet_slip v))
  else throw (TypeError "object is not a float-valued method").

Definition notifier_send_bet_confirmation (kwargs : list (string * pyval)) : M unit :=
  fun fr =>
    match bind_keywords "send_bet_confirmation" Telegram.send_bet_confirmation_params kwargs with
    | Return [PFloat w; PFloat p; PStr path] => call (BetConfirmation w p path) (Return tt) fr
    | Return _ => (fr, Raise (ValueError "Unknown format code 'f' for object of type 'str'"))
    | Raise e => (fr, Raise e)
    end.

(** The resource-collection phase; [None] stands for the [return] inside it. *)
Definition collect_phase (v : cycle_view) (balance : Q) (has_blocking_wagers : bool)
    : M (option Q) :=
  if Qlt_bool balance min_bet_threshold && negb has_blocking_wagers then
    _ ← call ClaimRewards (rewards_outcome v);
    balance ← call GetBalance (balance_after_rewards v);
    if Qlt_bool balance min_bet_threshold then
      _ ← call (StatusUpdate (StillInsufficient balance)) (Return tt);
      mret None
    else mret (Some balance)
  else mret (Some balance).

Definition betting_phase (v : cycle_view) (balance : Q) (has_blocking_wagers : bool)
    : M unit :=
  if Qle_bool min_bet_threshold balance && negb has_blocking_wagers then
    bet_placed ← call (ExecuteStrategy min_payout_threshold max_payout_threshold)
                      (strategy_outcome v);
    if bet_placed : bool then
      _ ← call TakeBetScreenshot (Return tt);
      _ ← set_screenshot_path (bet_screenshot v);
      final_balance ← automator_method v "get_balance";
      potential_payout ← automator_method v "get_current_payout";
      notifier_send_bet_confirmation
        [("wager_amount", PFloat final_balance);
         ("potential_potential_payout", PFloat potential_payout);
         ("screenshot_path", PStr (bet_screenshot v))]
    else
      call (StatusUpdate NoSuitableParlay) (Return tt)
  else mret tt.

(** The [try] block of [run]. *)
Definition run_try (v : cycle_view) : M unit :=
  _ ← call (StatusUpdate BotStarted) (Return tt);
  _ ← call Login (login_outcome v);
  balance ← call GetBalance (first_balance v);
  if Qle_bool goal_balance balance then
    _ ← call (SuccessNotification balance) (Return tt);
    call DisableWorkflow (Return tt)
  else
    has_blocking_wagers ← call CheckOpenWagers (open_wagers v);
    continue ← collect_phase v balance has_blocking_wagers;
    match continue with
    | None => mret tt
    | Some balance => betting_phase v balance has_blocking_wagers
    end.

(** The [except Exception] handler. *)
Definition run_except (v : cycle_view) (e : exn) : M unit :=
  _ ← call TakeErrorScreenshot (Return tt);
  _ ← set_screenshot_path (error_screenshot v);
  call (ErrorNotification (exn_str e) (error_screenshot v)) (Return tt).

(** The [finally] block; its own [try] swallows what cleanup raises. *)
Definition remove_screenshot (v : cycle_view) : M unit :=
  fun fr =>
    match screenshot_path fr with
    | Some p =>
        if truthy (Some p) && file_exists v p
        then call (RemoveFile p) (remove_outcome v) fr
        else (fr, Return tt)
    | None => (fr, Return tt)
    end.

Definition run_finally (v : cycle_view) : M unit :=
  fun fr =>
    let cleanup : M unit :=
      _ ← call Close (close_outcome v);
      remove_screenshot v in
    (fst (cleanup fr), Return tt).

Definition run (v : cycle_view) : frame * result unit :=
  let start := {| screenshot_path := None; trace := [] |} in
  let '(fr, r) := run_try v start in
  let '(fr, r) :=
    match r with
    | Return _ => (fr, Return tt)
    | Raise e => run_except v e fr
    end in
  let '(fr', _) := run_finally v fr in
  (fr', r).

(** End-to-end scenario 3. *)
Definition scenario3 : cycle_view :=
  {| login_outcome := Return tt;
     first_balance := Return 5.00%Q;
     open_wagers := Return false;
     rewards_outcome := Return tt;
     balance_after_rewards := Return 5.00%Q;
     strategy_outcome := Return true;
     bet_screenshot := "screenshots/bet_slip_20231201_120000.png";
     final_balance := Return 5.00%Q;
     bet_slip := Return (Some "Potential payout: $75.00");
     error_screenshot := "screenshots/error_20231201_120001.png";
     close_outcome := Return tt;
     file_exists := fun _ => true;
     remove_outcome := Return tt |}.

End Main.

(** ** The safe-odds band as the specification words it *)

(** American odds of a decimal multiplier: [+100 (d - 1)] for an underdog
    ([d >= 2]), [-100 / (d - 1)] for a favourite ([1 < d < 2]); a
    multiplier of at most 1 has none. *)
Definition american_equivalent (d : Q) : option Q :=
  if Qle_bool 2 d then Some (100 * (d - 1))%Q
  else if Qlt_bool 1 d then Some (- (100 / (d - 1)))%Q
  else None.

(** Safe odds by the specification: the American-equivalent odds lie
    within [-250, +200]. *)
Definition spec_safe_odds (d : Q) : bool :=
  match american_equivalent d with
  | Some a => Qle_bool (-250) a && Qle_bool a 200
  | None => false
  end.

(** [str(n)] for a natural number: its decimal numeral. *)
Definition numeral (n : N) : string := NilEmpty.string_of_uint (N.to_uint n).

(** A float-valued call returns a value equal to [q]. *)
Definition returns_float (r : result Q) (q : Q) : Prop :=
  match r with
  | Return d => (d == q)%Q
  | Raise _ => False
  end.

(** A text with no sign in front once stripped. *)
Definition bare (odds_text : string) : Prop :=
  Py.startswith "+" (Py.strip odds_text) = false /\
  Py.startswith "-" (Py.strip odds_text) = false.

(** A clickable proposal cell showing [label]. *)
Definition labelled (label : string) : proposal_view :=
  {| odds_label := Return label; click_outcome := Return tt;
     slip_after := Return (Some "Potential payout: $6.00") |}.

(** Units of work as the test-suite writes them: closures over a call
    counter. *)
Definition successful_operation (call_count : nat) : nat * result string :=
  (S call_count, Return "success").

Definition sometimes_failing_operation (call_count : nat) : nat * result string :=
  (S call_count,
   if Nat.eqb (S call_count) 1 then Raise (Exception "First attempt failed")
   else Return "success").

Definition failing_operation (call_count : nat) : nat * result string :=
  (S call_count, Raise (Exception "Operation failed")).

(** The slips of a view are all readable and show [texts]. *)
Definition shows (v : activity_view) (texts : list string) : Prop :=
  nav_activity v = Return tt /\ load_activity v = Return tt /\
  bet_slips v = Return (map Return texts).

Fixpoint all_chars (p : ascii -> bool) (s : string) : bool :=
  match s with
  | String c r => p c && all_chars p r
  | EmptyString => true
  end.

Definition not_amount_char (c : ascii) : bool := negb (is_amount_char c).

(** [s] is empty or starts with a character that [p] rejects. *)
Definition stops (p : ascii -> bool) (s : string) : bool :=
  match s with
  | String c _ => negb (p c)
  | EmptyString => true
  end.

(** A sports view whose navigation succeeds and whose listing shows [gs]. *)
Definition lists (v : sports_view) (gs : list game_view) : Prop :=
  nav_sports v = Return tt /\ load_sports v = Return tt /\ games v = Return gs.

(** After leg [c] the payout had neither entered the band nor reached
    the maximum: it was still short of the minimum. *)
Definition short (min_payout max_payout : Q) (c : candidate) : Prop :=
  exists p, reading c = Return p /\ (p < min_payout)%Q /\ (p < max_payout)%Q.

Definition in_band (min_payout max_payout p : Q) : Prop :=
  (min_payout <= p)%Q /\ (p <= max_payout)%Q.

(** How the accumulation loop started from payout [start] can have ended
    with [out]: no leg was added, or legs were added one after the other,
    each one before the last leaving the payout short of the band, and the
    payout read after the last one is the final payout. *)
Definition greedy_run (min_payout max_payout start : Q) (taken : list candidate)
    (out : parlay_outcome) : Prop :=
  (taken = [] /\ current_payout out = start) \/
  (exists front c,
     taken = front ++ [c] /\
     (start < max_payout)%Q /\
     Forall (short min_payout max_payout) front /\
     Forall (fun d => click_outcome (element d) = Return tt) taken /\
     reading c = Return (current_payout out)).

(** A cell showing [label] whose click leaves the slip showing [slip_text]. *)
Definition cell (label slip_text : string) : proposal_view :=
  {| odds_label := Return label; click_outcome := Return tt;
     slip_after := Return (Some slip_text) |}.

Definition listing (gs : list game_view) : sports_view :=
  {| nav_sports := Return tt; load_sports := Return tt; games := Return gs |}.

(** Three legs; the payout enters the band 50..100 after the second. *)
Definition three_legs : list game_view :=
  [ {| proposals := Return [cell "+150" "Potential payout: $2.50";
                            cell "-110" "Potential payout: $75.50"] |};
    {| proposals := Return [cell "+100" "Potential payout: $151.00"] |} ].

(** ** Outcomes of the workflow requests *)

Module GitHubFacts.
Import GitHub.

(** The listing request succeeds and its body yields the items the search
    loop iterates over. *)
Definition listing_ok (m : GitHubAPIManager) (api : api_view) (items : list json) : Prop :=
  exists response body workflows,
    get_workflows api (github_repository m) = Return response /\
    raise_for_status response = Return tt /\
    json_body response = Return body /\
    py_get body "workflows" (JArr []) = Return workflows /\
    py_iter workflows = Return items.

(** The workflow's [path] entry is the target path. *)
Definition has_path (path : string) (workflow : json) : Prop :=
  exists p, py_get workflow "path" JNull = Return p /\ json_is_str p path = true.

(** The disable request for the target succeeds. *)
Definition disable_ok (m : GitHubAPIManager) (api : api_view) (target : json) : Prop :=
  exists workflow_id response,
    py_getitem target "id" = Return workflow_id /\
    put_disable api (github_repository m) workflow_id = Return response /\
    raise_for_status response = Return tt.

Definition ok_response (body : json) : response :=
  {| raise_for_status := Return tt; json_body := Return body |}.

Definition failed_response : response :=
  {| raise_for_status := Raise (RequestException "404 Client Error");
     json_body := Return JNull |}.

Definition main_workflow : json :=
  JObj [("id", JNum 12345); ("path", JStr ".github/workflows/main.yml");
        ("state", JStr "active")].

Definition other_workflow : json :=
  JObj [("id", JNum 7); ("path", JStr ".github/workflows/ci.yml")].

Definition test_env : gmap string string :=
  list_to_map
    [("FLIFF_USERNAME", "test_user"); ("FLIFF_PASSWORD", "test_password");
     ("GITHUB_TOKEN", "test_github_token"); ("GITHUB_REPOSITORY", "test/test-repo");
     ("TELEGRAM_BOT_TOKEN", "test_telegram_token"); ("TELEGRAM_CHAT_ID", "test_chat_id");
     ("GEOLOCATION_LATITUDE", "40.7128"); ("GEOLOCATION_LONGITUDE", "-74.0060")].

Definition test_manager : GitHubAPIManager :=
  {| github_token := "test_github_token"; github_repository := "test/test-repo";
     workflow_filename := "main.yml" |}.

Definition api_with (workflows : list json) (put : result response) : api_view :=
  {| get_workflows := fun _ => Return (ok_response (JObj [("workflows", JArr workflows)]));
     put_disable := fun _ _ => put |}.

End GitHubFacts.

(** ** Configuration scenarios *)

(** The error a constructor raises for the missing variable [key]. *)
Definition required_error (key : string) : exn :=
  ValueError (key +:+ " environment variable is required").

(** An environment with every token but without the login credentials. *)
Definition no_credentials_env : gmap string string :=
  list_to_map
    [("GITHUB_TOKEN", "test_github_token"); ("GITHUB_REPOSITORY", "test/test-repo");
     ("TELEGRAM_BOT_TOKEN", "test_telegram_token"); ("TELEGRAM_CHAT_ID", "test_chat_id")].

(** A client constructor that accepts every token. *)
Definition any_bot (token : string) : result unit := Return tt.

(** A login page on which every step succeeds. *)
Definition smooth_login : Fliff.login_view :=
  {| Fliff.page_open := true;
     Fliff.setup_outcome := Return tt;
     Fliff.goto_outcome := Return tt;
     Fliff.login_button := Return true;
     Fliff.fill_outcome := fun _ _ => Return tt;
     Fliff.click_login_outcome := Return tt;
     Fliff.location_continue := Return false;
     Fliff.click_continue_outcome := Return tt;
     Fliff.load_outcome := Return tt |}.

Definition is_confirmation (a : Main.action) : bool :=
  match a with
  | Main.BetConfirmation _ _ _ => true
  | _ => false
  end.

Definition is_bet_screenshot (a : Main.action) : bool :=
  match a with
  | Main.TakeBetScreenshot => true
  | _ => false
  end.

(** No bet confirmation among the calls made so far. *)
Definition quiet (fr : Main.frame) : Prop :=
  List.filter is_confirmation (Main.trace fr) = [].

(** A step of the driver that sends no bet confirmation. *)
Definition preserves {A : Type} (m : Main.M A) : Prop :=
  forall fr, quiet fr -> quiet (fst (m fr)).

(** ** Accounting of the backoff *)

(** The time slept in total, in seconds. *)
Definition total_sleep (log : list event) : Z := fold_right Z.add 0 (sleeps log).

(** The waits before attempts [1 .. k]: [delay * 2 ^ 0], ..., [delay * 2 ^ (k - 1)]. *)
Definition backoff (delay : Z) (k : nat) : list Z :=
  map (fun j => delay * 2 ^ Z.of_nat j) (seq 0 k).

(** A unit that fails on its first [failures] calls and then succeeds. *)
Definition flaky_operation (failures : nat) (call_count : nat) : nat * result string :=
  (S call_count,
   if Nat.ltb call_count failures then Raise (Exception "not yet") else Return "success").

(** ** Characters of an amount token *)

Definition is_decimal_char (c : ascii) : bool := Py.is_digit c || Ascii.eqb c ".".

Definition not_space (c : ascii) : bool := negb (Py.is_space c).

(** ** Reading the balance ([FliffAutomator.get_balance]) *)

(** What one run of [_get_balance] observes: the click on the account
    entry, the wait for network idle, and the balance element with its
    text ([Return None]: no element). *)
Record account_view : Type := {
  nav_account : result unit;
  load_account : result unit;
  balance_element : slip_view }.

(** [re.sub(r'[,$]', '', s)] *)
Fixpoint remove_money_marks (s : string) : string :=
  match s with
  | String c r =>
      if Ascii.eqb c "," || Ascii.eqb c "$" then remove_money_marks r
      else String c (remove_money_marks r)
  | EmptyString => EmptyString
  end.

Definition _get_balance (v : account_view) : result Q :=
  _ ← nav_account v;
  _ ← load_account v;
  balance_element ← balance_element v;
  match balance_element with
  | None => Raise (Exception "Balance element not found")
  | Some balance_text =>
      let balance_text := Py.strip balance_text in
      let balance_clean := remove_money_marks balance_text in
      Py.float balance_clean
  end.

Definition get_balance (views : nat -> account_view) : retry_run (W := nat) (A := Q) :=
  _retry_operation (fun i => (S i, _get_balance (views i)))
    default_max_retries default_delay "get_balance" O.

(** An account view that shows [balance_text]. *)
Definition account_showing (balance_text : string) : account_view :=
  {| nav_account := Return tt; load_account := Return tt;
     balance_element := Return (Some balance_text) |}.

(** [decorated s t]: the text [t] is [s] with commas and dollar signs
    inserted at any places. *)
Inductive decorated : string -> string -> Prop :=
| decorated_nil : decorated EmptyString EmptyString
| decorated_keep (c : ascii) (s t : string) :
    decorated s t -> decorated (String c s) (String c t)
| decorated_comma (s t : string) : decorated s t -> decorated s (String "," t)
| decorated_dollar (s t : string) : decorated s t -> decorated s (String "$" t).

(** ** Shapes of the driver's trace *)

(** The trace holds one [Close], with nothing before it that removes a
    file, and after it nothing or the removal of one file. *)
Fixpoint ends_with_cleanup (tr : list Main.action) : bool :=
  match tr with
  | [] => false
  | Main.Close :: rest =>
      match rest with
      | [] => true
      | [Main.RemoveFile _] => true
      | _ => false
      end
  | Main.RemoveFile _ :: _ => false
  | _ :: rest => ends_with_cleanup rest
  end.

Definition is_close (a : Main.action) : bool :=
  match a with Main.Close => true | _ => false end.

Definition is_removal (a : Main.action) : bool :=
  match a with Main.RemoveFile _ => true | _ => false end.

(** The frame [run] starts from. *)
Definition initial_frame : Main.frame :=
  {| Main.screenshot_path := None; Main.trace := [] |}.

(** What the handler of [run] adds to the trace. *)
Definition handler_actions (v : Main.cycle_view) (r : result unit) : list Main.action :=
  match r with
  | Return _ => []
  | Raise e =>
      [Main.TakeErrorScreenshot;
       Main.ErrorNotification (exn_str e) (Main.error_screenshot v)]
  end.

(** End-to-end scenario 4: the balance cannot be read. *)
Definition scenario4 : Main.cycle_view :=
  {| Main.login_outcome := Return tt;
     Main.first_balance := Raise (Exception "Test exception");
     Main.open_wagers := Return false;
     Main.rewards_outcome := Return tt;
     Main.balance_after_rewards := Return 0%Q;
     Main.strategy_outcome := Return false;
     Main.bet_screenshot := "";
     Main.final_balance := Return 0%Q;
     Main.bet_slip := Return None;
     Main.error_screenshot := "error_screenshot.png";
     Main.close_outcome := Return tt;
     Main.file_exists := fun _ => false;
     Main.remove_outcome := Return tt |}.

(** A run in which every collaborator answers and the page shows the
    given balances and wager state. *)
Definition cycle (balance after_rewards : Q) (blocking : bool) (placed : bool)
    : Main.cycle_view :=
  {| Main.login_outcome := Return tt;
     Main.first_balance := Return balance;
     Main.open_wagers := Return blocking;
     Main.rewards_outcome := Return tt;
     Main.balance_after_rewards := Return after_rewards;
     Main.strategy_outcome := Return placed;
     Main.bet_screenshot := "screenshots/bet_slip_20231201_120000.png";
     Main.final_balance := Return after_rewards;
     Main.bet_slip := Return (Some "Potential payout: $75.00");
     Main.error_screenshot := "screenshots/error_20231201_120001.png";
     Main.close_outcome := Return tt;
     Main.file_exists := fun _ => true;
     Main.remove_outcome := Return tt |}.

Definition is_claim_rewards (a : Main.action) : bool :=
  match a with Main.ClaimRewards => true | _ => false end.

(** ** Login and the location prompt *)

(** The environment variable typed into each field. *)
Definition credential_key (f : Fliff.field) : string :=
  match f with
  | Fliff.UsernameInput => "FLIFF_USERNAME"
  | Fliff.PasswordInput => "FLIFF_PASSWORD"
  end.

(** The same page with another answer to the wait for the location prompt
    and to the click on it. *)
Definition with_prompt (v : Fliff.login_view) (prompt : result bool) (click : result unit)
    : Fliff.login_view :=
  {| Fliff.page_open := Fliff.page_open v;
     Fliff.setup_outcome := Fliff.setup_outcome v;
     Fliff.goto_outcome := Fliff.goto_outcome v;
     Fliff.login_button := Fliff.login_button v;
     Fliff.fill_outcome := Fliff.fill_outcome v;
     Fliff.click_login_outcome := Fliff.click_login_outcome v;
     Fliff.location_continue := prompt;
     Fliff.click_continue_outcome := click;
     Fliff.load_outcome := Fliff.load_outcome v |}.

Definition is_prompt_click (c : Fliff.page_call) : bool :=
  match c with Fliff.ClickLocationContinue => true | _ => false end.

(** A login page on which every step succeeds, with the given answer to
    the wait for the location prompt. *)
Definition login_page (open : bool) (prompt : result bool) : Fliff.login_view :=
  {| Fliff.page_open := open;
     Fliff.setup_outcome := Return tt;
     Fliff.goto_outcome := Return tt;
     Fliff.login_button := Return true;
     Fliff.fill_outcome := fun _ _ => Return tt;
     Fliff.click_login_outcome := Return tt;
     Fliff.location_continue := prompt;
     Fliff.click_continue_outcome := Raise (Exception "element is detached");
     Fliff.load_outcome := Return tt |}.

Definition default_automator : Fliff.FliffAutomator :=
  {| Fliff.base_url := "https://fliff.com";
     Fliff.latitude := 40.7128%Q; Fliff.longitude := (-74.0060)%Q |}.

(** ** Discovery of candidates *)

(** What the discovery loop read for a candidate: it is an unlocked cell
    of a listed game, its label converts to the odds recorded, and these
    lie in the range the loop accepts. *)
Definition discovered (gs : list game_view) (c : candidate) : Prop :=
  In (game c) gs /\
  exists ps label,
    proposals (game c) = Return ps /\ In (element c) ps /\
    odds_label (element c) = Return label /\
    _convert_odds_to_decimal (Py.strip label) = Return (odds c) /\
    in_safe_range (odds c) = true.

(** A game whose cells cannot be listed. *)
Definition unreadable_game : game_view :=
  {| proposals := Raise (Exception "Element is not attached to the DOM") |}.

(** ** Listings with entries that are no workflow objects *)

(** An entry of the listing that is an object whose [path] is not the
    target path. *)
Definition other_path (path : string) (workflow : GitHub.json) : Prop :=
  exists p, GitHub.py_get workflow "path" GitHub.JNull = Return p /\
            GitHub.json_is_str p path = false.

(** ** Notifications with an optional screenshot ([telegram_notifier.py]) *)

Module Notices.

(** The texts of the other notifications, kept as the values they are
    formatted from. *)
Inductive text : Type :=
| SuccessText (balance : Q)
| ErrorText (error_message : string)
| StatusText (message : string).

(** What reaches the channel: a text, or a photo sent by [send_photo]. *)
Definition delivery : Type := (text + Telegram.sent)%type.

Definition send_message (ch : Telegram.channel_view) (message : text) : list delivery * bool :=
  match Telegram.message_outcome ch with
  | Return _ => ([inl message], true)
  | Raise _ => ([], false)
  end.

Definition send_photo (ch : Telegram.channel_view) (photo_path caption : string)
    : list delivery * bool :=
  let '(out, success) := Telegram.send_photo ch photo_path caption in
  (map inr out, success).

(** [if screenshot_path and success: success = self.send_photo(...)] *)
Definition with_screenshot (ch : Telegram.channel_view) (message : text)
    (screenshot_path : option string) (caption : string) : list delivery * bool :=
  let '(out, success) := send_message ch message in
  if truthy screenshot_path && success then
    let '(out', success') :=
      send_photo ch (default "" screenshot_path) caption in
    (out ++ out', success')
  else (out, success).

Definition send_success_notification (ch : Telegram.channel_view) (balance : Q)
    (screenshot_path : option string) : list delivery * bool :=
  with_screenshot ch (SuccessText balance) screenshot_path "Final balance screenshot".

Definition send_error_notification (ch : Telegram.channel_view) (error_message : string)
    (screenshot_path : option string) : list delivery * bool :=
  with_screenshot ch (ErrorText error_message) screenshot_path "Error screenshot".

Definition send_status_update (ch : Telegram.channel_view) (message : string)
    : list delivery * bool :=
  send_message ch (StatusText message).

End Notices.

(** The channel delivers the text. *)
Definition text_delivered (ch : Telegram.channel_view) : bool :=
  negb (raises (Telegram.message_outcome ch)).

(** The file is there and the channel delivers the photo. *)
Definition photo_delivered (ch : Telegram.channel_view) : bool :=
  Telegram.photo_exists ch && negb (raises (Telegram.photo_outcome ch)).

(** ** Construction of the orchestrator *)

(** The four variables the constructors insist on. *)
Definition required_keys : list string :=
  ["GITHUB_TOKEN"; "GITHUB_REPOSITORY"; "TELEGRAM_BOT_TOKEN"; "TELEGRAM_CHAT_ID"].

(** The variable is set to a non-empty text [value]. *)
Definition set_to (env : gmap string string) (key value : string) : Prop :=
  env !! key = Some value /\ value <> "".

(** ** Placing the bet ([FliffAutomator.place_bet]) *)

Module Bet.

(** The calls [_place_bet] makes on the page. *)
Inductive page_call : Type :=
| WaitBetSlip
| Screenshot (path : string)
| WaitWagerInput
| ClickWagerInput
| FillWager (text : string)
| WaitSubmit
| ClickSubmit
| WaitConfirmation.

(** The page as one run of [_place_bet] observes it.  A wait answers
    [Return false] when it gives no element. *)
Record bet_view : Type := {
  timestamp : string;                       (* [datetime.now().strftime(...)] *)
  bet_slip_element : result bool;
  screenshot_outcome : result unit;
  wager_input : result bool;
  click_input : result unit;
  fill_outcome : string -> result unit;
  submit_button : result bool;
  click_submit : result unit;
  confirmation : result unit }.

(** [int(x)] on a float truncates toward zero; [str(n)] on an int. *)
Definition int (x : Q) : Z := Z.quot (Qnum x) (Z.pos (Qden x)).

Definition str (n : Z) : string :=
  if (n <? 0)%Z then "-" +:+ numeral (Z.to_N (- n)) else numeral (Z.to_N n).

Definition none_has_no (attribute : string) : exn :=
  AttributeError ("'NoneType' object has no attribute '" +:+ attribute +:+ "'").

Definition step {A B : Type} (c : page_call) (r : result A)
    (k : A -> list page_call * result B) : list page_call * result B :=
  match r with
  | Return a => let '(log, out) := k a in (c :: log, out)
  | Raise e => ([c], Raise e)
  end.

(** [take_bet_screenshot]: the path of the file, or the empty text when
    anything in it raises. *)
Definition take_bet_screenshot (v : bet_view) : list page_call * string :=
  let screenshot_path := "screenshots/bet_slip_" +:+ timestamp v +:+ ".png" in
  match bet_slip_element v with
  | Return true =>
      match screenshot_outcome v with
      | Return _ => ([WaitBetSlip; Screenshot screenshot_path], screenshot_path)
      | Raise _ => ([WaitBetSlip; Screenshot screenshot_path], "")
      end
  | _ => ([WaitBetSlip], "")
  end.

Definition _place_bet (v : bet_view) (wager_amount : Q) : list page_call * result bool :=
  let '(log, screenshot_path) := take_bet_screenshot v in
  let '(log', out) :=
    step WaitWagerInput (wager_input v) (fun found =>
    if negb found then ([], Raise (none_has_no "click")) else
    step ClickWagerInput (click_input v) (fun _ =>
    step (FillWager (str (int wager_amount)))
         (fill_outcome v (str (int wager_amount))) (fun _ =>
    step WaitSubmit (submit_button v) (fun found =>
    if negb found then ([], Raise (none_has_no "click")) else
    step ClickSubmit (click_submit v) (fun _ =>
    step WaitConfirmation (confirmation v) (fun _ => ([], Return true))))))) in
  (log ++ log', out).

(** One attempt of the retry executor: attempt [i] observes [views i];
    the world keeps the calls made on the page so far. *)
Definition attempt (views : nat -> bet_view) (wager_amount : Q)
    (w : nat * list page_call) : (nat * list page_call) * result bool :=
  let '(log, out) := _place_bet (views (fst w)) wager_amount in
  ((S (fst w), snd w ++ log), out).

Definition place_bet (views : nat -> bet_view) (wager_amount : Q)
    : retry_run (W := nat * list page_call) (A := bool) :=
  _retry_operation (attempt views wager_amount)
    default_max_retries default_delay "place_bet" (O, []).

End Bet.

Definition is_submit (c : Bet.page_call) : bool :=
  match c with Bet.ClickSubmit => true | _ => false end.

(** The number of times the submit button was clicked. *)
Definition submissions (log : list Bet.page_call) : nat := length (List.filter is_submit log).

(** Every step up to and including the click on the submit button
    succeeds. *)
Definition submits (v : Bet.bet_view) (wager_amount : Q) : Prop :=
  Bet.wager_input v = Return true /\ Bet.click_input v = Return tt /\
  Bet.fill_outcome v (Bet.str (Bet.int wager_amount)) = Return tt /\
  Bet.submit_button v = Return true /\ Bet.click_submit v = Return tt.

(** A page on which the bet goes through to the submit click; the
    confirmation answers as given. *)
Definition bet_page (confirmation : result unit) : Bet.bet_view :=
  {| Bet.timestamp := "20231201_120000";
     Bet.bet_slip_element := Return true;
     Bet.screenshot_outcome := Return tt;
     Bet.wager_input := Return true;
     Bet.click_input := Return tt;
     Bet.fill_outcome := fun _ => Return tt;
     Bet.submit_button := Return true;
     Bet.click_submit := Return tt;
     Bet.confirmation := confirmation |}.

(** The confirmation times out on the first two attempts. *)
Definition slow_confirmation (i : nat) : Bet.bet_view :=
  bet_page (if (i <? 2)%nat then Raise (PlaywrightError "Timeout 30000ms exceeded")
            else Return tt).

(** ** Claiming rewards ([FliffAutomator.check_and_claim_rewards]) *)

Module Rewards.

(** What [_claim_rewards] does that can be observed: clicks, pauses, and
    the count it logs at the end. *)
Inductive page_call : Type :=
| ClickShopClaim
| Sleep (seconds : Z)
| ClickReward (index : nat)
| Claimed (claimed_count : nat).

(** A button of the rewards page: the outcome of reading its text and of
    clicking it. *)
Record button_view : Type := {
  label : result string;
  click_outcome : result unit }.

(** The pages as one run of [_claim_rewards] observes them.  [shop_claim]
    is the outcome of the query for the shop's claim button: no element,
    or the outcome of the click on it. *)
Record rewards_view : Type := {
  nav_shop : result unit;
  load_shop : result unit;
  shop_claim : result (option (result unit));
  nav_rewards : result unit;
  load_rewards : result unit;
  reward_buttons : result (list button_view) }.

(** The loop over the buttons; [index] is the position of the first of
    [buttons] on the page. *)
Fixpoint claim_buttons (buttons : list button_view) (index claimed_count : nat)
    : list page_call * result nat :=
  match buttons with
  | [] => ([], Return claimed_count)
  | button :: rest =>
      match label button with
      | Raise e => ([], Raise e)
      | Return text =>
          if Py.contains "claim" (Py.lower text) then
            match click_outcome button with
            | Raise e => ([ClickReward index], Raise e)
            | Return _ =>
                let '(log, out) := claim_buttons rest (S index) (S claimed_count) in
                (ClickReward index :: Sleep 1 :: log, out)
            end
          else claim_buttons rest (S index) claimed_count
      end
  end.

Definition _claim_rewards (v : rewards_view) : list page_call * result unit :=
  match (_ ← nav_shop v; _ ← load_shop v; shop_claim v) with
  | Raise e => ([], Raise e)
  | Return shop =>
      let '(log, out) :=
        match shop with
        | None => ([], Return tt)
        | Some (Return _) => ([ClickShopClaim; Sleep 2], Return tt)
        | Some (Raise e) => ([ClickShopClaim], Raise e)
        end in
      match (_ ← out; _ ← nav_rewards v; _ ← load_rewards v; reward_buttons v) with
      | Raise e => (log, Raise e)
      | Return buttons =>
          match claim_buttons buttons 0 0 with
          | (log', Return claimed_count) => (log ++ log' ++ [Claimed claimed_count], Return tt)
          | (log', Raise e) => (log ++ log', Raise e)
          end
      end
  end.

End Rewards.

(** The button shows a text that contains [claim], in any case. *)
Definition claimable (b : Rewards.button_view) : bool :=
  match Rewards.label b with
  | Return text => Py.contains "claim" (Py.lower text)
  | Raise _ => false
  end.

(** The positions, counted from [index], of the claimable buttons. *)
Fixpoint claimable_from (index : nat) (buttons : list Rewards.button_view) : list nat :=
  match buttons with
  | [] => []
  | b :: rest =>
      if claimable b then index :: claimable_from (S index) rest
      else claimable_from (S index) rest
  end.

(** The positions of the reward buttons clicked, in the order of the
    clicks. *)
Definition clicked (log : list Rewards.page_call) : list nat :=
  omap (fun c => match c with Rewards.ClickReward i => Some i | _ => None end) log.

(** The seconds paused in total. *)
Definition paused (log : list Rewards.page_call) : Z :=
  fold_right Z.add 0
    (omap (fun c => match c with Rewards.Sleep t => Some t | _ => None end) log).

Definition reward_button (text : string) : Rewards.button_view :=
  {| Rewards.label := Return text; Rewards.click_outcome := Return tt |}.

(** A shop with a claim button and a rewards page with three buttons, two
    of them claimable. *)
Definition rewards_page : Rewards.rewards_view :=
  {| Rewards.nav_shop := Return tt; Rewards.load_shop := Return tt;
     Rewards.shop_claim := Return (Some (Return tt));
     Rewards.nav_rewards := Return tt; Rewards.load_rewards := Return tt;
     Rewards.reward_buttons :=
       Return [reward_button "CLAIM"; reward_button "2h 13m"; reward_button "Claim now"] |}.

(** ** Magnitudes of odds *)

(** The magnitudes between which the multiplier of signed odds stays
    strictly above 1 in binary floating point too.  A magnitude far below
    the first is lost when 100 is added to it, and for one far above the
    second the quotient of the sum by it rounds to 1; in exact arithmetic
    every positive magnitude would do. *)
Definition least_magnitude : Q := 1 # 10 ^ 12.
Definition greatest_magnitude : Q := inject_Z (10 ^ 15).

(** The whole numbers below [2 ^ 53] are floats, and [float] reads their
    numerals exactly. *)
Definition exact_integers : Z := 2 ^ 53.

(** ** The wager check in terms of the slip texts *)

(** [any_case word lowercase]: [word] is [lowercase] with some of its
    letters written in upper case. *)
Inductive any_case : string -> string -> Prop :=
| any_case_nil : any_case EmptyString EmptyString
| any_case_same (c : ascii) (word lowercase : string) :
    any_case word lowercase -> any_case (String c word) (String c lowercase)
| any_case_upper (c : ascii) (word lowercase : string) :
    (97 <= N_of_ascii c <= 122)%N ->
    any_case word lowercase ->
    any_case (String (ascii_of_N (N_of_ascii c - 32)) word) (String c lowercase).

(** The text holds the word [payout], in any mix of upper and lower
    case. *)
Definition mentions_payout (payout_text : string) : Prop :=
  exists before word after,
    payout_text = before +:+ word +:+ after /\ any_case word "payout".

(** [run] is the first run of digits and commas of the text: nothing
    before it is a digit or a comma, and it ends with the text or in front
    of another character. *)
Definition first_run (payout_text run : string) : Prop :=
  exists before after,
    payout_text = before +:+ run +:+ after /\ run <> EmptyString /\
    all_chars not_amount_char before = true /\
    all_chars is_amount_char run = true /\
    stops is_amount_char after = true.

Fixpoint has_digit (run : string) : bool :=
  match run with
  | String c r => Py.is_digit c || has_digit r
  | EmptyString => false
  end.

(** The whole number the digits of [run] denote, read from the left after
    [acc]; the commas are skipped. *)
Fixpoint digits_number (acc : N) (run : string) : N :=
  match run with
  | String c r =>
      if Py.is_digit c then digits_number (10 * acc + Py.digit_val c) r
      else digits_number acc r
  | EmptyString => acc
  end.

(** What the check makes of one slip.  A slip blocks when it mentions a
    payout and the digits of its first run denote 2 or more; it cannot be
    read when it mentions a payout and its first run holds commas only; it
    passes otherwise. *)
Definition blocks (payout_text : string) : Prop :=
  mentions_payout payout_text /\
  exists run, first_run payout_text run /\ has_digit run = true /\
              (2 <= digits_number 0 run)%N.

Definition unreadable (payout_text : string) : Prop :=
  mentions_payout payout_text /\
  exists run, first_run payout_text run /\ has_digit run = false.

Definition passes (payout_text : string) : Prop :=
  ~ mentions_payout payout_text \/
  all_chars not_amount_char payout_text = true \/
  exists run, first_run payout_text run /\ has_digit run = true /\
              (digits_number 0 run <= 1)%N.

(** The slips in page order up to the first that does not pass. *)
Definition reaches (verdict : string -> Prop) (texts : list string) : Prop :=
  exists front t back,
    texts = front ++ t :: back /\ Forall passes front /\ verdict t.

(** [payout_text] displays the payout [amount]: it ends with the payout
    label, a dollar sign and the amount. *)
Definition displays_payout (payout_text amount : string) : Prop :=
  exists before, payout_text = before +:+ "payout: $" +:+ amount.

(** The characters a decimal numeral is made of. *)
Definition is_numeral_char (c : ascii) : bool :=
  Py.is_digit c || Ascii.eqb c "_" || Ascii.eqb c "." || Ascii.eqb c "e" || Ascii.eqb c "E"
  || Ascii.eqb c "+" || Ascii.eqb c "-".

(** * Properties *)

(** ** Sequencing *)

Lemma bind_Return {A B : Type} (a : A) (k : A -> result B) : Return a ≫= k = k a.
Proof. reflexivity. Qed.

Lemma bind_Raise {A B : Type} (e : exn) (k : A -> result B) : Raise e ≫= k = Raise e.
Proof. reflexivity. Qed.

(** ** Comparisons *)

Lemma Qlt_bool_iff (x y : Q) : Qlt_bool x y = true <-> (x < y)%Q.
Proof.
  unfold Qlt_bool. rewrite negb_true_iff, <- not_true_iff_false, Qle_bool_iff.
  split; [apply Qnot_le_lt | apply Qlt_not_le].
Qed.

Lemma Qle_bool_false_iff (x y : Q) : Qle_bool x y = false <-> (y < x)%Q.
Proof.
  rewrite <- not_true_iff_false, Qle_bool_iff.
  split; [apply Qnot_le_lt | apply Qlt_not_le].
Qed.


(** ** Texts *)

Lemma append_cons (c : ascii) (a b : string) : String c a +:+ b = String c (a +:+ b).
Proof. reflexivity. Qed.

Lemma append_empty (b : string) : EmptyString +:+ b = b.
Proof. reflexivity. Qed.

Lemma all_chars_app (p : ascii -> bool) (a b : string) :
  all_chars p (a +:+ b) = all_chars p a && all_chars p b.
Proof.
  induction a as [|c a IH]; [reflexivity|].
  rewrite append_cons. cbn [all_chars]. now rewrite IH, andb_assoc.
Qed.

Lemma all_chars_impl (p q : ascii -> bool) (s : string) :
  (forall c, p c = true -> q c = true) -> all_chars p s = true -> all_chars q s = true.
Proof.
  intros Hpq. induction s as [|c s IH]; [reflexivity|]. cbn [all_chars]. intros H.
  apply andb_prop in H as [Hc Hs]. now rewrite (Hpq _ Hc), IH.
Qed.

(** ** Stripping *)

Lemma rstrip_cons_nonspace c s :
  Py.is_space c = false -> Py.rstrip (String c s) = String c (Py.rstrip s).
Proof.
  intros Hc. simpl. destruct (Py.rstrip s); [now rewrite Hc | reflexivity].
Qed.

(** *** Stripping by a class of characters *)

Lemma lstrip_is_by (s : string) : Py.lstrip s = Py.lstrip_by Py.is_space s.
Proof. induction s as [|c r IH]; [reflexivity|]. cbn. now rewrite IH. Qed.

Lemma rstrip_is_by (s : string) : Py.rstrip s = Py.rstrip_by Py.is_space s.
Proof. induction s as [|c r IH]; [reflexivity|]. cbn. now rewrite IH. Qed.

Section StripBy.
Variable p : ascii -> bool.

Lemma lstrip_by_decomp (s : string) :
  exists a, s = a +:+ Py.lstrip_by p s /\ all_chars p a = true.
Proof.
  induction s as [|c r (a & Hr & Ha)]; [now exists EmptyString|].
  cbn [Py.lstrip_by]. destruct (p c) eqn:Hc.
  - exists (String c a). rewrite append_cons, <- Hr. cbn [all_chars]. now rewrite Hc, Ha.
  - now exists EmptyString.
Qed.

Lemma rstrip_by_decomp (s : string) :
  exists b, s = Py.rstrip_by p s +:+ b /\ all_chars p b = true.
Proof.
  induction s as [|c r (b & Hr & Hb)]; [now exists EmptyString|].
  cbn [Py.rstrip_by]. destruct (Py.rstrip_by p r) as [|d r'] eqn:E.
  - rewrite append_empty in Hr. subst r. destruct (p c) eqn:Hc.
    + exists (String c b). rewrite append_empty. cbn [all_chars]. now rewrite Hc, Hb.
    + exists b. now rewrite append_cons, append_empty.
  - exists b. now rewrite append_cons, <- Hr.
Qed.

Lemma rstrip_by_spaces (b : string) : all_chars p b = true -> Py.rstrip_by p b = EmptyString.
Proof.
  induction b as [|c b IH]; [reflexivity|]. cbn [all_chars Py.rstrip_by]. intros H.
  apply andb_prop in H as [Hc Hb]. now rewrite (IH Hb), Hc.
Qed.

Lemma rstrip_by_app_spaces (x b : string) :
  all_chars p b = true -> Py.rstrip_by p (x +:+ b) = Py.rstrip_by p x.
Proof.
  intros Hb. induction x as [|c x IH].
  - rewrite append_empty. now apply rstrip_by_spaces.
  - rewrite append_cons. cbn [Py.rstrip_by]. now rewrite IH.
Qed.

Lemma rstrip_by_kept (t : string) :
  all_chars (fun c => negb (p c)) t = true -> Py.rstrip_by p t = t.
Proof.
  induction t as [|c t IH]; [reflexivity|]. cbn [all_chars Py.rstrip_by]. intros H.
  apply andb_prop in H as [Hc Ht]. apply negb_true_iff in Hc.
  rewrite (IH Ht). destruct t; [now rewrite Hc | reflexivity].
Qed.

Lemma rstrip_by_app_kept (a t : string) :
  t <> EmptyString -> all_chars (fun c => negb (p c)) t = true ->
  Py.rstrip_by p (a +:+ t) = a +:+ t.
Proof.
  intros Hne Ht. induction a as [|c a IH].
  - rewrite append_empty. now apply rstrip_by_kept.
  - rewrite append_cons. cbn [Py.rstrip_by]. rewrite IH.
    destruct (a +:+ t) eqn:E; [|reflexivity].
    destruct a; [rewrite append_empty in E; congruence | discriminate E].
Qed.

Lemma lstrip_by_app_spaces (a t : string) :
  all_chars p a = true -> Py.lstrip_by p (a +:+ t) = Py.lstrip_by p t.
Proof.
  induction a as [|c a IH]; [reflexivity|]. cbn [all_chars]. intros H.
  apply andb_prop in H as [Hc Ha]. rewrite append_cons. cbn [Py.lstrip_by].
  now rewrite Hc, IH.
Qed.

Lemma lstrip_by_kept (t : string) :
  all_chars (fun c => negb (p c)) t = true -> Py.lstrip_by p t = t.
Proof.
  destruct t as [|c t]; [reflexivity|]. cbn [all_chars Py.lstrip_by]. intros H.
  apply andb_prop in H as [Hc _]. apply negb_true_iff in Hc. now rewrite Hc.
Qed.
End StripBy.

Lemma float_space_is_space (c : ascii) : Py.is_float_space c = true -> Py.is_space c = true.
Proof.
  destruct c as [[] [] [] [] [] [] [] []]; intros H;
    first [reflexivity | discriminate H].
Qed.

Lemma not_space_not_float_space (s : string) :
  all_chars not_space s = true ->
  all_chars (fun c => negb (Py.is_float_space c)) s = true.
Proof.
  apply all_chars_impl. intros c Hc. unfold not_space in Hc.
  apply negb_true_iff in Hc. apply negb_true_iff.
  destruct (Py.is_float_space c) eqn:E; [|reflexivity].
  apply float_space_is_space in E. congruence.
Qed.

(** A text without white space is what [float] and [strip] leave of it. *)
Lemma float_strip_no_space (s : string) :
  all_chars not_space s = true -> Py.float_strip s = s.
Proof.
  intros H. apply not_space_not_float_space in H. unfold Py.float_strip.
  now rewrite rstrip_by_kept, lstrip_by_kept.
Qed.

(** When what [float] leaves of a text holds no white space, [strip] and
    [rstrip] leave it for [float] to find. *)
Lemma float_strip_after_strip (s : string) :
  Py.float_strip s <> EmptyString -> all_chars not_space (Py.float_strip s) = true ->
  Py.float_strip (Py.rstrip s) = Py.float_strip s /\
  Py.float_strip (Py.strip s) = Py.float_strip s.
Proof.
  intros Hne Hu. set (u := Py.float_strip s) in *.
  destruct (rstrip_by_decomp Py.is_float_space s) as (b & Hs & Hb).
  destruct (lstrip_by_decomp Py.is_float_space (Py.rstrip_by Py.is_float_space s))
    as (a & Ht & Ha).
  fold (Py.float_strip s) in Ht. fold u in Ht. rewrite Ht in Hs.
  assert (Hsa : all_chars Py.is_space a = true)
    by (revert Ha; apply all_chars_impl, float_space_is_space).
  assert (Hsb : all_chars Py.is_space b = true)
    by (revert Hb; apply all_chars_impl, float_space_is_space).
  assert (Hr : Py.rstrip s = a +:+ u).
  { rewrite rstrip_is_by, Hs, rstrip_by_app_spaces by exact Hsb.
    now apply rstrip_by_app_kept. }
  assert (Hfu : Py.float_strip (a +:+ u) = u).
  { unfold Py.float_strip.
    rewrite rstrip_by_app_kept by (try exact Hne; now apply not_space_not_float_space).
    rewrite lstrip_by_app_spaces by exact Ha.
    now apply lstrip_by_kept, not_space_not_float_space. }
  split; [now rewrite Hr|].
  unfold Py.strip. rewrite Hr, lstrip_is_by, lstrip_by_app_spaces by exact Hsa.
  rewrite lstrip_by_kept by exact Hu. now apply float_strip_no_space.
Qed.

Lemma float_Return s q : Py.float s = Return q <-> Py.parse_float s = Some q.
Proof.
  unfold Py.float. destruct (Py.parse_float s); split; intros H; now inversion H.
Qed.

(** *** The characters of a numeral *)

Lemma read_digits_consumed (s : string) (acc : N) (count : nat) :
  exists consumed,
    s = consumed +:+ snd (Py.read_digits acc count s) /\
    all_chars is_numeral_char consumed = true.
Proof.
  revert acc count. induction s as [|c r IH]; intros acc count.
  - now exists EmptyString.
  - cbn [Py.read_digits]. destruct (Py.is_digit c) eqn:Hc.
    + destruct (IH (10 * acc + Py.digit_val c)%N (S count)) as (consumed & Hr & Hall).
      exists (String c consumed). rewrite append_cons, <- Hr. cbn [all_chars].
      unfold is_numeral_char at 1. now rewrite Hc, Hall.
    + destruct (Ascii.eqb c "_" && negb (Nat.eqb count 0) && Py.next_is_digit r) eqn:Hu.
      * destruct (IH acc count) as (consumed & Hr & Hall).
        exists (String c consumed). rewrite append_cons, <- Hr. cbn [all_chars].
        apply andb_prop in Hu as [Hu _]. apply andb_prop in Hu as [Hu _].
        apply Ascii.eqb_eq in Hu. subst c. now rewrite Hall.
      * now exists EmptyString.
Qed.

Lemma read_exponent_chars (s : string) (e : Z) :
  Py.read_exponent s = Some e -> all_chars is_numeral_char s = true.
Proof.
  destruct s as [|c r]; [reflexivity|]. cbn [Py.read_exponent].
  destruct (Ascii.eqb c "e" || Ascii.eqb c "E") eqn:Hc; [|discriminate].
  assert (Hnum : is_numeral_char c = true).
  { apply orb_prop in Hc as [Hc | Hc]; apply Ascii.eqb_eq in Hc; now subst c. }
  cbn [all_chars]. rewrite Hnum. cbn [andb].
  assert (Hdigits : forall r1 v n rest,
            Py.read_digits 0 0 r1 = (v, n, rest) -> rest = EmptyString ->
            all_chars is_numeral_char r1 = true).
  { intros r1 v n rest Hread ->.
    destruct (read_digits_consumed r1 0%N O) as (consumed & Hr & Hall).
    rewrite Hread in Hr. cbn [snd] in Hr. rewrite Hr, all_chars_app, Hall. reflexivity. }
  destruct r as [|d r'].
  - cbn. discriminate.
  - destruct (Ascii.eqb d "-") eqn:Hminus; [|destruct (Ascii.eqb d "+") eqn:Hplus].
    + apply Ascii.eqb_eq in Hminus. subst d.
      destruct (Py.read_digits 0 0 r') as [[v n] rest] eqn:Hread.
      destruct n; [discriminate|]. destruct rest; [|discriminate]. intros _.
      cbn [all_chars]. now rewrite (Hdigits _ _ _ _ Hread eq_refl).
    + apply Ascii.eqb_eq in Hplus. subst d.
      destruct (Py.read_digits 0 0 r') as [[v n] rest] eqn:Hread.
      destruct n; [discriminate|]. destruct rest; [|discriminate]. intros _.
      cbn [all_chars]. now rewrite (Hdigits _ _ _ _ Hread eq_refl).
    + replace (match String d r' with
               | String "-" r'0 => (true, r'0)
               | String "+" r'0 => (false, r'0)
               | _ => (false, String d r')
               end) with (false, String d r')
        by (destruct d as [[] [] [] [] [] [] [] []];
            first [reflexivity | discriminate Hminus | discriminate Hplus]).
      destruct (Py.read_digits 0 0 (String d r')) as [[v n] rest] eqn:Hread.
      destruct n; [discriminate|]. destruct rest; [|discriminate]. intros _.
      exact (Hdigits _ _ _ _ Hread eq_refl).
Qed.

Lemma read_unsigned_chars (s : string) (q : Q) :
  Py.read_unsigned s = Some q -> s <> EmptyString /\ all_chars is_numeral_char s = true.
Proof.
  unfold Py.read_unsigned. intros H. split; [intros ->; cbn in H; discriminate H|].
  destruct (read_digits_consumed s 0%N O) as (c1 & Hs & H1).
  destruct (Py.read_digits 0 0 s) as [[ip ni] r1]. cbn [snd] in Hs. cbv beta iota in H.
  rewrite Hs, all_chars_app, H1. cbn [andb].
  destruct r1 as [|d r].
  - reflexivity.
  - destruct (Ascii.eqb d ".") eqn:Hd.
    + apply Ascii.eqb_eq in Hd. subst d.
      destruct (read_digits_consumed r 0%N O) as (c2 & Hr & H2).
      destruct (Py.read_digits 0 0 r) as [[fp nf] r2]. cbn [snd] in Hr. cbv beta iota in H.
      destruct (ni + nf)%nat; [discriminate H|].
      destruct (Py.read_exponent r2) as [e|] eqn:E; [|discriminate H].
      cbn [all_chars]. rewrite Hr, all_chars_app, H2, (read_exponent_chars _ _ E). reflexivity.
    + replace (match String d r with
               | String "." r0 => Py.read_digits 0 0 r0
               | _ => (0%N, O, String d r)
               end) with (0%N, O, String d r) in H
        by (destruct d as [[] [] [] [] [] [] [] []];
            first [reflexivity | discriminate Hd]).
      cbv beta iota in H.
      destruct (ni + 0)%nat; [discriminate H|].
      destruct (Py.read_exponent (String d r)) as [e|] eqn:E; [|discriminate H].
      exact (read_exponent_chars _ _ E).
Qed.

Lemma numeral_char_not_space (c : ascii) : is_numeral_char c = true -> not_space c = true.
Proof.
  destruct c as [[] [] [] [] [] [] [] []]; intros H;
    first [reflexivity | discriminate H].
Qed.

(** What [float] parses holds no white space. *)
Lemma parse_float_chars (s : string) (q : Q) :
  Py.parse_float s = Some q ->
  Py.float_strip s <> EmptyString /\ all_chars not_space (Py.float_strip s) = true.
Proof.
  unfold Py.parse_float. set (u := Py.float_strip s).
  destruct (Py.split_sign u) as [neg body] eqn:Hsign.
  destruct (Py.read_unsigned body) as [v|] eqn:Hbody; [|discriminate]. intros _.
  destruct (read_unsigned_chars _ _ Hbody) as (Hne & Hall).
  assert (Hu : u = body \/ exists c, is_numeral_char c = true /\ u = String c body).
  { unfold Py.split_sign in Hsign. destruct u as [|c r]; [injection Hsign as _ <-; now left|].
    destruct (Ascii.eqb c "-") eqn:Hm; [|destruct (Ascii.eqb c "+") eqn:Hp].
    - apply Ascii.eqb_eq in Hm. subst c. injection Hsign as _ <-. right. now exists "-"%char.
    - apply Ascii.eqb_eq in Hp. subst c. injection Hsign as _ <-. right. now exists "+"%char.
    - left. destruct c as [[] [] [] [] [] [] [] []];
        first [now injection Hsign as _ <- | discriminate Hm | discriminate Hp]. }
  destruct Hu as [-> | (c & Hc & ->)].
  - split; [exact Hne|]. revert Hall. apply all_chars_impl, numeral_char_not_space.
  - split; [discriminate|]. cbn [all_chars].
    rewrite (numeral_char_not_space _ Hc). revert Hall.
    apply all_chars_impl, numeral_char_not_space.
Qed.

Lemma float_strip_Return s q : Py.float s = Return q -> Py.float (Py.strip s) = Return q.
Proof.
  rewrite !float_Return. intros H.
  destruct (parse_float_chars _ _ H) as (Hne & Hall).
  destruct (float_strip_after_strip s Hne Hall) as (_ & Hstrip).
  unfold Py.parse_float in *. now rewrite Hstrip.
Qed.

Lemma float_rstrip_Return s q : Py.float s = Return q -> Py.float (Py.rstrip s) = Return q.
Proof.
  rewrite !float_Return. intros H.
  destruct (parse_float_chars _ _ H) as (Hne & Hall).
  destruct (float_strip_after_strip s Hne Hall) as (Hrstrip & _).
  unfold Py.parse_float in *. now rewrite Hrstrip.
Qed.

(** ** Decimal numerals *)

Lemma digit_not_space (c : ascii) : Py.is_digit c = true -> Py.is_space c = false.
Proof.
  destruct c as [[] [] [] [] [] [] [] []]; intros H;
    first [reflexivity | discriminate H].
Qed.

Lemma digit_no_sign (c : ascii) (r : string) :
  Py.is_digit c = true -> Py.split_sign (String c r) = (false, String c r).
Proof.
  destruct c as [[] [] [] [] [] [] [] []]; intros H;
    first [reflexivity | discriminate H].
Qed.

Lemma string_of_uint_digits (d : Decimal.uint) :
  all_chars Py.is_digit (NilEmpty.string_of_uint d) = true.
Proof. induction d; cbn [NilEmpty.string_of_uint all_chars]; [reflexivity | exact IHd ..]. Qed.

Lemma read_digits_acc (d : Decimal.uint) :
  forall (acc : positive) (count : nat),
    Py.read_digits (Npos acc) count (NilEmpty.string_of_uint d)
    = (Npos (Pos.of_uint_acc d acc), (count + Decimal.nb_digits d)%nat, EmptyString).
Proof.
  induction d; intros acc count;
    cbn [NilEmpty.string_of_uint Py.read_digits Decimal.nb_digits Pos.of_uint_acc];
    [now rewrite Nat.add_0_r | ..];
    (change (Py.is_digit _) with true; cbv iota;
     match goal with
     | |- Py.read_digits ?a _ _ = (Npos (Pos.of_uint_acc _ ?b), _, _) =>
         replace a with (Npos b) by (unfold Py.digit_val; cbn; lia)
     end;
     rewrite IHd; f_equal; f_equal; lia).
Qed.

Lemma read_digits_uint (d : Decimal.uint) :
  forall count,
    Py.read_digits 0 count (NilEmpty.string_of_uint d)
    = (N.of_uint d, (count + Decimal.nb_digits d)%nat, EmptyString).
Proof.
  induction d; intros count;
    cbn [NilEmpty.string_of_uint Py.read_digits Decimal.nb_digits];
    [now rewrite Nat.add_0_r | ..];
    change (Py.is_digit _) with true; cbv iota.
  - change (10 * 0 + Py.digit_val "0")%N with 0%N.
    rewrite IHd. unfold N.of_uint. cbn [Pos.of_uint]. f_equal. f_equal. lia.
  - change (10 * 0 + Py.digit_val "1")%N with 1%N.
    rewrite read_digits_acc. unfold N.of_uint. cbn [Pos.of_uint]. f_equal. f_equal. lia.
  - change (10 * 0 + Py.digit_val "2")%N with 2%N.
    rewrite read_digits_acc. unfold N.of_uint. cbn [Pos.of_uint]. f_equal. f_equal. lia.
  - change (10 * 0 + Py.digit_val "3")%N with 3%N.
    rewrite read_digits_acc. unfold N.of_uint. cbn [Pos.of_uint]. f_equal. f_equal. lia.
  - change (10 * 0 + Py.digit_val "4")%N with 4%N.
    rewrite read_digits_acc. unfold N.of_uint. cbn [Pos.of_uint]. f_equal. f_equal. lia.
  - change (10 * 0 + Py.digit_val "5")%N with 5%N.
    rewrite read_digits_acc. unfold N.of_uint. cbn [Pos.of_uint]. f_equal. f_equal. lia.
  - change (10 * 0 + Py.digit_val "6")%N with 6%N.
    rewrite read_digits_acc. unfold N.of_uint. cbn [Pos.of_uint]. f_equal. f_equal. lia.
  - change (10 * 0 + Py.digit_val "7")%N with 7%N.
    rewrite read_digits_acc. unfold N.of_uint. cbn [Pos.of_uint]. f_equal. f_equal. lia.
  - change (10 * 0 + Py.digit_val "8")%N with 8%N.
    rewrite read_digits_acc. unfold N.of_uint. cbn [Pos.of_uint]. f_equal. f_equal. lia.
  - change (10 * 0 + Py.digit_val "9")%N with 9%N.
    rewrite read_digits_acc. unfold N.of_uint. cbn [Pos.of_uint]. f_equal. f_equal. lia.
Qed.

Lemma to_uint_digits (n : N) : Decimal.nb_digits (N.to_uint n) <> O.
Proof.
  intros H. pose proof (Unsigned.of_to n) as Hn.
  destruct (N.to_uint n) eqn:E; try discriminate H.
  cbn in Hn. subst n. discriminate E.
Qed.

(** [float(str(n))] is [n]. *)
Lemma float_numeral (n : N) :
  exists q, Py.float (numeral n) = Return q /\ (q == inject_Z (Z.of_N n))%Q.
Proof.
  unfold Py.float, Py.parse_float, numeral.
  pose proof (string_of_uint_digits (N.to_uint n)) as Hd.
  rewrite float_strip_no_space
    by (revert Hd; apply all_chars_impl; intros c Hc; unfold not_space;
        now rewrite (digit_not_space _ Hc)).
  pose proof (to_uint_digits n) as Hnb.
  pose proof (read_digits_uint (N.to_uint n) O) as Hread.
  rewrite Unsigned.of_to in Hread. cbn [Nat.add] in Hread.
  destruct (NilEmpty.string_of_uint (N.to_uint n)) as [|c r] eqn:E.
  - cbn in Hread. injection Hread as _ Hz. congruence.
  - cbn [all_chars] in Hd. apply andb_prop in Hd as [Hc _].
    rewrite (digit_no_sign _ _ Hc). unfold Py.read_unsigned. rewrite Hread.
    destruct (Decimal.nb_digits (N.to_uint n)) as [|k]; [congruence|].
    cbn [Nat.add Py.read_exponent].
    eexists. split; [reflexivity|].
    unfold Py.pow10. cbn. unfold Qeq. cbn. lia.
Qed.

Lemma strip_sign c s :
  Py.is_space c = false -> Py.strip (String c s) = String c (Py.rstrip s).
Proof.
  intros Hc. unfold Py.strip. rewrite rstrip_cons_nonspace by assumption.
  simpl. now rewrite Hc.
Qed.

(** ** Odds conversion *)

Lemma convert_positive s o :
  Py.float s = Return o ->
  _convert_odds_to_decimal (String "+" s) = float_div (o + 100) 100.
Proof.
  intros H. unfold _convert_odds_to_decimal.
  rewrite strip_sign by reflexivity. cbn [Py.startswith Py.tail].
  change (Ascii.eqb "+" "+") with true. cbv iota.
  now rewrite (float_rstrip_Return _ _ H).
Qed.

Lemma convert_negative s o :
  Py.float s = Return o ->
  _convert_odds_to_decimal (String "-" s) = float_div (100 + o) o.
Proof.
  intros H. unfold _convert_odds_to_decimal.
  rewrite strip_sign by reflexivity. cbn [Py.startswith Py.tail].
  change (Ascii.eqb "+" "-") with false. change (Ascii.eqb "-" "-") with true.
  cbv iota.
  now rewrite (float_rstrip_Return _ _ H).
Qed.

Lemma convert_bare s q :
  bare s -> Py.float s = Return q -> _convert_odds_to_decimal s = Return q.
Proof.
  intros [Hp Hm] H. unfold _convert_odds_to_decimal.
  rewrite Hp, Hm. now apply float_strip_Return.
Qed.

Lemma float_div_nonzero x y : ~ (y == 0)%Q -> float_div x y = Return (x / y)%Q.
Proof.
  intros Hy. unfold float_div.
  destruct (Qeq_bool y 0) eqn:E; [|reflexivity].
  apply Qeq_bool_iff in E. contradiction.
Qed.

Lemma returns_float_eq r q q' : returns_float r q -> (q == q')%Q -> returns_float r q'.
Proof.
  destruct r as [d|e]; simpl; [|tauto].
  intros H1 H2. now rewrite H1.
Qed.

Lemma numeral_nonzero (n : N) (q : Q) :
  n <> 0%N -> (q == inject_Z (Z.of_N n))%Q -> (0 < q)%Q.
Proof.
  intros Hn Hq. rewrite Hq. unfold Qlt. cbn. lia.
Qed.

(** C5.  Odds conversion.
    - When the text [s] denotes the number [o], the text [+s] is mapped to
      [(o + 100) / 100], the text [-s] (for a nonzero [o]) to
      [(100 + o) / o], and a text without a sign to the number it denotes.
    - In particular, for every natural number [n], the text [+n] is mapped
      to [(n + 100) / 100] and, for [n] other than 0, the text [-n] to
      [(100 + n) / n]. *)
Theorem odds_conversion :
  (forall (s : string) (o : Q), Py.float s = Return o ->
     returns_float (_convert_odds_to_decimal (String "+" s)) ((o + 100) / 100) /\
     (~ (o == 0)%Q ->
        returns_float (_convert_odds_to_decimal (String "-" s)) ((100 + o) / o)) /\
     (bare s -> returns_float (_convert_odds_to_decimal s) o)) /\
  (forall n : N,
     returns_float (_convert_odds_to_decimal (String "+" (numeral n)))
       ((inject_Z (Z.of_N n) + 100) / 100)) /\
  (forall n : N, n <> 0%N ->
     returns_float (_convert_odds_to_decimal (String "-" (numeral n)))
       ((100 + inject_Z (Z.of_N n)) / inject_Z (Z.of_N n))).
Proof.
  split; [|split].
  - intros s o H. split; [|split].
    + rewrite (convert_positive _ _ H), float_div_nonzero by discriminate.
      simpl. reflexivity.
    + intros Ho. rewrite (convert_negative _ _ H), float_div_nonzero by assumption.
      simpl. reflexivity.
    + intros Hb. rewrite (convert_bare _ _ Hb H). simpl. reflexivity.
  - intros n. destruct (float_numeral n) as (q & Hq & Heq).
    rewrite (convert_positive _ _ Hq), float_div_nonzero by discriminate.
    simpl. now rewrite Heq.
  - intros n Hn. destruct (float_numeral n) as (q & Hq & Heq).
    pose proof (numeral_nonzero n q Hn Heq) as Hpos.
    rewrite (convert_negative _ _ Hq), float_div_nonzero
      by (intros E; rewrite E in Hpos; discriminate Hpos).
    simpl. now rewrite Heq.
Qed.

(** The instances named by the specification: [+150], [+100], [+200],
    [-200], [-250] and the bare text [2.5]. *)
Lemma odds_conversion_witness :
  returns_float (_convert_odds_to_decimal "+150") 2.5 /\
  returns_float (_convert_odds_to_decimal "+100") 2.0 /\
  returns_float (_convert_odds_to_decimal "+200") 3.0 /\
  returns_float (_convert_odds_to_decimal "-200") 1.5 /\
  returns_float (_convert_odds_to_decimal "-250") 1.4 /\
  returns_float (_convert_odds_to_decimal "2.5") 2.5.
Proof.
  destruct odds_conversion as (Htext & Hplus & Hminus).
  pose proof (Htext "150" 150%Q eq_refl) as (H150 & _ & _).
  pose proof (Hplus 100%N) as H100.
  pose proof (Hplus 200%N) as H200.
  pose proof (Hminus 200%N ltac:(discriminate)) as N200.
  pose proof (Htext "250" 250%Q eq_refl) as (_ & N250 & _).
  pose proof (Htext "2.5" 2.5%Q eq_refl) as (_ & _ & B).
  specialize (N250 ltac:(discriminate)).
  specialize (B (conj eq_refl eq_refl)).
  split; [|split; [|split; [|split; [|split]]]].
  - now apply (returns_float_eq _ _ _ H150).
  - now apply (returns_float_eq _ _ _ H100).
  - now apply (returns_float_eq _ _ _ H200).
  - now apply (returns_float_eq _ _ _ N200).
  - now apply (returns_float_eq _ _ _ N250).
  - exact B.
Defined.

Example convert_minus_150 :
  exists d, _convert_odds_to_decimal "-150" = Return d /\ (d == 5 # 3)%Q.
Proof. eexists; split; [reflexivity | reflexivity]. Qed.

Example convert_zero_divisor :
  _convert_odds_to_decimal "-0" = Raise (ZeroDivisionError "float division by zero").
Proof. reflexivity. Qed.

(** ** The multiplier invariant *)

Lemma positive_multiplier_gt_1 (o : Q) : (0 < o)%Q -> (1 < (o + 100) / 100)%Q.
Proof.
  intros Ho. apply Qlt_shift_div_l; [reflexivity|]. lra.
Qed.

Lemma negative_multiplier_gt_1 (o : Q) : (0 < o)%Q -> (1 < (100 + o) / o)%Q.
Proof.
  intros Ho. apply Qlt_shift_div_l; [assumption|]. lra.
Qed.

(** C8, as amended.
    - When [float] reads [s] as a number [o] between [10 ^ -12] and
      [10 ^ 15], the texts [+s] and [-s] convert to a multiplier strictly
      above 1; so do [+n] and [-n] for every whole number [n] from 1 to
      [10 ^ 15].  The bounds leave out the magnitudes for which the
      rounding of binary floating point brings the quotient down to
      exactly 1.
    - A text without a sign converts to the number [float] reads from it,
      whatever that number is. *)
Theorem multiplier_above_one :
  (forall (s : string) (o : Q), Py.float s = Return o ->
     ((least_magnitude <= o)%Q -> (o <= greatest_magnitude)%Q ->
        (exists d, _convert_odds_to_decimal (String "+" s) = Return d /\ (1 < d)%Q) /\
        (exists d, _convert_odds_to_decimal (String "-" s) = Return d /\ (1 < d)%Q)) /\
     (bare s -> _convert_odds_to_decimal s = Return o)) /\
  (forall n : N, n <> 0%N -> (n <= 10 ^ 15)%N ->
     (exists d, _convert_odds_to_decimal (String "+" (numeral n)) = Return d /\ (1 < d)%Q) /\
     (exists d, _convert_odds_to_decimal (String "-" (numeral n)) = Return d /\ (1 < d)%Q)).
Proof.
  assert (Htext : forall (s : string) (o : Q), Py.float s = Return o -> (0 < o)%Q ->
            (exists d, _convert_odds_to_decimal (String "+" s) = Return d /\ (1 < d)%Q) /\
            (exists d, _convert_odds_to_decimal (String "-" s) = Return d /\ (1 < d)%Q)).
  { intros s o H Ho. split; eexists; split.
    - rewrite (convert_positive _ _ H). apply float_div_nonzero. discriminate.
    - now apply positive_multiplier_gt_1.
    - rewrite (convert_negative _ _ H). apply float_div_nonzero.
      intros E. rewrite E in Ho. discriminate.
    - now apply negative_multiplier_gt_1. }
  split.
  - intros s o H. split.
    + intros Hlo _. apply (Htext s o H).
      apply Qlt_le_trans with least_magnitude; [reflexivity | exact Hlo].
    + intros Hb. now apply convert_bare.
  - intros n Hn _. destruct (float_numeral n) as (q & Hq & Heq).
    apply (Htext _ q Hq). now apply (numeral_nonzero n).
Qed.

Lemma multiplier_above_one_witness :
  (exists d, _convert_odds_to_decimal "+150" = Return d /\ (1 < d)%Q) /\
  (exists d, _convert_odds_to_decimal "-150" = Return d /\ (1 < d)%Q) /\
  _convert_odds_to_decimal "1.5" = Return 1.5%Q.
Proof.
  destruct multiplier_above_one as (Htext & Hnum).
  pose proof (Htext "150" 150%Q eq_refl) as (Hp & _).
  pose proof (Hnum 150%N ltac:(discriminate) ltac:(vm_compute; discriminate)) as (_ & Hn).
  pose proof (Htext "1.5" 1.5%Q eq_refl) as (_ & Hb).
  split; [|split].
  - apply Hp; discriminate.
  - exact Hn.
  - apply Hb. split; reflexivity.
Defined.

(** C8 as stated fails: the bare decimal text [0.5] is accepted and comes
    back as 0.5, and the text [+0] is accepted and gives exactly 1. *)
Lemma multiplier_not_above_one :
  (exists d, _convert_odds_to_decimal "0.5" = Return d /\ ~ (1 < d)%Q) /\
  (exists d, _convert_odds_to_decimal "+0" = Return d /\ ~ (1 < d)%Q).
Proof.
  split; eexists; (split; [reflexivity | intros H; discriminate H]).
Qed.

(** ** The safe-odds filter *)

(** C1 at the input [+500]: the filter keeps the proposal, because the
    bounds are compared with the decimal multiplier 6.0, although its
    American odds lie outside [-250, +200]. *)
Theorem safe_filter_keeps_plus_500 :
  let g := {| proposals := Return [labelled "+500"] |} in
  exists c,
    scan_games [g] [] = [c] /\
    element c = labelled "+500" /\
    (odds c == 6)%Q /\
    in_safe_range (odds c) = true /\
    american_equivalent (odds c) = Some (100 * (odds c - 1))%Q /\
    spec_safe_odds (odds c) = false.
Proof.
  eexists. repeat split; reflexivity.
Qed.

(** What the filter does with a game of one readable proposal: it keeps
    the proposal exactly when the decimal multiplier, not its American
    equivalent, lies between -250 and 200. *)
Lemma single_proposal_kept (p : proposal_view) (label : string) (d : Q) :
  odds_label p = Return label ->
  _convert_odds_to_decimal (Py.strip label) = Return d ->
  let g := {| proposals := Return [p] |} in
  scan_games [g] [] =
    if in_safe_range d then [{| element := p; odds := d; game := g |}] else [].
Proof.
  intros Hlabel Hconv g. cbn [scan_games proposals g scan_proposals].
  rewrite Hlabel. cbn [fmap result_fmap]. rewrite bind_Return, Hconv.
  now destruct (in_safe_range d).
Qed.

(** The range test of the filter accepts every multiplier between 1 and
    200, so every American quote from [-250] down and from [+200] up to
    [+19900] passes it as well. *)
Lemma in_safe_range_multiplier (d : Q) :
  (1 <= d)%Q -> (d <= 200)%Q -> in_safe_range d = true.
Proof.
  intros H1 H2. unfold in_safe_range.
  apply andb_true_intro. split; apply Qle_bool_iff; [|assumption].
  apply Qle_trans with 1%Q; [discriminate | assumption].
Qed.

(** ** The retry executor *)

Lemma range_succ (n : Z) : 1 <= n -> range n = 0 :: map Z.of_nat (seq 1 (Z.to_nat n - 1)).
Proof.
  intros Hn. unfold range.
  destruct (Z.to_nat n) as [|k] eqn:E; [lia|].
  simpl. now rewrite Nat.sub_0_r.
Qed.

Lemma calls_app (l1 l2 : list event) : calls (l1 ++ l2) = (calls l1 + calls l2)%nat.
Proof. unfold calls. now rewrite List.filter_app, length_app. Qed.

Lemma sleeps_app (l1 l2 : list event) : sleeps (l1 ++ l2) = sleeps l1 ++ sleeps l2.
Proof. unfold sleeps. apply omap_app. Qed.

Section RetryFacts.
Context {W A : Type}.
Variable operation : W -> W * result A.
Variables (max_retries delay : Z) (operation_name : string).

Lemma retry_loop_success attempt rest w log w' a :
  operation w = (w', Return a) ->
  retry_loop operation max_retries delay operation_name (attempt :: rest) w log =
  mk_run (Return (Some a)) w' (log ++ [Called attempt]).
Proof. intros E. cbn [retry_loop]. now rewrite E. Qed.

Lemma retry_loop_failure attempt rest w log w' e :
  operation w = (w', Raise e) ->
  retry_loop operation max_retries delay operation_name (attempt :: rest) w log =
  if attempt =? max_retries - 1 then mk_run (Raise e) w' (log ++ [Called attempt])
  else retry_loop operation max_retries delay operation_name rest w'
         ((log ++ [Called attempt]) ++
          [Warned operation_name (attempt + 1) max_retries e (delay * 2 ^ attempt);
           Slept (delay * 2 ^ attempt)]).
Proof. intros E. cbn [retry_loop]. now rewrite E. Qed.

(** The loop when every remaining attempt fails: [m + 1] attempts are
    left, numbered from [i]. *)
Lemma retry_loop_all_fail (m i : nat) (w : W) (log : list event) :
  Z.of_nat (i + m) = max_retries - 1 ->
  (forall j, (j <= m)%nat ->
     raises (snd (operation (world_after operation j w))) = true) ->
  let r := retry_loop operation max_retries delay operation_name
             (map Z.of_nat (seq i (S m))) w log in
  exists e,
    snd (operation (world_after operation m w)) = Raise e /\
    run_result r = Raise e /\
    run_world r = world_after operation (S m) w /\
    calls (run_log r) = (calls log + S m)%nat /\
    sleeps (run_log r) =
      sleeps log ++ map (fun j => delay * 2 ^ Z.of_nat j) (seq i m).
Proof.
  revert i w log. induction m as [|m IH]; intros i w log Hi Hfail r.
  - subst r. change (seq i 1) with [i]. cbn [map].
    pose proof (Hfail O (Nat.le_refl _)) as H0. cbn [world_after] in H0 |- *.
    destruct (operation w) as [w' [a|e]] eqn:E; [discriminate H0|].
    rewrite (retry_loop_failure _ _ _ _ _ _ E).
    replace (Z.of_nat i =? max_retries - 1) with true by (symmetry; apply Z.eqb_eq; lia).
    exists e. cbn [run_result run_world run_log fst snd seq map].
    rewrite calls_app, sleeps_app.
    split; [reflexivity|]. split; [reflexivity|]. split; [reflexivity|].
    split; [reflexivity | cbn; now rewrite !app_nil_r].
  - subst r. change (seq i (S (S m))) with (i :: seq (S i) (S m)).
    rewrite map_cons.
    pose proof (Hfail O (Nat.le_0_l _)) as H0. cbn [world_after] in H0.
    destruct (operation w) as [w' [a|e]] eqn:E; [discriminate H0|].
    rewrite (retry_loop_failure _ _ _ _ _ _ E).
    replace (Z.of_nat i =? max_retries - 1) with false by (symmetry; apply Z.eqb_neq; lia).
    destruct (IH (S i) w'
                ((log ++ [Called (Z.of_nat i)]) ++
                 [Warned operation_name (Z.of_nat i + 1) max_retries e
                    (delay * 2 ^ Z.of_nat i);
                  Slept (delay * 2 ^ Z.of_nat i)]))
      as (e' & He' & Hres & Hw & Hc & Hs).
    + lia.
    + intros j Hj. specialize (Hfail (S j) ltac:(lia)).
      cbn [world_after] in Hfail. now rewrite E in Hfail.
    + exists e'. cbn [world_after]. rewrite E. cbn [fst].
      split; [exact He'|]. split; [exact Hres|]. split; [exact Hw|].
      split.
      * rewrite Hc, !calls_app. cbn. lia.
      * rewrite Hs, !sleeps_app. cbn [seq map]. cbn. now rewrite app_nil_r, <- app_assoc.
Qed.
End RetryFacts.

(** C4.  The retry executor, for any bound [max_retries >= 1].
    - A unit that succeeds at once is called exactly once, its result is
      returned and nothing is slept.
    - A unit that fails once and then succeeds (with at least two attempts
      allowed) is called exactly twice, the result of the second call is
      returned, and the only sleep lasts [delay * 2 ^ 0].
    - A unit that fails at every attempt is called exactly [max_retries]
      times, the exception raised by the last call is what propagates, and
      the sleeps between attempts last [delay * 2 ^ attempt] for
      [attempt = 0 .. max_retries - 2].
    The defaults are three attempts and a first sleep of two seconds. *)
Theorem retry_contract {W A : Type} (operation : W -> W * result A)
    (max_retries delay : Z) (operation_name : string) (w : W)
    (Hmax : 1 <= max_retries) :
  let r := _retry_operation operation max_retries delay operation_name w in
  (forall w1 a, operation w = (w1, Return a) ->
     run_result r = Return (Some a) /\ run_world r = w1 /\
     calls (run_log r) = 1%nat /\ sleeps (run_log r) = []) /\
  (forall w1 e w2 a, 2 <= max_retries ->
     operation w = (w1, Raise e) -> operation w1 = (w2, Return a) ->
     run_result r = Return (Some a) /\ run_world r = w2 /\
     calls (run_log r) = 2%nat /\ sleeps (run_log r) = [delay * 2 ^ 0]) /\
  ((forall j, (j < Z.to_nat max_retries)%nat ->
      raises (snd (operation (world_after operation j w))) = true) ->
   exists e,
     snd (operation (world_after operation (Z.to_nat max_retries - 1) w)) = Raise e /\
     run_result r = Raise e /\
     run_world r = world_after operation (Z.to_nat max_retries) w /\
     calls (run_log r) = Z.to_nat max_retries /\
     sleeps (run_log r) = map (fun attempt => delay * 2 ^ attempt) (range (max_retries - 1))) /\
  default_max_retries = 3 /\ default_delay * 2 ^ 0 = 2.
Proof.
  intros r. subst r. unfold _retry_operation.
  split; [|split; [|split; [|split; reflexivity]]].
  - intros w1 a E. rewrite range_succ by assumption.
    rewrite (retry_loop_success _ _ _ _ _ _ _ _ _ _ E).
    repeat split; reflexivity.
  - intros w1 e w2 a H2 E1 E2. rewrite range_succ by assumption.
    rewrite (retry_loop_failure _ _ _ _ _ _ _ _ _ _ E1).
    replace (0 =? max_retries - 1) with false by (symmetry; apply Z.eqb_neq; lia).
    destruct (Z.to_nat max_retries - 1)%nat as [|k] eqn:Ek; [lia|].
    cbn [seq map]. rewrite (retry_loop_success _ _ _ _ _ _ _ _ _ _ E2).
    repeat split; reflexivity.
  - intros Hfail. unfold range.
    replace (Z.to_nat (max_retries - 1)) with (Z.to_nat max_retries - 1)%nat by lia.
    destruct (Z.to_nat max_retries) as [|m] eqn:Em; [lia|].
    destruct (retry_loop_all_fail operation max_retries delay operation_name m 0 w [])
      as (e & He & Hres & Hw & Hc & Hs).
    + lia.
    + intros j Hj. apply Hfail. lia.
    + exists e. rewrite Nat.sub_succ, Nat.sub_0_r.
      split; [exact He|]. split; [exact Hres|]. split; [exact Hw|].
      split; [exact Hc|].
      rewrite Hs. cbn [sleeps omap app].
      now rewrite map_map.
Qed.

(** A bound below 1 leaves no attempt: the unit is not called and the
    executor falls through with [None]. *)
Example retry_without_attempts :
  _retry_operation successful_operation 0 default_delay "test" O
  = mk_run (Return None) O [].
Proof. reflexivity. Qed.

(** The three units of the test-suite under the default policy. *)
Lemma retry_contract_witness :
  (1 <= default_max_retries) /\
  (let r := _retry_operation successful_operation default_max_retries default_delay "test" O in
   run_result r = Return (Some "success") /\ calls (run_log r) = 1%nat /\
   sleeps (run_log r) = []) /\
  (let r := _retry_operation sometimes_failing_operation
              default_max_retries default_delay "test" O in
   run_result r = Return (Some "success") /\ calls (run_log r) = 2%nat /\
   sleeps (run_log r) = [2]) /\
  (let r := _retry_operation failing_operation default_max_retries default_delay "test" O in
   run_result r = Raise (Exception "Operation failed") /\ calls (run_log r) = 3%nat /\
   sleeps (run_log r) = [2; 4]).
Proof.
  assert (Hmax : 1 <= default_max_retries) by (unfold default_max_retries; lia).
  split; [exact Hmax|].
  split; [|split].
  - destruct (retry_contract successful_operation default_max_retries default_delay
                "test" O Hmax) as (H1 & _).
    destruct (H1 1%nat "success" eq_refl) as (Hr & _ & Hc & Hs).
    cbv zeta. split; [exact Hr|]. split; [exact Hc | exact Hs].
  - destruct (retry_contract sometimes_failing_operation default_max_retries default_delay
                "test" O Hmax) as (_ & H2 & _).
    assert (H2' : 2 <= default_max_retries) by (unfold default_max_retries; lia).
    destruct (H2 1%nat (Exception "First attempt failed") 2%nat "success" H2' eq_refl eq_refl)
      as (Hr & _ & Hc & Hs).
    cbv zeta. split; [exact Hr|]. split; [exact Hc | exact Hs].
  - destruct (retry_contract failing_operation default_max_retries default_delay
                "test" O Hmax) as (_ & _ & H3 & _).
    destruct (H3 (fun j _ => eq_refl)) as (e & He & Hr & _ & Hc & Hs).
    cbv zeta. rewrite Hr.
    injection He as <-.
    split; [reflexivity|]. split; [exact Hc | exact Hs].
Defined.

(** ** Open-wager detection *)

Lemma _check_wagers_shows (v : activity_view) (texts : list string) :
  shows v texts -> _check_wagers v = scan_slips (map Return texts).
Proof.
  intros (Hn & Hl & Hs). unfold _check_wagers. rewrite Hn, Hl, Hs.
  change (Return ?a ≫= ?k) with (k a). cbv beta.
  now destruct texts.
Qed.

Lemma check_open_wagers_first (views : nat -> activity_view) (b : bool) :
  _check_wagers (views O) = Return b ->
  check_open_wagers views = mk_run (Return (Some b)) 1%nat [Called 0].
Proof.
  intros H. unfold check_open_wagers, _retry_operation.
  change (range default_max_retries) with [0; 1; 2].
  now rewrite (retry_loop_success _ _ _ _ _ _ _ _ 1%nat b) by now rewrite H.
Qed.

Lemma ok_view_shows (texts : list string) : shows (ok_view texts) texts.
Proof. repeat split. Qed.

(** A slip whose first run of digits and commas holds no digit makes the
    attempt raise; the retries see the same page and the error propagates. *)
Example comma_token_raises :
  run_result (check_open_wagers
                (fun _ => ok_view ["Payout, pending"; "Potential payout: $50.00"]))
  = Raise (ValueError "could not convert string to float: ''").
Proof. reflexivity. Qed.

(** ** The payout token of a slip *)

Lemma search_digits_commas_skip (pre s : string) :
  all_chars not_amount_char pre = true ->
  search_digits_commas (pre +:+ s) = search_digits_commas s.
Proof.
  induction pre as [|c pre IH]; intros H; [reflexivity|].
  cbn [all_chars] in H. apply andb_prop in H as [Hc Hpre].
  unfold not_amount_char in Hc. apply negb_true_iff in Hc.
  rewrite append_cons. cbn [search_digits_commas]. rewrite Hc. now apply IH.
Qed.

Lemma span_exact (p : ascii -> bool) (run rest : string) :
  all_chars p run = true -> stops p rest = true ->
  span p (run +:+ rest) = (run, rest).
Proof.
  induction run as [|c run IH]; intros Hrun Hrest.
  - rewrite append_empty. destruct rest as [|d rest]; [reflexivity|].
    cbn [stops] in Hrest. apply negb_true_iff in Hrest.
    cbn [span]. now rewrite Hrest.
  - cbn [all_chars] in Hrun. apply andb_prop in Hrun as [Hc Hrun].
    rewrite append_cons. cbn [span]. rewrite Hc, (IH Hrun Hrest). reflexivity.
Qed.

Lemma search_digits_commas_run (run rest : string) :
  run <> EmptyString ->
  all_chars is_amount_char run = true -> stops is_amount_char rest = true ->
  search_digits_commas (run +:+ rest) = Some run.
Proof.
  intros Hne Hrun Hrest. destruct run as [|c run]; [congruence|].
  pose proof Hrun as Hrun'. cbn [all_chars] in Hrun'.
  apply andb_prop in Hrun' as [Hc _].
  rewrite append_cons. cbn [search_digits_commas]. rewrite Hc.
  rewrite <- append_cons.
  now rewrite (span_exact _ _ _ Hrun Hrest).
Qed.

Lemma at_most_one_not_blocking (v : Q) : (v <= 1)%Q -> is_blocking (Some v) = false.
Proof.
  intros Hv. cbn [is_blocking]. apply not_true_iff_false. rewrite Qlt_bool_iff.
  intros H. unfold blocking_threshold in H. lra.
Qed.

(** C9, as amended.  The token read from a slip is the first run of
    digits and commas of its text; what follows it, the decimal point and
    the fraction included, is not read.  So when nothing in front of the
    displayed payout is a digit or a comma, and the whole part of the
    payout denotes a number of at most 1, the value parsed is that number
    and the slip is not blocking, whatever follows the whole part. *)
Theorem fraction_discarded (pre run rest : string) (v : Q)
    (Hpre : all_chars not_amount_char pre = true)
    (Hrun : all_chars is_amount_char run = true)
    (Hrest : stops is_amount_char rest = true)
    (Hv : Py.float (Py.remove_commas run) = Return v)
    (Hle : (v <= 1)%Q) :
  let payout_text := pre +:+ run +:+ rest in
  search_digits_commas payout_text = Some run /\
  (exists o, slip_payout payout_text = Return o /\
             (Py.contains "payout" (Py.lower payout_text) = true -> o = Some v) /\
             is_blocking o = false) /\
  check_open_wagers (fun _ => ok_view [payout_text])
    = mk_run (Return (Some false)) 1%nat [Called 0].
Proof.
  intros payout_text.
  assert (Hne : run <> EmptyString).
  { intros ->. cbn in Hv. discriminate Hv. }
  assert (Hsearch : search_digits_commas payout_text = Some run).
  { unfold payout_text. rewrite (search_digits_commas_skip _ _ Hpre).
    now apply search_digits_commas_run. }
  assert (Hslip : exists o, slip_payout payout_text = Return o /\
             (Py.contains "payout" (Py.lower payout_text) = true -> o = Some v) /\
             is_blocking o = false).
  { unfold slip_payout. rewrite Hsearch, Hv.
    destruct (Py.contains "payout" (Py.lower payout_text)).
    - exists (Some v). split; [reflexivity|]. split; [reflexivity|].
      now apply at_most_one_not_blocking.
    - exists None. split; [reflexivity|]. split; [discriminate | reflexivity]. }
  split; [exact Hsearch|]. split; [exact Hslip|].
  apply check_open_wagers_first.
  destruct Hslip as (o & Ho & _ & Hb).
  unfold _check_wagers, ok_view. cbn [nav_activity load_activity bet_slips map].
  rewrite !bind_Return. cbn [scan_slips].
  rewrite bind_Return, Ho, bind_Return. now rewrite Hb.
Qed.

(** A slip showing $1.99: the token is [1], so the slip does not block
    although the amount shown exceeds 1.80. *)
Lemma fraction_discarded_witness :
  search_digits_commas "Potential payout: $1.99" = Some "1" /\
  slip_payout "Potential payout: $1.99" = Return (Some 1%Q) /\
  run_result (check_open_wagers (fun _ => ok_view ["Potential payout: $1.99"]))
    = Return (Some false).
Proof.
  pose proof (fraction_discarded "Potential payout: $" "1" ".99" 1%Q
                eq_refl eq_refl eq_refl eq_refl ltac:(discriminate)) as H.
  cbv zeta in H.
  change ("Potential payout: $" +:+ "1" +:+ ".99") with "Potential payout: $1.99" in H.
  destruct H as (Hsearch & (o & Ho & Hlabel & _) & Hrun).
  split; [exact Hsearch|]. split.
  - rewrite Ho. now rewrite (Hlabel eq_refl).
  - now rewrite Hrun.
Defined.

(** C9 as stated fails for a slip with a number in front of the payout:
    the slip displays a payout of $1.99, whose whole part is 1, but the
    value parsed is the 2 of [2-leg], and the slip is classified as
    blocking. *)
Lemma earlier_number_is_parsed :
  displays_payout "2-leg parlay. Potential payout: $1.99" "1.99" /\
  (exists q, Py.float "1.99" = Return q /\ (1 <= q)%Q /\ (q < 2)%Q) /\
  slip_payout "2-leg parlay. Potential payout: $1.99" = Return (Some 2%Q) /\
  run_result (check_open_wagers
                (fun _ => ok_view ["2-leg parlay. Potential payout: $1.99"]))
  = Return (Some true).
Proof.
  split; [now exists "2-leg parlay. Potential "|].
  split; [eexists; split; [reflexivity | split; [discriminate | reflexivity]]|].
  split; reflexivity.
Qed.

(** ** Parlay construction *)

Lemma in_band_bool (min_payout max_payout p : Q) :
  Qle_bool min_payout p && Qle_bool p max_payout = true <-> in_band min_payout max_payout p.
Proof. unfold in_band. now rewrite andb_true_iff, !Qle_bool_iff. Qed.

Lemma result_unit_tt (r : result unit) (u : unit) : r = Return u -> r = Return tt.
Proof. now destruct u. Qed.

Lemma build_parlay_greedy (min_payout max_payout : Q) (safe_games : list candidate) :
  forall (start : Q) (sel : list candidate) (out : parlay_outcome),
    build_parlay min_payout max_payout safe_games start sel = Return out ->
    exists taken rest,
      safe_games = taken ++ rest /\
      parlay_selections out = sel ++ taken /\
      greedy_run min_payout max_payout start taken out /\
      (placed out = true <-> (min_payout <= current_payout out)%Q) /\
      (rest <> [] ->
         in_band min_payout max_payout (current_payout out) \/
         (max_payout <= current_payout out)%Q).
Proof.
  induction safe_games as [|c cs IH]; intros start sel out H.
  - cbn [build_parlay] in H. injection H as <-.
    exists [], []. cbn [placed current_payout parlay_selections].
    split; [reflexivity|]. split; [now rewrite app_nil_r|].
    split; [left; now split|]. split; [apply Qle_bool_iff | congruence].
  - cbn [build_parlay] in H.
    destruct (Qle_bool max_payout start) eqn:Hmax.
    + injection H as <-.
      exists [], (c :: cs). cbn [placed current_payout parlay_selections].
      split; [reflexivity|]. split; [now rewrite app_nil_r|].
      split; [left; now split|]. split; [apply Qle_bool_iff|].
      intros _. right. now apply Qle_bool_iff.
    + apply Qle_bool_false_iff in Hmax.
      destruct (click_outcome (element c)) as [u|e] eqn:Hclick; [|discriminate H].
      apply result_unit_tt in Hclick.
      rewrite bind_Return in H.
      destruct (_get_current_payout (slip_after (element c))) as [p|e] eqn:Hread;
        [|discriminate H].
      rewrite bind_Return in H.
      destruct (Qle_bool min_payout p && Qle_bool p max_payout) eqn:Hband.
      * injection H as <-.
        exists [c], cs. cbn [placed current_payout parlay_selections].
        split; [reflexivity|]. split; [reflexivity|].
        apply in_band_bool in Hband.
        split.
        { right. exists [], c. split; [reflexivity|]. split; [exact Hmax|].
          split; [constructor|]. split; [now repeat constructor | exact Hread]. }
        split; [split; [intros _; apply Hband | reflexivity]|].
        intros _. now left.
      * destruct (IH p (sel ++ [c]) out H) as (taken & rest & Heq & Hsel & Hrun & Hplaced & Hrest).
        exists (c :: taken), rest.
        split; [now rewrite Heq|].
        split; [now rewrite Hsel, <- app_assoc|].
        split; [|split; [exact Hplaced | exact Hrest]].
        right. destruct Hrun as [[-> Hcur] | (front & d & -> & Hlt & Hfront & Hclicks & Hd)].
        -- exists [], c. split; [reflexivity|]. split; [exact Hmax|].
           split; [constructor|]. split; [now repeat constructor|].
           unfold reading. now rewrite Hread, Hcur.
        -- exists (c :: front), d. split; [reflexivity|]. split; [exact Hmax|].
           split; [|split; [|exact Hd]].
           ++ constructor; [|exact Hfront].
              exists p. split; [exact Hread|]. split; [|exact Hlt].
              apply Qnot_le_lt. intros Hmin.
              assert (in_band min_payout max_payout p) as Hin
                by (split; [exact Hmin | now apply Qlt_le_weak]).
              apply in_band_bool in Hin. congruence.
           ++ constructor; [exact Hclick | exact Hclicks].
Qed.

Lemma build_parlay_total (min_payout max_payout : Q) (safe_games : list candidate) :
  Forall (fun c => raises (click_outcome (element c)) = false /\
                   raises (reading c) = false) safe_games ->
  forall start sel, exists out,
    build_parlay min_payout max_payout safe_games start sel = Return out.
Proof.
  induction 1 as [|c cs [Hclick Hread] _ IH]; intros start sel.
  - eexists. reflexivity.
  - cbn [build_parlay].
    destruct (Qle_bool max_payout start); [eexists; reflexivity|].
    destruct (click_outcome (element c)) as [u|e]; [|discriminate Hclick].
    rewrite bind_Return. unfold reading in Hread.
    destruct (_get_current_payout (slip_after (element c))) as [p|e]; [|discriminate Hread].
    rewrite bind_Return.
    destruct (Qle_bool min_payout p && Qle_bool p max_payout); [eexists; reflexivity|].
    apply IH.
Qed.

Lemma execute_betting_strategy_first (min_payout max_payout : Q)
    (views : nat -> sports_view) (b : bool) :
  _execute_strategy min_payout max_payout (views O) = Return b ->
  execute_betting_strategy min_payout max_payout views
    = mk_run (Return (Some b)) 1%nat [Called 0].
Proof.
  intros H. unfold execute_betting_strategy, _retry_operation.
  change (range default_max_retries) with [0; 1; 2].
  now rewrite (retry_loop_success _ _ _ _ _ _ _ _ 1%nat b) by now rewrite H.
Qed.

(** C3.  For a band with [min_payout < max_payout] and a sports view whose
    listing can be read:
    - with no game, or no safe candidate, the strategy returns false;
    - otherwise its value is the one the accumulation loop returns on the
      candidates in discovery order, starting from payout 1;
    - whenever the loop returns, the legs it added are a prefix of the
      candidates, the payout was read after each addition, every leg
      before the last left it short of the band and of the maximum, the
      value returned is true exactly when the final payout is at least
      [min_payout], a final payout inside the band gives true, and
      candidates are left over only if the final payout is inside the
      band or at least [max_payout], in which case true is returned;
    - the loop does return when every click and every payout read
      succeeds;
    - the value returned by the first attempt is the value of
      [execute_betting_strategy]. *)
Theorem parlay_accumulation (min_payout max_payout : Q) (v : sports_view)
    (gs : list game_view)
    (Hband : (min_payout < max_payout)%Q) (Hview : lists v gs) :
  let safe_games := scan_games gs [] in
  (gs = [] \/ safe_games = [] -> _execute_strategy min_payout max_payout v = Return false) /\
  (safe_games <> [] ->
     _execute_strategy min_payout max_payout v
       = placed <$> build_parlay min_payout max_payout safe_games 1 []) /\
  (forall out, build_parlay min_payout max_payout safe_games 1 [] = Return out ->
     exists rest,
       safe_games = parlay_selections out ++ rest /\
       greedy_run min_payout max_payout 1 (parlay_selections out) out /\
       (placed out = true <-> (min_payout <= current_payout out)%Q) /\
       (in_band min_payout max_payout (current_payout out) -> placed out = true) /\
       (rest <> [] ->
          placed out = true /\
          (in_band min_payout max_payout (current_payout out) \/
           (max_payout <= current_payout out)%Q))) /\
  (Forall (fun c => raises (click_outcome (element c)) = false /\
                    raises (reading c) = false) safe_games ->
     exists out, build_parlay min_payout max_payout safe_games 1 [] = Return out) /\
  (forall views b, views O = v ->
     _execute_strategy min_payout max_payout v = Return b ->
     execute_betting_strategy min_payout max_payout views
       = mk_run (Return (Some b)) 1%nat [Called 0]).
Proof.
  intros safe_games. destruct Hview as (Hnav & Hload & Hgames).
  split; [|split; [|split; [|split]]].
  - intros Hempty. unfold _execute_strategy.
    rewrite Hnav, Hload, Hgames, !bind_Return.
    destruct gs as [|g gs']; [reflexivity|].
    destruct Hempty as [Hgs | Hsafe]; [discriminate Hgs|].
    fold safe_games. now rewrite Hsafe.
  - intros Hsafe. unfold _execute_strategy.
    rewrite Hnav, Hload, Hgames, !bind_Return.
    destruct gs as [|g gs']; [now contradiction Hsafe|].
    fold safe_games. now destruct safe_games.
  - intros out Hout.
    destruct (build_parlay_greedy _ _ _ _ _ _ Hout)
      as (taken & rest & Heq & Hsel & Hrun & Hplaced & Hrest).
    cbn [app] in Hsel. subst taken.
    exists rest. split; [exact Heq|]. split; [exact Hrun|]. split; [exact Hplaced|].
    split.
    + intros [Hmin _]. now apply Hplaced.
    + intros Hne. split; [|now apply Hrest].
      apply Hplaced. destruct (Hrest Hne) as [[Hmin _] | Hmax]; [exact Hmin|].
      apply Qle_trans with max_payout; [now apply Qlt_le_weak | exact Hmax].
  - intros Hok. now apply build_parlay_total.
  - intros views b <- Hb. now apply execute_betting_strategy_first.
Qed.

(** The band 50..100 on three legs: the second leg brings the payout to
    75.50 and the strategy returns true with the third leg left over; on
    an empty listing it returns false. *)
Lemma parlay_accumulation_witness :
  (50 < 100)%Q /\
  _execute_strategy 50 100 (listing three_legs) = Return true /\
  (exists out rest,
     build_parlay 50 100 (scan_games three_legs []) 1 [] = Return out /\
     scan_games three_legs [] = parlay_selections out ++ rest /\
     length (parlay_selections out) = 2%nat /\ length rest = 1%nat /\
     placed out = true) /\
  _execute_strategy 50 100 (listing []) = Return false.
Proof.
  assert (Hband : (50 < 100)%Q) by reflexivity.
  split; [exact Hband|].
  destruct (parlay_accumulation 50 100 (listing three_legs) three_legs Hband
              (conj eq_refl (conj eq_refl eq_refl)))
    as (_ & Hrun & Hloop & _).
  destruct (parlay_accumulation 50 100 (listing []) [] Hband
              (conj eq_refl (conj eq_refl eq_refl)))
    as (Hnone & _).
  split; [|split].
  - rewrite Hrun by discriminate. reflexivity.
  - destruct (build_parlay 50 100 (scan_games three_legs []) 1 []) as [out|e] eqn:E;
      [|discriminate E].
    destruct (Hloop out eq_refl) as (rest & Heq & _ & _ & Hin & _).
    exists out, rest. split; [reflexivity|]. split; [exact Heq|].
    injection E as <-.
    cbn [parlay_selections] in Heq |- *.
    split; [reflexivity|]. split; [|reflexivity].
    vm_compute in Heq. injection Heq as <-. reflexivity.
  - apply Hnone. now left.
Defined.

(** ** Disabling the workflow *)

Module GitHubProofs.
Import GitHub GitHubFacts.

Lemma find_workflow_Some (path : string) (items : list json) (target : json) :
  find_workflow path items = Return (Some target) ->
  In target items /\ has_path path target.
Proof.
  induction items as [|w rest IH]; intros H; [discriminate H|].
  cbn [find_workflow] in H.
  destruct (py_get w "path" JNull) as [p|e] eqn:Hp; [|discriminate H].
  rewrite bind_Return in H.
  destruct (json_is_str p path) eqn:Hs.
  - injection H as <-. split; [now left | now exists p].
  - destruct (IH H) as [Hin Hpath]. split; [now right | exact Hpath].
Qed.

Lemma disable_workflow_true (m : GitHubAPIManager) (api : api_view) :
  disable_workflow m api = Return true <->
  exists items target,
    listing_ok m api items /\
    find_workflow (workflow_path m) items = Return (Some target) /\
    disable_ok m api target.
Proof.
  unfold disable_workflow, disable_workflow_body. split.
  - intros H.
    destruct (get_workflows api (github_repository m)) as [resp|e] eqn:Hget;
      [rewrite bind_Return in H | discriminate H].
    destruct (raise_for_status resp) as [u|e] eqn:Hst;
      [rewrite bind_Return in H | discriminate H].
    apply result_unit_tt in Hst.
    destruct (json_body resp) as [body|e] eqn:Hbody;
      [rewrite bind_Return in H | discriminate H].
    destruct (py_get body "workflows" (JArr [])) as [ws|e] eqn:Hws;
      [rewrite bind_Return in H | discriminate H].
    destruct (py_iter ws) as [items|e] eqn:Hit;
      [rewrite bind_Return in H | discriminate H].
    destruct (find_workflow (workflow_path m) items) as [[target|]|e] eqn:Hfind;
      rewrite ?bind_Return in H; try discriminate H.
    destruct (py_getitem target "id") as [wid|e] eqn:Hid;
      [rewrite bind_Return in H | discriminate H].
    destruct (put_disable api (github_repository m) wid) as [resp2|e] eqn:Hput;
      [rewrite bind_Return in H | discriminate H].
    destruct (raise_for_status resp2) as [u2|e] eqn:Hst2; [|discriminate H].
    apply result_unit_tt in Hst2.
    exists items, target. split; [|split; [exact Hfind|]].
    + now exists resp, body, ws.
    + now exists wid, resp2.
  - intros (items & target & (resp & body & ws & Hget & Hst & Hbody & Hws & Hit)
            & Hfind & (wid & resp2 & Hid & Hput & Hst2)).
    rewrite Hget, bind_Return, Hst, bind_Return, Hbody, bind_Return, Hws, bind_Return,
      Hit, bind_Return, Hfind, bind_Return, Hid, bind_Return, Hput, bind_Return, Hst2.
    reflexivity.
Qed.

Lemma disable_workflow_returns (m : GitHubAPIManager) (api : api_view) :
  exists b, disable_workflow m api = Return b.
Proof.
  unfold disable_workflow. destruct (disable_workflow_body m api) as [b|e]; eauto.
Qed.

Lemma listing_ok_unique (m : GitHubAPIManager) (api : api_view) (items items' : list json) :
  listing_ok m api items -> listing_ok m api items' -> items = items'.
Proof.
  intros (r & b & w & H1 & _ & H2 & H3 & H4) (r' & b' & w' & H1' & _ & H2' & H3' & H4').
  congruence.
Qed.

(** C10.  [disable_workflow] always returns a boolean.  It returns true
    exactly when the listing request succeeds, the search finds the
    workflow whose path is the target path, and the disable request for it
    succeeds; so it returns false when the listing fails, when no listed
    workflow has the target path, and when the disable request fails.  For
    a manager built by the constructor the target path is
    [.github/workflows/main.yml]. *)
Theorem disable_workflow_never_raises (m : GitHubAPIManager) (api : api_view) :
  (exists b, disable_workflow m api = Return b) /\
  (disable_workflow m api = Return true <->
     exists items target,
       listing_ok m api items /\
       find_workflow (workflow_path m) items = Return (Some target) /\
       disable_ok m api target) /\
  ((forall items, ~ listing_ok m api items) -> disable_workflow m api = Return false) /\
  (forall items, listing_ok m api items ->
     (forall w, In w items -> ~ has_path (workflow_path m) w) ->
     disable_workflow m api = Return false) /\
  (forall items target, listing_ok m api items ->
     find_workflow (workflow_path m) items = Return (Some target) ->
     ~ disable_ok m api target ->
     disable_workflow m api = Return false) /\
  (forall env, __init__ env = Return m -> workflow_path m = ".github/workflows/main.yml").
Proof.
  assert (Hfalse : disable_workflow m api <> Return true ->
                   disable_workflow m api = Return false).
  { destruct (disable_workflow_returns m api) as ([|] & Hb); congruence. }
  split; [apply disable_workflow_returns|].
  split; [apply disable_workflow_true|].
  split; [|split; [|split]].
  - intros Hno. apply Hfalse. rewrite disable_workflow_true.
    intros (items & _ & Hok & _). exact (Hno items Hok).
  - intros items Hok Hnone. apply Hfalse. rewrite disable_workflow_true.
    intros (items' & target & Hok' & Hfind & _).
    rewrite <- (listing_ok_unique _ _ _ _ Hok Hok') in Hfind.
    destruct (find_workflow_Some _ _ _ Hfind) as [Hin Hpath].
    exact (Hnone target Hin Hpath).
  - intros items target Hok Hfind Hno. apply Hfalse. rewrite disable_workflow_true.
    intros (items' & target' & Hok' & Hfind' & Hdis).
    rewrite <- (listing_ok_unique _ _ _ _ Hok Hok') in Hfind'.
    assert (target' = target) as -> by congruence.
    exact (Hno Hdis).
  - intros env Hinit. unfold __init__ in Hinit.
    destruct (negb (truthy (getenv env "GITHUB_TOKEN"))); [discriminate Hinit|].
    destruct (negb (truthy (getenv env "GITHUB_REPOSITORY"))); [discriminate Hinit|].
    injection Hinit as <-. reflexivity.
Qed.

(** The remote answers of the test-suite: the workflow is listed and the
    disable request succeeds; the workflow is not listed; the disable
    request is refused; the listing request itself fails. *)
Lemma disable_workflow_never_raises_witness :
  disable_workflow test_manager
    (api_with [other_workflow; main_workflow] (Return (ok_response JNull))) = Return true /\
  disable_workflow test_manager
    (api_with [other_workflow] (Return (ok_response JNull))) = Return false /\
  disable_workflow test_manager
    (api_with [main_workflow] (Return failed_response)) = Return false /\
  disable_workflow test_manager
    {| get_workflows := fun _ => Raise (RequestException "Network error");
       put_disable := fun _ _ => Return (ok_response JNull) |} = Return false.
Proof.
  split; [|split; [|split]].
  - apply (disable_workflow_never_raises test_manager).
    exists [other_workflow; main_workflow], main_workflow.
    split; [|split; [reflexivity|]].
    + eexists _, _, _. repeat split; reflexivity.
    + eexists _, _. repeat split; reflexivity.
  - apply (disable_workflow_never_raises test_manager) with (items := [other_workflow]).
    + eexists _, _, _. repeat split; reflexivity.
    + intros w [<- | []] (p & Hp & Hs). injection Hp as <-. discriminate Hs.
  - apply (disable_workflow_never_raises test_manager)
      with (items := [main_workflow]) (target := main_workflow).
    + eexists _, _, _. repeat split; reflexivity.
    + reflexivity.
    + intros (wid & resp & _ & Hput & Hst). injection Hput as <-. discriminate Hst.
  - apply (disable_workflow_never_raises test_manager).
    intros items (resp & _ & _ & Hget & _). discriminate Hget.
Defined.

End GitHubProofs.

(** ** Required configuration *)

Lemma truthy_None_key (env : gmap string string) (key : string) :
  env !! key = None -> truthy (getenv env key) = false.
Proof. intros H. unfold getenv. now rewrite H. Qed.

Lemma github_init_missing (env : gmap string string) :
  env !! "GITHUB_TOKEN" = None \/ env !! "GITHUB_REPOSITORY" = None ->
  exists key, GitHub.__init__ env = Raise (required_error key) /\
              truthy (getenv env key) = false /\
              (key = "GITHUB_TOKEN" \/ key = "GITHUB_REPOSITORY").
Proof.
  intros H. unfold GitHub.__init__.
  destruct (truthy (getenv env "GITHUB_TOKEN")) eqn:Ht; cbn [negb].
  - destruct H as [H | H]; [now rewrite (truthy_None_key _ _ H) in Ht|].
    rewrite (truthy_None_key _ _ H). cbn [negb].
    exists "GITHUB_REPOSITORY". split; [reflexivity|].
    split; [now apply truthy_None_key | now right].
  - exists "GITHUB_TOKEN". split; [reflexivity|]. split; [exact Ht | now left].
Qed.

Lemma telegram_init_missing (Bot : string -> result unit) (env : gmap string string) :
  env !! "TELEGRAM_BOT_TOKEN" = None \/ env !! "TELEGRAM_CHAT_ID" = None ->
  exists key, Telegram.__init__ Bot env = Raise (required_error key) /\
              truthy (getenv env key) = false /\
              (key = "TELEGRAM_BOT_TOKEN" \/ key = "TELEGRAM_CHAT_ID").
Proof.
  intros H. unfold Telegram.__init__.
  destruct (truthy (getenv env "TELEGRAM_BOT_TOKEN")) eqn:Ht; cbn [negb].
  - destruct H as [H | H]; [now rewrite (truthy_None_key _ _ H) in Ht|].
    rewrite (truthy_None_key _ _ H). cbn [negb].
    exists "TELEGRAM_CHAT_ID". split; [reflexivity|].
    split; [now apply truthy_None_key | now right].
  - exists "TELEGRAM_BOT_TOKEN". split; [reflexivity|]. split; [exact Ht | now left].
Qed.

Lemma fliff_init_ignores (env : gmap string string) (key : string) :
  key <> "GEOLOCATION_LATITUDE" -> key <> "GEOLOCATION_LONGITUDE" ->
  Fliff.__init__ (delete key env) = Fliff.__init__ env.
Proof.
  intros H1 H2. unfold Fliff.__init__, getenv_default.
  now rewrite !lookup_delete_ne by congruence.
Qed.

Lemma step_log {A : Type} (c : Fliff.page_call) (r : result A)
    (k : A -> list Fliff.page_call * result unit) :
  fst (Fliff.step c r k) = c :: match r with Return a => fst (k a) | Raise _ => [] end.
Proof.
  destruct r as [a|e]; cbn [Fliff.step]; [now destruct (k a) | reflexivity].
Qed.

Lemma float_raises_error (text : string) (e : exn) :
  Py.float text = Raise e -> e = Py.float_error text.
Proof. unfold Py.float. destruct (Py.parse_float text); [discriminate | now intros [= <-]]. Qed.

(** The automator is the only component whose construction can fail for
    another reason than a missing variable: a geolocation variable that is
    set to a text [float] rejects. *)
Lemma fliff_init_raises (env : gmap string string) (e : exn) :
  Fliff.__init__ env = Raise e ->
  exists text,
    (env !! "GEOLOCATION_LATITUDE" = Some text \/ env !! "GEOLOCATION_LONGITUDE" = Some text) /\
    e = Py.float_error text.
Proof.
  unfold Fliff.__init__, getenv_default. intros H.
  destruct (env !! "GEOLOCATION_LATITUDE") as [lat|] eqn:Hlat.
  - destruct (Py.float lat) as [q|e'] eqn:Eq.
    + rewrite bind_Return in H.
      destruct (env !! "GEOLOCATION_LONGITUDE") as [lon|] eqn:Hlon.
      * destruct (Py.float lon) as [q'|e''] eqn:Eq'; [discriminate H|].
        injection H as <-. exists lon. split; [now right | now apply float_raises_error].
      * exfalso. vm_compute in H. discriminate H.
    + injection H as <-. exists lat. split; [now left | now apply float_raises_error].
  - assert (Hdefault : exists q, Py.float "40.7128" = Return q)
      by (eexists; vm_compute; reflexivity).
    destruct Hdefault as (q & Hq). rewrite Hq, bind_Return in H.
    destruct (env !! "GEOLOCATION_LONGITUDE") as [lon|] eqn:Hlon.
    + destruct (Py.float lon) as [q'|e''] eqn:Eq'; [discriminate H|].
      injection H as <-. exists lon. split; [now right | now apply float_raises_error].
    + exfalso. vm_compute in H. discriminate H.
Qed.

(** C6, as amended.  For the control-plane token, the repository
    identifier, the bot token and the channel id, an absent value makes
    the constructor of the owning component raise the [ValueError] that
    names a variable which is absent or empty.  The construction of the
    orchestrator then fails as well: with such an error when the
    automator, which is built first, can be built, and otherwise with the
    [ValueError] of [float] on the text of a geolocation variable.  The
    credential pair is not read at construction: the automator is built
    the same without it, and [login] passes what the environment holds at
    that moment to the user field and, once that is filled, to the
    password field. *)
Theorem required_configuration (Bot : string -> result unit) (env : gmap string string) :
  (env !! "GITHUB_TOKEN" = None \/ env !! "GITHUB_REPOSITORY" = None ->
     exists key, GitHub.__init__ env = Raise (required_error key) /\
                 truthy (getenv env key) = false /\
                 (key = "GITHUB_TOKEN" \/ key = "GITHUB_REPOSITORY")) /\
  (env !! "TELEGRAM_BOT_TOKEN" = None \/ env !! "TELEGRAM_CHAT_ID" = None ->
     exists key, Telegram.__init__ Bot env = Raise (required_error key) /\
                 truthy (getenv env key) = false /\
                 (key = "TELEGRAM_BOT_TOKEN" \/ key = "TELEGRAM_CHAT_ID")) /\
  (env !! "GITHUB_TOKEN" = None \/ env !! "GITHUB_REPOSITORY" = None \/
   env !! "TELEGRAM_BOT_TOKEN" = None \/ env !! "TELEGRAM_CHAT_ID" = None ->
     (forall a, Fliff.__init__ env = Return a ->
        exists key,
          (key = "GITHUB_TOKEN" \/ key = "GITHUB_REPOSITORY" \/
           key = "TELEGRAM_BOT_TOKEN" \/ key = "TELEGRAM_CHAT_ID") /\
          truthy (getenv env key) = false /\
          Main.__init__ Bot env = Raise (required_error key)) /\
     (forall e, Fliff.__init__ env = Raise e ->
        Main.__init__ Bot env = Raise e /\
        exists text,
          (env !! "GEOLOCATION_LATITUDE" = Some text \/
           env !! "GEOLOCATION_LONGITUDE" = Some text) /\
          e = Py.float_error text)) /\
  Fliff.__init__ (delete "FLIFF_USERNAME" (delete "FLIFF_PASSWORD" env)) = Fliff.__init__ env /\
  (forall self v,
     Fliff.page_open v = true \/ raises (Fliff.setup_outcome v) = false ->
     raises (Fliff.goto_outcome v) = false ->
     Fliff.login_button v = Return true ->
     In (Fliff.Fill Fliff.UsernameInput (env !! "FLIFF_USERNAME"))
        (fst (Fliff._login self env v)) /\
     (raises (Fliff.fill_outcome v Fliff.UsernameInput (env !! "FLIFF_USERNAME")) = false ->
        In (Fliff.Fill Fliff.PasswordInput (env !! "FLIFF_PASSWORD"))
           (fst (Fliff._login self env v)))).
Proof.
  split; [|split; [|split; [|split]]].
  - intros H. exact (github_init_missing env H).
  - intros H. exact (telegram_init_missing Bot env H).
  - intros H. split.
    + intros a Ha. unfold Main.__init__. rewrite Ha, bind_Return.
      destruct (GitHub.__init__ env) as [g|e] eqn:Hg.
      * rewrite bind_Return.
        assert (Ht : env !! "TELEGRAM_BOT_TOKEN" = None \/ env !! "TELEGRAM_CHAT_ID" = None).
        { destruct H as [H | [H | H]]; [| |exact H]; exfalso.
          - destruct (github_init_missing env (or_introl H)) as (key & Hk & _). congruence.
          - destruct (github_init_missing env (or_intror H)) as (key & Hk & _). congruence. }
        destruct (telegram_init_missing Bot env Ht) as (key & Hk & Hmiss & Hkey).
        exists key. rewrite Hk. split; [tauto|]. now split.
      * unfold GitHub.__init__ in Hg.
        destruct (truthy (getenv env "GITHUB_TOKEN")) eqn:Et; cbn [negb] in Hg.
        -- destruct (truthy (getenv env "GITHUB_REPOSITORY")) eqn:Er; cbn [negb] in Hg;
             [discriminate Hg|].
           injection Hg as <-.
           exists "GITHUB_REPOSITORY". split; [tauto|]. split; [exact Er | reflexivity].
        -- injection Hg as <-.
           exists "GITHUB_TOKEN". split; [tauto|]. split; [exact Et | reflexivity].
    + intros e He. split; [unfold Main.__init__; now rewrite He|].
      now apply fliff_init_raises.
  - now rewrite !fliff_init_ignores by discriminate.
  - intros self v Hopen Hgoto Hbutton.
    assert (Hlog : fst (Fliff._login self env v)
                   = (if Fliff.page_open v then [] else [Fliff.SetupBrowser])
                     ++ fst (Fliff.step (Fliff.Goto (Fliff.base_url self +:+ "/login"))
                               (Fliff.goto_outcome v) (fun _ =>
                             Fliff.step Fliff.WaitLoginButton (Fliff.login_button v)
                               (fun found =>
                                if negb found
                                then ([], Raise (Exception "Login button not found"))
                                else
                                Fliff.step
                                  (Fliff.Fill Fliff.UsernameInput (getenv env "FLIFF_USERNAME"))
                                  (Fliff.fill_outcome v Fliff.UsernameInput
                                     (getenv env "FLIFF_USERNAME")) (fun _ =>
                                Fliff.step
                                  (Fliff.Fill Fliff.PasswordInput (getenv env "FLIFF_PASSWORD"))
                                  (Fliff.fill_outcome v Fliff.PasswordInput
                                     (getenv env "FLIFF_PASSWORD")) (fun _ =>
                                Fliff.step Fliff.ClickLogin (Fliff.click_login_outcome v)
                                  (fun _ =>
                                   let prompt :=
                                     match Fliff.location_continue v with
                                     | Return true =>
                                         [Fliff.WaitLocationContinue; Fliff.ClickLocationContinue]
                                     | _ => [Fliff.WaitLocationContinue]
                                     end in
                                   let '(log, out) :=
                                     Fliff.step Fliff.WaitNetworkIdle (Fliff.load_outcome v)
                                       (fun _ => ([], Return tt)) in
                                   (prompt ++ log, out)))))))).
    { unfold Fliff._login. destruct (Fliff.page_open v) eqn:Eo; [reflexivity|].
      destruct Hopen as [Hopen | Hsetup]; [discriminate Hopen|].
      destruct (Fliff.setup_outcome v) as [u|e]; [|discriminate Hsetup].
      now rewrite step_log. }
    rewrite Hlog. clear Hlog.
    destruct (Fliff.goto_outcome v) as [u|e]; [|discriminate Hgoto].
    rewrite step_log, step_log, Hbutton. cbn [negb]. rewrite step_log.
    unfold getenv. split.
    + apply in_or_app. right. right. right. now left.
    + intros Hfill.
      destruct (Fliff.fill_outcome v Fliff.UsernameInput (env !! "FLIFF_USERNAME")) as [u'|e];
        [|discriminate Hfill].
      rewrite step_log. apply in_or_app. right. right. right. right. now left.
Qed.

Lemma required_configuration_witness :
  (exists key, GitHub.__init__ (delete "GITHUB_TOKEN" GitHubFacts.test_env)
               = Raise (required_error key)) /\
  (exists key, Telegram.__init__ any_bot (delete "TELEGRAM_CHAT_ID" GitHubFacts.test_env)
               = Raise (required_error key)) /\
  Main.__init__ any_bot (delete "GITHUB_REPOSITORY" GitHubFacts.test_env)
  = Raise (required_error "GITHUB_REPOSITORY") /\
  Main.__init__ any_bot
    (<["GEOLOCATION_LATITUDE" := "abc"]> (delete "GITHUB_TOKEN" GitHubFacts.test_env))
  = Raise (Py.float_error "abc") /\
  (forall self,
     In (Fliff.Fill Fliff.UsernameInput (Some "test_user"))
        (fst (Fliff._login self GitHubFacts.test_env smooth_login)) /\
     In (Fliff.Fill Fliff.PasswordInput (Some "test_password"))
        (fst (Fliff._login self GitHubFacts.test_env smooth_login))).
Proof.
  split; [|split; [|split; [|split]]].
  - destruct (required_configuration any_bot (delete "GITHUB_TOKEN" GitHubFacts.test_env))
      as (H & _).
    destruct (H (or_introl eq_refl)) as (key & Hk & _). now exists key.
  - destruct (required_configuration any_bot (delete "TELEGRAM_CHAT_ID" GitHubFacts.test_env))
      as (_ & H & _).
    destruct (H (or_intror eq_refl)) as (key & Hk & _). now exists key.
  - destruct (required_configuration any_bot (delete "GITHUB_REPOSITORY" GitHubFacts.test_env))
      as (_ & _ & H & _).
    destruct (H (or_intror (or_introl eq_refl))) as (Hbuilt & _).
    destruct (Hbuilt _ eq_refl) as (key & Hkey & Hmiss & Hk).
    rewrite Hk.
    destruct Hkey as [-> | [-> | [-> | ->]]];
      first [reflexivity | vm_compute in Hmiss; discriminate Hmiss].
  - destruct (required_configuration any_bot
                (<["GEOLOCATION_LATITUDE" := "abc"]>
                   (delete "GITHUB_TOKEN" GitHubFacts.test_env)))
      as (_ & _ & H & _).
    destruct (H (or_introl eq_refl)) as (_ & Hnot).
    exact (proj1 (Hnot (Py.float_error "abc") eq_refl)).
  - intros self.
    destruct (required_configuration any_bot GitHubFacts.test_env) as (_ & _ & _ & _ & H).
    destruct (H self smooth_login (or_introl eq_refl) eq_refl eq_refl) as (Hu & Hp).
    split; [exact Hu | exact (Hp eq_refl)].
Defined.

(** C6 as stated fails for the credential pair: with both credentials
    absent every component, the automator included, is constructed, and
    the missing user name is only met when [login] fills the form. *)
Lemma credentials_read_at_login :
  no_credentials_env !! "FLIFF_USERNAME" = None /\
  no_credentials_env !! "FLIFF_PASSWORD" = None /\
  (exists o, Main.__init__ any_bot no_credentials_env = Return o) /\
  (exists a, Fliff.__init__ no_credentials_env = Return a /\
             fst (Fliff._login a no_credentials_env smooth_login)
             = [Fliff.Goto "https://fliff.com/login"; Fliff.WaitLoginButton;
                Fliff.Fill Fliff.UsernameInput None; Fliff.Fill Fliff.PasswordInput None;
                Fliff.ClickLogin; Fliff.WaitLocationContinue; Fliff.WaitNetworkIdle]).
Proof.
  split; [reflexivity|]. split; [reflexivity|].
  split; eexists; [reflexivity | split; reflexivity].
Qed.

(** ** The bet-confirmation path of the driver *)

(** C2 at end-to-end scenario 3.  The driver takes the bet-slip screenshot
    once and reads the final balance; the lookup of [get_current_payout]
    on the automator then raises, no bet confirmation is sent, and the
    handler reports the error instead. *)
Theorem scenario3_sends_no_confirmation :
  let '(fr, r) := Main.run Main.scenario3 in
  r = Return tt /\
  Main.trace fr =
    [Main.StatusUpdate Main.BotStarted; Main.Login; Main.GetBalance;
     Main.CheckOpenWagers; Main.ExecuteStrategy 50.00 100.00;
     Main.TakeBetScreenshot; Main.GetBalance;
     Main.TakeErrorScreenshot;
     Main.ErrorNotification
       "'FliffAutomator' object has no attribute 'get_current_payout'"
       "screenshots/error_20231201_120001.png";
     Main.Close;
     Main.RemoveFile "screenshots/error_20231201_120001.png"] /\
  length (List.filter is_bet_screenshot (Main.trace fr)) = 1%nat /\
  List.filter is_confirmation (Main.trace fr) = [].
Proof. vm_compute. repeat split; reflexivity. Qed.

(** The keyword of the call is not a parameter of the notifier's method
    either. *)
Example confirmation_keyword_refused :
  Main.bind_keywords "send_bet_confirmation" Telegram.send_bet_confirmation_params
    [("wager_amount", Main.PFloat 5); ("potential_potential_payout", Main.PFloat 75);
     ("screenshot_path", Main.PStr "test_screenshot.png")]
  = Raise (TypeError
      "send_bet_confirmation() got an unexpected keyword argument 'potential_potential_payout'").
Proof. reflexivity. Qed.

(** *** No run confirms a bet *)

Section Quiet.
Import Main.

Lemma preserves_ret {A : Type} (a : A) : preserves (mret a : M A).
Proof. intros fr H. exact H. Qed.

Lemma preserves_bind {A B : Type} (m : M A) (k : A -> M B) :
  preserves m -> (forall a, preserves (k a)) -> preserves (m ≫= k).
Proof.
  intros Hm Hk fr Hq. unfold mbind, M_bind. specialize (Hm fr Hq).
  destruct (m fr) as [fr' [a|e]]; cbn [fst] in *; [now apply Hk | exact Hm].
Qed.

Lemma preserves_call {A : Type} (a : action) (r : result A) :
  is_confirmation a = false -> preserves (call a r).
Proof.
  intros Ha fr Hq. unfold quiet, call in *. cbn [fst trace].
  rewrite List.filter_app, Hq. cbn [List.filter app]. now rewrite Ha.
Qed.

Lemma preserves_throw {A : Type} (e : exn) : preserves (throw e : M A).
Proof. intros fr H. exact H. Qed.

Lemma preserves_throw_bind {A B : Type} (e : exn) (k : A -> M B) :
  preserves (throw e ≫= k).
Proof. intros fr H. exact H. Qed.

Lemma preserves_set_screenshot_path (p : string) : preserves (set_screenshot_path p).
Proof. intros fr H. exact H. Qed.

Variable v : cycle_view.

Lemma preserves_automator_method (name : string) : preserves (automator_method v name).
Proof.
  unfold automator_method.
  destruct (negb (existsb (String.eqb name) Fliff.attributes)); [apply preserves_throw|].
  destruct (String.eqb name "get_balance"); [now apply preserves_call|].
  destruct (String.eqb name "_get_current_payout"); [now apply preserves_call|].
  apply preserves_throw.
Qed.

Lemma preserves_betting_phase (balance : Q) (has_blocking_wagers : bool) :
  preserves (betting_phase v balance has_blocking_wagers).
Proof.
  unfold betting_phase.
  destruct (Qle_bool min_bet_threshold balance && negb has_blocking_wagers);
    [|apply preserves_ret].
  apply preserves_bind; [now apply preserves_call|]. intros [|].
  - apply preserves_bind; [now apply preserves_call|]. intros _.
    apply preserves_bind; [apply preserves_set_screenshot_path|]. intros _.
    apply preserves_bind; [apply preserves_automator_method|]. intros final.
    change (automator_method v "get_current_payout")
      with (throw (A := Q) (AttributeError
              "'FliffAutomator' object has no attribute 'get_current_payout'")).
    apply preserves_throw_bind.
  - now apply preserves_call.
Qed.

Lemma preserves_collect_phase (balance : Q) (has_blocking_wagers : bool) :
  preserves (collect_phase v balance has_blocking_wagers).
Proof.
  unfold collect_phase.
  destruct (Qlt_bool balance min_bet_threshold && negb has_blocking_wagers);
    [|apply preserves_ret].
  apply preserves_bind; [now apply preserves_call|]. intros _.
  apply preserves_bind; [now apply preserves_call|]. intros balance'.
  destruct (Qlt_bool balance' min_bet_threshold); [|apply preserves_ret].
  apply preserves_bind; [now apply preserves_call|]. intros _. apply preserves_ret.
Qed.

Lemma preserves_run_try : preserves (run_try v).
Proof.
  unfold run_try.
  apply preserves_bind; [now apply preserves_call|]. intros _.
  apply preserves_bind; [now apply preserves_call|]. intros _.
  apply preserves_bind; [now apply preserves_call|]. intros balance.
  destruct (Qle_bool goal_balance balance).
  - apply preserves_bind; [now apply preserves_call|]. intros _. now apply preserves_call.
  - apply preserves_bind; [now apply preserves_call|]. intros blocking.
    apply preserves_bind; [apply preserves_collect_phase|]. intros [balance'|].
    + apply preserves_betting_phase.
    + apply preserves_ret.
Qed.

Lemma preserves_run_except (e : exn) : preserves (run_except v e).
Proof.
  unfold run_except.
  apply preserves_bind; [now apply preserves_call|]. intros _.
  apply preserves_bind; [apply preserves_set_screenshot_path|]. intros _.
  now apply preserves_call.
Qed.

Lemma preserves_run_finally : preserves (run_finally v).
Proof.
  intros fr Hq. unfold run_finally. cbn [fst].
  revert fr Hq. change (preserves (call Close (close_outcome v) ≫= fun _ => remove_screenshot v)).
  apply preserves_bind; [now apply preserves_call|]. intros _.
  intros fr Hq. unfold remove_screenshot.
  destruct (screenshot_path fr) as [p|]; [|exact Hq].
  destruct (truthy (Some p) && file_exists v p); [|exact Hq].
  now apply preserves_call.
Qed.

(** On every run, whatever the collaborators answer, no bet confirmation
    reaches the notifier. *)
Lemma run_never_confirms : quiet (fst (run v)).
Proof.
  unfold run.
  pose proof (preserves_run_try {| screenshot_path := None; trace := [] |} eq_refl) as Htry.
  destruct (run_try v {| screenshot_path := None; trace := [] |}) as [fr [u|e]];
    cbn [fst] in Htry.
  - pose proof (preserves_run_finally fr Htry) as Hfin.
    now destruct (run_finally v fr).
  - pose proof (preserves_run_except e fr Htry) as Hexc.
    destruct (run_except v e fr) as [fr' r]. cbn [fst] in Hexc.
    pose proof (preserves_run_finally fr' Hexc) as Hfin.
    now destruct (run_finally v fr').
Qed.
End Quiet.

(** ** More on the retry executor *)

Lemma backoff_sum (delay : Z) (k : nat) :
  fold_right Z.add 0 (backoff delay k) = delay * (2 ^ Z.of_nat k - 1).
Proof.
  unfold backoff. induction k as [|k IH]; [cbn; lia|].
  rewrite seq_S, map_app, fold_right_app. cbn [map fold_right Nat.add].
  assert (Hshift : forall (l : list Z) (z : Z),
             fold_right Z.add z l = fold_right Z.add 0 l + z).
  { induction l as [|x l IHl]; intros z; cbn [fold_right]; [lia|]. rewrite IHl. lia. }
  rewrite Hshift, IH, Nat2Z.inj_succ, Z.pow_succ_r by lia. lia.
Qed.

Section RetryMore.
Context {W A : Type}.
Variable operation : W -> W * result A.
Variables (max_retries delay : Z) (operation_name : string).

(** [k] failing attempts numbered from [i], then a successful one. *)
Lemma retry_loop_succeeds_after (k i : nat) (rest : list Z) (w w' : W) (a : A)
    (log : list event) :
  Z.of_nat (i + k) <= max_retries - 1 ->
  (forall j, (j < k)%nat ->
     raises (snd (operation (world_after operation j w))) = true) ->
  operation (world_after operation k w) = (w', Return a) ->
  let r := retry_loop operation max_retries delay operation_name
             (map Z.of_nat (seq i (S k)) ++ rest) w log in
  run_result r = Return (Some a) /\
  run_world r = w' /\
  calls (run_log r) = (calls log + S k)%nat /\
  sleeps (run_log r) = sleeps log ++ map (fun j => delay * 2 ^ Z.of_nat j) (seq i k).
Proof.
  revert i w log. induction k as [|k IH]; intros i w log Hi Hfail Hok r.
  - subst r. change (seq i 1) with [i]. cbn [map app world_after] in *.
    rewrite (retry_loop_success _ _ _ _ _ _ _ _ _ _ Hok).
    cbn [run_result run_world run_log seq map].
    rewrite calls_app, sleeps_app.
    split; [reflexivity|]. split; [reflexivity|].
    split; [reflexivity | cbn; now rewrite !app_nil_r].
  - subst r. change (seq i (S (S k))) with (i :: seq (S i) (S k)).
    rewrite map_cons. cbn [app].
    pose proof (Hfail O (Nat.lt_0_succ _)) as H0. cbn [world_after] in H0, Hok.
    destruct (operation w) as [w1 [b|e]] eqn:E; [discriminate H0|].
    rewrite (retry_loop_failure _ _ _ _ _ _ _ _ _ _ E).
    replace (Z.of_nat i =? max_retries - 1) with false by (symmetry; apply Z.eqb_neq; lia).
    cbn [fst] in Hok.
    destruct (IH (S i) w1
                ((log ++ [Called (Z.of_nat i)]) ++
                 [Warned operation_name (Z.of_nat i + 1) max_retries e
                    (delay * 2 ^ Z.of_nat i);
                  Slept (delay * 2 ^ Z.of_nat i)]))
      as (Hres & Hw & Hc & Hs).
    + lia.
    + intros j Hj. specialize (Hfail (S j) ltac:(lia)).
      cbn [world_after] in Hfail. now rewrite E in Hfail.
    + exact Hok.
    + split; [exact Hres|]. split; [exact Hw|]. split.
      * rewrite Hc, !calls_app. cbn. lia.
      * rewrite Hs, !sleeps_app. cbn [seq map]. cbn. now rewrite app_nil_r, <- app_assoc.
Qed.

(** Whatever the unit does, [m + 1] attempts numbered from [i] make between
    one and [m + 1] calls, with one sleep between two consecutive calls. *)
Lemma retry_loop_accounting (m i : nat) (w : W) (log : list event) :
  Z.of_nat (i + m) = max_retries - 1 ->
  let r := retry_loop operation max_retries delay operation_name
             (map Z.of_nat (seq i (S m))) w log in
  exists k, (k <= m)%nat /\
    calls (run_log r) = (calls log + S k)%nat /\
    sleeps (run_log r) = sleeps log ++ map (fun j => delay * 2 ^ Z.of_nat j) (seq i k) /\
    run_result r <> Return None.
Proof.
  revert i w log. induction m as [|m IH]; intros i w log Hi r; subst r.
  - change (seq i 1) with [i]. cbn [map].
    exists O. split; [lia|].
    destruct (operation w) as [w1 [a|e]] eqn:E.
    + rewrite (retry_loop_success _ _ _ _ _ _ _ _ _ _ E).
      cbn [run_result run_log seq map]. rewrite calls_app, sleeps_app.
      split; [reflexivity|]. split; [cbn; now rewrite !app_nil_r | discriminate].
    + rewrite (retry_loop_failure _ _ _ _ _ _ _ _ _ _ E).
      replace (Z.of_nat i =? max_retries - 1) with true by (symmetry; apply Z.eqb_eq; lia).
      cbn [run_result run_log seq map]. rewrite calls_app, sleeps_app.
      split; [reflexivity|]. split; [cbn; now rewrite !app_nil_r | discriminate].
  - change (seq i (S (S m))) with (i :: seq (S i) (S m)). rewrite map_cons.
    destruct (operation w) as [w1 [a|e]] eqn:E.
    + rewrite (retry_loop_success _ _ _ _ _ _ _ _ _ _ E).
      exists O. split; [lia|].
      cbn [run_result run_log seq map]. rewrite calls_app, sleeps_app.
      split; [reflexivity|]. split; [cbn; now rewrite !app_nil_r | discriminate].
    + rewrite (retry_loop_failure _ _ _ _ _ _ _ _ _ _ E).
      replace (Z.of_nat i =? max_retries - 1) with false by (symmetry; apply Z.eqb_neq; lia).
      destruct (IH (S i) w1
                  ((log ++ [Called (Z.of_nat i)]) ++
                   [Warned operation_name (Z.of_nat i + 1) max_retries e
                      (delay * 2 ^ Z.of_nat i);
                    Slept (delay * 2 ^ Z.of_nat i)]))
        as (k & Hk & Hc & Hs & Hnone); [lia|].
      exists (S k). split; [lia|]. split; [|split; [|exact Hnone]].
      * rewrite Hc, !calls_app. cbn. lia.
      * rewrite Hs, !sleeps_app. cbn [seq map]. cbn. now rewrite app_nil_r, <- app_assoc.
Qed.
End RetryMore.

(** X1.  First success after [k] failures.  When the first [k] calls of
    the unit fail, the next one succeeds and [k] is below the bound, the
    executor returns the result of that call, has called the unit exactly
    [k + 1] times, and has slept [delay * 2 ^ j] before attempt [j + 1],
    [delay * (2 ^ k - 1)] seconds in all. *)
Theorem retry_succeeds_after {W A : Type} (operation : W -> W * result A)
    (max_retries delay : Z) (operation_name : string) (w w' : W) (a : A) (k : nat)
    (Hk : Z.of_nat k < max_retries)
    (Hfail : forall j, (j < k)%nat ->
       raises (snd (operation (world_after operation j w))) = true)
    (Hok : operation (world_after operation k w) = (w', Return a)) :
  let r := _retry_operation operation max_retries delay operation_name w in
  run_result r = Return (Some a) /\
  run_world r = w' /\
  calls (run_log r) = S k /\
  sleeps (run_log r) = backoff delay k /\
  total_sleep (run_log r) = delay * (2 ^ Z.of_nat k - 1).
Proof.
  intros r. subst r. unfold _retry_operation, range.
  replace (Z.to_nat max_retries) with (S k + (Z.to_nat max_retries - S k))%nat by lia.
  rewrite seq_app, map_app.
  destruct (retry_loop_succeeds_after operation max_retries delay operation_name k 0
              (map Z.of_nat (seq (0 + S k) (Z.to_nat max_retries - S k))) w w' a []
              ltac:(lia) Hfail Hok)
    as (Hres & Hw & Hc & Hs).
  split; [exact Hres|]. split; [exact Hw|]. split; [exact Hc|].
  assert (Hsl : sleeps (run_log
            (retry_loop operation max_retries delay operation_name
               (map Z.of_nat (seq 0 (S k)) ++
                map Z.of_nat (seq (0 + S k) (Z.to_nat max_retries - S k))) w []))
            = backoff delay k) by exact Hs.
  split; [exact Hsl|].
  unfold total_sleep. rewrite Hsl. apply backoff_sum.
Qed.

(** A unit that fails twice and then succeeds, under the default policy:
    three calls, sleeps of 2 and 4 seconds. *)
Lemma retry_succeeds_after_witness :
  let r := _retry_operation (flaky_operation 2) default_max_retries default_delay "test" O in
  run_result r = Return (Some "success") /\ calls (run_log r) = 3%nat /\
  sleeps (run_log r) = [2; 4] /\ total_sleep (run_log r) = 6.
Proof.
  destruct (retry_succeeds_after (flaky_operation 2) default_max_retries default_delay
              "test" O 3%nat "success" 2 eq_refl) as (Hr & _ & Hc & Hs & Ht).
  - intros [|[|j]] Hj; [reflexivity | reflexivity | lia].
  - reflexivity.
  - cbv zeta. split; [exact Hr|]. split; [exact Hc|]. split; [exact Hs | exact Ht].
Defined.

(** X2.  Accounting of every run.  With a bound of at least 1 and whatever
    the unit does, the executor calls it at least once and at most
    [max_retries] times, never falls through with [None], sleeps exactly
    once between two consecutive calls and never after the last one, for
    [delay * 2 ^ j] seconds after attempt [j]; with a non-negative delay
    the time slept in all is at most [delay * (2 ^ (max_retries - 1) - 1)]. *)
Theorem retry_accounting {W A : Type} (operation : W -> W * result A)
    (max_retries delay : Z) (operation_name : string) (w : W)
    (Hmax : 1 <= max_retries) :
  let r := _retry_operation operation max_retries delay operation_name w in
  exists k,
    calls (run_log r) = S k /\
    (S k <= Z.to_nat max_retries)%nat /\
    sleeps (run_log r) = backoff delay k /\
    total_sleep (run_log r) = delay * (2 ^ Z.of_nat k - 1) /\
    (0 <= delay -> total_sleep (run_log r) <= delay * (2 ^ (max_retries - 1) - 1)) /\
    run_result r <> Return None.
Proof.
  intros r. subst r. unfold _retry_operation, range.
  destruct (Z.to_nat max_retries) as [|m] eqn:Em; [lia|].
  destruct (retry_loop_accounting operation max_retries delay operation_name m 0 w [])
    as (k & Hk & Hc & Hs & Hnone); [lia|].
  exists k. split; [exact Hc|]. split; [lia|].
  assert (Hsl : sleeps (run_log
            (retry_loop operation max_retries delay operation_name
               (map Z.of_nat (seq 0 (S m))) w [])) = backoff delay k) by exact Hs.
  split; [exact Hsl|].
  assert (Htot : total_sleep (run_log
            (retry_loop operation max_retries delay operation_name
               (map Z.of_nat (seq 0 (S m))) w [])) = delay * (2 ^ Z.of_nat k - 1)).
  { unfold total_sleep. rewrite Hsl. apply backoff_sum. }
  split; [exact Htot|]. split; [|exact Hnone].
  intros Hd. rewrite Htot.
  apply Z.mul_le_mono_nonneg_l; [exact Hd|].
  apply Z.sub_le_mono_r. apply Z.pow_le_mono_r; lia.
Qed.

(** Under the default policy a unit that always fails is called at most
    three times and at most six seconds are slept. *)
Lemma retry_accounting_witness :
  let r := _retry_operation failing_operation default_max_retries default_delay "test" O in
  (1 <= calls (run_log r) <= 3)%nat /\ total_sleep (run_log r) <= 6 /\
  run_result r <> Return None.
Proof.
  destruct (retry_accounting failing_operation default_max_retries default_delay "test" O
              ltac:(unfold default_max_retries; lia))
    as (k & Hc & Hk & _ & _ & Hle & Hnone).
  cbv zeta. split; [|split; [|exact Hnone]].
  - rewrite Hc. split; [lia | exact Hk].
  - apply Hle. unfold default_delay. lia.
Defined.

(** ** Amount tokens *)

Lemma span_fst_all (p : ascii -> bool) (s : string) : all_chars p (fst (span p s)) = true.
Proof.
  induction s as [|c s IH]; [reflexivity|]. cbn [span].
  destruct (p c) eqn:Hc; [|reflexivity].
  destruct (span p s) as [run rest]. cbn [fst all_chars] in *. now rewrite Hc.
Qed.

Lemma remove_commas_app (a b : string) :
  Py.remove_commas (a +:+ b) = Py.remove_commas a +:+ Py.remove_commas b.
Proof.
  induction a as [|c a IH]; [reflexivity|].
  rewrite append_cons. cbn [Py.remove_commas].
  destruct (Ascii.eqb c ","); [exact IH | now rewrite append_cons, IH].
Qed.

Lemma remove_commas_amount (s : string) :
  all_chars is_amount_char s = true -> all_chars Py.is_digit (Py.remove_commas s) = true.
Proof.
  induction s as [|c s IH]; [reflexivity|]. cbn [all_chars Py.remove_commas]. intros H.
  apply andb_prop in H as [Hc Hs]. unfold is_amount_char in Hc.
  destruct (Ascii.eqb c ",") eqn:E; [now apply IH|].
  rewrite orb_false_r in Hc. cbn [all_chars]. now rewrite Hc, IH.
Qed.

Lemma digit_not_comma (c : ascii) : Py.is_digit c = true -> Ascii.eqb c "," = false.
Proof.
  destruct c as [[] [] [] [] [] [] [] []]; intros H;
    first [reflexivity | discriminate H].
Qed.

Lemma remove_commas_digits (s : string) :
  all_chars Py.is_digit s = true -> Py.remove_commas s = s.
Proof.
  induction s as [|c s IH]; [reflexivity|]. cbn [all_chars Py.remove_commas]. intros H.
  apply andb_prop in H as [Hc Hs]. now rewrite (digit_not_comma _ Hc), IH.
Qed.

(** The token of the decimal pattern is the run of digits and commas,
    alone or followed by a point and digits. *)
Lemma match_decimal_at_shape (s : string) :
  exists frac,
    all_chars Py.is_digit frac = true /\
    (match_decimal_at s = fst (span is_amount_char s) \/
     match_decimal_at s = fst (span is_amount_char s) +:+ "." +:+ frac).
Proof.
  unfold match_decimal_at. destruct (span is_amount_char s) as [run rest]. cbn [fst].
  destruct rest as [|c r]; [exists EmptyString; split; [reflexivity | now left]|].
  destruct (Ascii.eqb c ".") eqn:E.
  - apply Ascii.eqb_eq in E. subst c.
    exists (fst (span Py.is_digit r)). split; [apply span_fst_all | now right].
  - exists EmptyString. split; [reflexivity|]. left.
    destruct c as [[] [] [] [] [] [] [] []]; first [reflexivity | discriminate E].
Qed.

(** Both patterns find their token at the same place. *)
Lemma search_same_place (s : string) :
  (all_chars not_amount_char s = true /\
   search_digits_commas s = None /\ search_decimal s = None) \/
  (exists suffix,
     search_digits_commas s = Some (fst (span is_amount_char suffix)) /\
     search_decimal s = Some (match_decimal_at suffix)).
Proof.
  induction s as [|c s IH]; [left; repeat split|].
  cbn [search_digits_commas search_decimal all_chars]. unfold not_amount_char at 1.
  destruct (is_amount_char c) eqn:Hc.
  - right. exists (String c s). split; reflexivity.
  - cbn [negb andb]. exact IH.
Qed.

Lemma strip_no_space (s : string) : all_chars not_space s = true -> Py.strip s = s.
Proof.
  intros H. unfold Py.strip.
  assert (Hr : Py.rstrip s = s).
  { induction s as [|c s IH]; [reflexivity|]. cbn [all_chars] in H.
    apply andb_prop in H as [Hc Hs]. unfold not_space in Hc. apply negb_true_iff in Hc.
    rewrite rstrip_cons_nonspace by assumption. now rewrite IH. }
  rewrite Hr. destruct s as [|c s]; [reflexivity|]. cbn [all_chars] in H.
  apply andb_prop in H as [Hc _]. unfold not_space in Hc. apply negb_true_iff in Hc.
  cbn [Py.lstrip]. now rewrite Hc.
Qed.

Lemma decimal_char_not_space (c : ascii) : is_decimal_char c = true -> not_space c = true.
Proof.
  destruct c as [[] [] [] [] [] [] [] []]; intros H;
    first [reflexivity | discriminate H].
Qed.

Lemma decimal_char_no_sign (c : ascii) (r : string) :
  is_decimal_char c = true -> Py.split_sign (String c r) = (false, String c r).
Proof.
  destruct c as [[] [] [] [] [] [] [] []]; intros H;
    first [reflexivity | discriminate H].
Qed.

Lemma pow10_pos (e : Z) : (0 < Py.pow10 e)%Q.
Proof.
  unfold Py.pow10. destruct (0 <=? e) eqn:E.
  - apply Z.leb_le in E. pose proof (Z.pow_pos_nonneg 10 e ltac:(lia) E).
    unfold Qlt. cbn. lia.
  - apply Z.leb_gt in E. pose proof (Z.pow_pos_nonneg 10 (- e) ltac:(lia) ltac:(lia)).
    apply Qinv_lt_0_compat. unfold Qlt. cbn. lia.
Qed.

Lemma inject_N_nonneg (n : N) : (0 <= inject_Z (Z.of_N n))%Q.
Proof. unfold Qle. cbn. lia. Qed.

Lemma read_unsigned_nonneg (s : string) (q : Q) :
  Py.read_unsigned s = Some q -> (0 <= q)%Q.
Proof.
  unfold Py.read_unsigned.
  destruct (Py.read_digits 0 0 s) as [[ip ni] r1]. cbv beta iota.
  match goal with
  | |- context [match ?x with pair _ _ => _ end] => destruct x as [[fp nf] r2]
  end.
  cbv beta iota.
  destruct (ni + nf)%nat; [discriminate|].
  destruct (Py.read_exponent r2) as [e|]; [|discriminate].
  intros [= <-].
  apply Qmult_le_0_compat; [|apply Qlt_le_weak, pow10_pos].
  rewrite <- (Qplus_0_r 0). apply Qplus_le_compat; [apply inject_N_nonneg|].
  apply Qmult_le_0_compat; [apply inject_N_nonneg | apply Qlt_le_weak, pow10_pos].
Qed.

Lemma float_decimal_nonneg (s : string) (q : Q) :
  all_chars is_decimal_char s = true -> Py.float s = Return q -> (0 <= q)%Q.
Proof.
  intros Hs. rewrite float_Return. unfold Py.parse_float.
  rewrite float_strip_no_space by (revert Hs; apply all_chars_impl, decimal_char_not_space).
  destruct s as [|c r].
  - cbn. discriminate.
  - cbn [all_chars] in Hs. apply andb_prop in Hs as [Hc _].
    rewrite (decimal_char_no_sign _ _ Hc).
    destruct (Py.read_unsigned (String c r)) as [v|] eqn:E; [|discriminate].
    intros [= <-]. exact (read_unsigned_nonneg _ _ E).
Qed.

Lemma digit_is_decimal (c : ascii) : Py.is_digit c = true -> is_decimal_char c = true.
Proof. intros H. unfold is_decimal_char. now rewrite H. Qed.

Lemma decimal_token_chars (suffix : string) :
  all_chars is_decimal_char (Py.remove_commas (match_decimal_at suffix)) = true.
Proof.
  pose proof (remove_commas_amount _ (span_fst_all is_amount_char suffix)) as Hrun.
  destruct (match_decimal_at_shape suffix) as (frac & Hfrac & [-> | ->]).
  - revert Hrun. apply all_chars_impl, digit_is_decimal.
  - rewrite !remove_commas_app, !all_chars_app, (remove_commas_digits _ Hfrac).
    rewrite (all_chars_impl _ _ _ digit_is_decimal Hrun).
    now rewrite (all_chars_impl _ _ _ digit_is_decimal Hfrac).
Qed.

(** X3.  Amounts read from the page are never negative: whenever
    [_get_current_payout] returns a payout, and whenever the wager check
    parses a payout from a slip, the value is at least 0. *)
Theorem parsed_payout_nonneg :
  (forall (bet_slip : slip_view) (p : Q),
     _get_current_payout bet_slip = Return p -> (0 <= p)%Q) /\
  (forall (payout_text : string) (p : Q),
     slip_payout payout_text = Return (Some p) -> (0 <= p)%Q).
Proof.
  split.
  - intros bet_slip p. unfold _get_current_payout.
    destruct bet_slip as [[text|]|e]; rewrite ?bind_Return; try discriminate.
    + destruct (search_same_place text) as [(_ & _ & ->) | (suffix & _ & ->)].
      * intros [= <-]. discriminate.
      * apply float_decimal_nonneg, decimal_token_chars.
    + intros [= <-]. discriminate.
  - intros text p. unfold slip_payout.
    destruct (Py.contains "payout" (Py.lower text)); [|discriminate].
    destruct (search_same_place text) as [(_ & -> & _) | (suffix & -> & _)]; [discriminate|].
    destruct (Py.float (Py.remove_commas (fst (span is_amount_char suffix)))) as [q|e] eqn:E;
      [|discriminate].
    rewrite bind_Return. intros [= <-].
    apply (float_decimal_nonneg _ _ (all_chars_impl _ _ _ digit_is_decimal
             (remove_commas_amount _ (span_fst_all is_amount_char suffix))) E).
Qed.

Lemma parsed_payout_nonneg_witness :
  (exists p, _get_current_payout (Return (Some "Potential payout: $25.50")) = Return p /\
             (0 <= p)%Q) /\
  (exists p, slip_payout "Potential payout: $50.00" = Return (Some p) /\ (0 <= p)%Q).
Proof.
  destruct parsed_payout_nonneg as (Hslip & Hwager). split.
  - eexists. split; [reflexivity|].
    apply (Hslip (Return (Some "Potential payout: $25.50"))). reflexivity.
  - eexists. split; [reflexivity|].
    apply (Hwager "Potential payout: $50.00"). reflexivity.
Defined.

(** X4.  The payout reader falls back to 0: when no bet-slip element is
    found, and when the text of the slip holds neither a digit nor a
    comma.  A slip whose text does hold one is never read as "no
    amount": the reader then returns the parsed token or raises. *)
Theorem payout_defaults_to_zero :
  _get_current_payout (Return None) = Return 0%Q /\
  (forall payout_text, all_chars not_amount_char payout_text = true ->
     _get_current_payout (Return (Some payout_text)) = Return 0%Q) /\
  (forall payout_text, all_chars not_amount_char payout_text = false ->
     exists token,
       search_decimal payout_text = Some token /\
       _get_current_payout (Return (Some payout_text))
         = Py.float (Py.remove_commas token)).
Proof.
  split; [reflexivity|]. split.
  - intros text H. unfold _get_current_payout. rewrite bind_Return.
    destruct (search_same_place text) as [(_ & _ & ->) | (suffix & Hs & _)]; [reflexivity|].
    exfalso. clear -H Hs. induction text as [|c text IH]; [discriminate Hs|].
    cbn [all_chars search_digits_commas] in *. apply andb_prop in H as [Hc Ht].
    unfold not_amount_char in Hc. apply negb_true_iff in Hc. rewrite Hc in Hs. now apply IH.
  - intros text H. unfold _get_current_payout. rewrite bind_Return.
    destruct (search_same_place text) as [(Hall & _) | (suffix & _ & ->)]; [congruence|].
    eexists. split; reflexivity.
Qed.

Lemma payout_defaults_to_zero_witness :
  _get_current_payout (Return (Some "No payout information")) = Return 0%Q /\
  _get_current_payout (Return (Some "Payout, pending"))
    = Raise (ValueError "could not convert string to float: ''").
Proof.
  destruct payout_defaults_to_zero as (_ & Hzero & Htoken). split.
  - apply Hzero. reflexivity.
  - destruct (Htoken "Payout, pending" eq_refl) as (token & Hsearch & ->).
    injection Hsearch as <-. reflexivity.
Defined.

(** ** The two readers on the same text *)

Lemma digit_val_le_9 (c : ascii) : Py.is_digit c = true -> (Py.digit_val c <= 9)%N.
Proof.
  destruct c as [[] [] [] [] [] [] [] []]; intros H;
    first [discriminate H | (intros E; discriminate E)].
Qed.

Lemma digit_not_underscore (c : ascii) : Py.is_digit c = true -> Ascii.eqb c "_" = false.
Proof.
  destruct c as [[] [] [] [] [] [] [] []]; intros H;
    first [reflexivity | discriminate H].
Qed.

(** Reading a run of digits stops where the run stops. *)
Lemma read_digits_run (ds rest : string) :
  all_chars Py.is_digit ds = true ->
  rest = EmptyString \/ (exists r, rest = String "." r) ->
  forall acc count,
    Py.read_digits acc count (ds +:+ rest)
    = (fst (fst (Py.read_digits acc count ds)), snd (fst (Py.read_digits acc count ds)), rest).
Proof.
  intros Hds Hrest. induction ds as [|c ds IH]; intros acc count.
  - rewrite append_empty. destruct Hrest as [-> | (r & ->)]; reflexivity.
  - cbn [all_chars] in Hds. apply andb_prop in Hds as [Hc Hds].
    rewrite append_cons. cbn [Py.read_digits]. rewrite Hc. now apply IH.
Qed.

(** The value read from [k] digits after [acc] lies between [acc * 10 ^ k]
    and [(acc + 1) * 10 ^ k]. *)
Lemma read_digits_bounds (ds : string) :
  all_chars Py.is_digit ds = true ->
  forall acc count,
    exists k,
      snd (fst (Py.read_digits acc count ds)) = (count + k)%nat /\
      snd (Py.read_digits acc count ds) = EmptyString /\
      (10 ^ N.of_nat k * acc <= fst (fst (Py.read_digits acc count ds))
       < 10 ^ N.of_nat k * (acc + 1))%N.
Proof.
  induction ds as [|c ds IH]; intros Hds acc count.
  - exists O. cbn. split; [lia|]. split; [reflexivity | lia].
  - cbn [all_chars] in Hds. apply andb_prop in Hds as [Hc Hds].
    cbn [Py.read_digits]. rewrite Hc.
    destruct (IH Hds (10 * acc + Py.digit_val c)%N (S count)) as (k & Hn & Hr & Hlo & Hhi).
    pose proof (digit_val_le_9 _ Hc) as Hd.
    exists (S k). split; [lia|]. split; [exact Hr|].
    rewrite Nat2N.inj_succ, N.pow_succ_r'. split; nia.
Qed.

Lemma float_digit_run (ds : string) (a : Q) :
  all_chars Py.is_digit ds = true -> Py.float ds = Return a ->
  exists V n, Py.read_digits 0 0 ds = (V, S n, EmptyString) /\
              (a == inject_Z (Z.of_N V))%Q.
Proof.
  intros Hds. rewrite float_Return. unfold Py.parse_float.
  rewrite float_strip_no_space
    by (revert Hds; apply all_chars_impl; intros c Hc;
        apply decimal_char_not_space, digit_is_decimal, Hc).
  destruct ds as [|c r]; [cbn; discriminate|].
  pose proof Hds as Hds'. cbn [all_chars] in Hds'. apply andb_prop in Hds' as [Hc _].
  rewrite (decimal_char_no_sign _ _ (digit_is_decimal _ Hc)).
  unfold Py.read_unsigned.
  destruct (read_digits_bounds _ Hds 0%N O) as (k & Hn & Hr & _).
  destruct (Py.read_digits 0 0 (String c r)) as [[V n] r1]. cbn [fst snd] in Hn, Hr.
  subst r1 n. cbv beta iota. cbn [Nat.add].
  destruct k as [|k]; [discriminate|].
  cbn [Nat.add Py.read_exponent]. intros [= <-].
  exists V, k. split; [reflexivity|].
  unfold Py.pow10. cbn. unfold Qeq. cbn. lia.
Qed.

Lemma fraction_below_one (F : N) (k : nat) :
  (F < 10 ^ N.of_nat k)%N ->
  (0 <= inject_Z (Z.of_N F) * Py.pow10 (- Z.of_nat k) < 1)%Q.
Proof.
  intros HF. split.
  - apply Qmult_le_0_compat; [apply inject_N_nonneg | apply Qlt_le_weak, pow10_pos].
  - assert (HZ : (Z.of_N F < 10 ^ Z.of_nat k)%Z).
    { change 10%Z with (Z.of_N 10). rewrite <- nat_N_Z, <- N2Z.inj_pow. lia. }
    unfold Py.pow10. destruct (0 <=? - Z.of_nat k) eqn:E.
    + apply Z.leb_le in E. assert (k = O) by lia. subst k.
      cbn in HZ |- *. unfold Qlt. cbn. lia.
    + rewrite Z.opp_involutive.
      apply Qlt_shift_div_r.
      * pose proof (Z.pow_pos_nonneg 10 (Z.of_nat k) ltac:(lia) ltac:(lia)).
        unfold Qlt. cbn. lia.
      * unfold Qlt. cbn. lia.
Qed.

(** In exact arithmetic the value of the wager check is the integer part
    of the value of the payout reader. *)
Lemma integer_part_in_rationals (payout_text : string) (a b : Q)
    (Ha : slip_payout payout_text = Return (Some a))
    (Hb : _get_current_payout (Return (Some payout_text)) = Return b) :
  (a <= b)%Q /\ (b < a + 1)%Q.
Proof.
  unfold slip_payout in Ha. unfold _get_current_payout in Hb. rewrite bind_Return in Hb.
  destruct (Py.contains "payout" (Py.lower payout_text)); [|discriminate Ha].
  destruct (search_same_place payout_text) as [(_ & Hn & _) | (suffix & Hs & Hd)];
    [rewrite Hn in Ha; discriminate Ha|].
  rewrite Hs in Ha. rewrite Hd in Hb.
  pose proof (remove_commas_amount _ (span_fst_all is_amount_char suffix)) as Hrun.
  set (ds := Py.remove_commas (fst (span is_amount_char suffix))) in *.
  destruct (Py.float ds) as [a'|e] eqn:Ea; [|discriminate Ha].
  rewrite bind_Return in Ha. injection Ha as ->.
  destruct (match_decimal_at_shape suffix) as (frac & Hfrac & [Htok | Htok]);
    rewrite Htok in Hb.
  - fold ds in Hb. rewrite Ea in Hb. injection Hb as <-. split; lra.
  - rewrite !remove_commas_app, (remove_commas_digits _ Hfrac) in Hb. fold ds in Hb.
    destruct (float_digit_run ds a Hrun Ea) as (V & n & Hread & Hav).
    assert (Hdec : all_chars is_decimal_char (ds +:+ Py.remove_commas "." +:+ frac) = true).
    { rewrite !all_chars_app, (all_chars_impl _ _ _ digit_is_decimal Hrun).
      now rewrite (all_chars_impl _ _ _ digit_is_decimal Hfrac). }
    apply float_Return in Hb. unfold Py.parse_float in Hb.
    rewrite float_strip_no_space in Hb
      by (revert Hdec; apply all_chars_impl, decimal_char_not_space).
    destruct ds as [|c r] eqn:Eds; [cbn in Hread; discriminate Hread|].
    pose proof Hrun as Hrun'. cbn [all_chars] in Hrun'. apply andb_prop in Hrun' as [Hc _].
    rewrite append_cons, (decimal_char_no_sign _ _ (digit_is_decimal _ Hc)) in Hb.
    rewrite <- append_cons in Hb. unfold Py.read_unsigned in Hb.
    rewrite (read_digits_run (String c r) (Py.remove_commas "." +:+ frac) Hrun) in Hb
      by (right; now exists frac).
    rewrite Hread in Hb. cbn [fst snd] in Hb.
    change (Py.remove_commas "." +:+ frac) with (String "." frac) in Hb.
    cbv beta iota in Hb.
    destruct (read_digits_bounds _ Hfrac 0%N O) as (k & Hk & Hr & _ & HF).
    destruct (Py.read_digits 0 0 frac) as [[F nf] r2]. cbn [fst snd] in Hk, Hr, HF.
    subst r2 nf. cbv beta iota in Hb. cbn [Nat.add Py.read_exponent] in Hb.
    injection Hb as <-.
    destruct (fraction_below_one F k ltac:(lia)) as [H0 H1].
    assert (Hone : (Py.pow10 0 == 1)%Q) by reflexivity.
    rewrite Hone, Qmult_1_r, Hav. cbn [Nat.add]. split; lra.
Qed.

Lemma readers_tokens (payout_text run : string) :
  search_digits_commas payout_text = Some run ->
  all_chars is_amount_char run = true /\
  exists frac,
    all_chars Py.is_digit frac = true /\
    (search_decimal payout_text = Some run \/
     search_decimal payout_text = Some (run +:+ "." +:+ frac)).
Proof.
  intros Hrun.
  destruct (search_same_place payout_text) as [(_ & Hn & _) | (suffix & Hs & Hd)];
    [congruence|].
  rewrite Hs in Hrun. injection Hrun as <-. split; [apply span_fst_all|].
  destruct (match_decimal_at_shape suffix) as (frac & Hfrac & Htok).
  exists frac. split; [exact Hfrac|]. rewrite Hd. destruct Htok as [-> | ->]; tauto.
Qed.

(** X5.  On one and the same text the wager check reads the beginning of
    what the payout reader reads: the token of the payout reader is the
    run of digits and commas the wager check takes, alone or followed by
    a point and digits.  So when both parse, and the value [a] of the
    wager check is a whole number below [2 ^ 53], the value [b] of the
    payout reader satisfies [a <= b <= a + 1]. *)
Theorem wager_check_reads_integer_part (payout_text : string) (a b : Q)
    (Ha : slip_payout payout_text = Return (Some a))
    (Hb : _get_current_payout (Return (Some payout_text)) = Return b)
    (Hexact : (a < inject_Z exact_integers)%Q) :
  (exists run frac,
     search_digits_commas payout_text = Some run /\
     all_chars is_amount_char run = true /\ all_chars Py.is_digit frac = true /\
     (search_decimal payout_text = Some run \/
      search_decimal payout_text = Some (run +:+ "." +:+ frac))) /\
  (a <= b)%Q /\ (b <= a + 1)%Q.
Proof.
  split.
  - unfold slip_payout in Ha.
    destruct (Py.contains "payout" (Py.lower payout_text)); [|discriminate Ha].
    destruct (search_digits_commas payout_text) as [run|] eqn:Hrun; [|discriminate Ha].
    destruct (readers_tokens _ _ Hrun) as (Hchars & frac & Hfrac & Htok).
    now exists run, frac.
  - destruct (integer_part_in_rationals payout_text a b Ha Hb) as [Hle Hlt].
    split; [exact Hle | now apply Qlt_le_weak].
Qed.

(** A slip showing $25.50: the wager check reads 25, the payout reader
    25.5. *)
Lemma wager_check_reads_integer_part_witness :
  slip_payout "Potential payout: $25.50" = Return (Some 25%Q) /\
  search_decimal "Potential payout: $25.50" = Some "25.50" /\
  (exists b, _get_current_payout (Return (Some "Potential payout: $25.50")) = Return b /\
             (25 <= b)%Q /\ (b <= 25 + 1)%Q).
Proof.
  split; [reflexivity|]. split; [reflexivity|].
  eexists. split; [reflexivity|].
  exact (proj2 (wager_check_reads_integer_part "Potential payout: $25.50" 25%Q _
                  eq_refl eq_refl eq_refl)).
Defined.

(** ** The wager check, slip by slip *)

(** *** The payout label *)

Lemma is_prefix_app (p s : string) :
  Py.is_prefix p s = true <-> exists b, s = p +:+ b.
Proof.
  revert s. induction p as [|c p IH]; intros s.
  - split; [intros _; now exists s | reflexivity].
  - destruct s as [|d s]; cbn [Py.is_prefix].
    + split; [discriminate | intros (b & H); discriminate H].
    + rewrite andb_true_iff, IH. split.
      * intros (Hc & b & ->). apply Ascii.eqb_eq in Hc. subst d. now exists b.
      * intros (b & H). rewrite append_cons in H. injection H as -> ->.
        split; [apply Ascii.eqb_refl | now exists b].
Qed.

Lemma contains_app (p s : string) :
  Py.contains p s = true <-> exists a b, s = a +:+ p +:+ b.
Proof.
  induction s as [|c s IH].
  - cbn [Py.contains]. rewrite orb_false_r, is_prefix_app. split.
    + intros (b & H). now exists EmptyString, b.
    + intros (a & b & H). destruct a as [|d a]; [now exists b | discriminate H].
  - cbn [Py.contains]. rewrite orb_true_iff, is_prefix_app, IH. split.
    + intros [(b & H) | (a & b & H)].
      * now exists EmptyString, b.
      * exists (String c a), b. now rewrite append_cons, H.
    + intros (a & b & H). destruct a as [|d a].
      * left. now exists b.
      * right. rewrite append_cons in H. injection H as _ H. now exists a, b.
Qed.

Lemma lower_app (a b : string) : Py.lower (a +:+ b) = Py.lower a +:+ Py.lower b.
Proof.
  induction a as [|c a IH]; [reflexivity|].
  rewrite append_cons. cbn [Py.lower]. now rewrite append_cons, IH.
Qed.

Lemma lower_app_inv (x y t : string) :
  Py.lower t = x +:+ y ->
  exists t1 t2, t = t1 +:+ t2 /\ Py.lower t1 = x /\ Py.lower t2 = y.
Proof.
  revert t. induction x as [|c x IH]; intros t H.
  - now exists EmptyString, t.
  - destruct t as [|d t]; [discriminate H|].
    rewrite append_cons in H. cbn [Py.lower] in H. injection H as Hc H.
    destruct (IH t H) as (t1 & t2 & -> & H1 & H2).
    exists (String d t1), t2. cbn [Py.lower]. now rewrite Hc, H1, H2.
Qed.

Lemma any_case_lower (word lowercase : string) :
  Py.lower lowercase = lowercase -> any_case word lowercase -> Py.lower word = lowercase.
Proof.
  intros Hlow H. induction H as [|c word lowercase _ IH|c word lowercase Hc _ IH].
  - reflexivity.
  - cbn [Py.lower] in Hlow |- *. injection Hlow as Hc Hlow. now rewrite Hc, IH.
  - cbn [Py.lower] in Hlow |- *. injection Hlow as _ Hlow. rewrite (IH Hlow). f_equal.
    clear -Hc. destruct c as [[] [] [] [] [] [] [] []]; cbn in Hc;
      first [reflexivity | exfalso; lia].
Qed.

Lemma lower_any_case (word lowercase : string) :
  Py.lower word = lowercase -> any_case word lowercase.
Proof.
  revert lowercase. induction word as [|c word IH]; intros lowercase H.
  - cbn in H. subst lowercase. constructor.
  - cbn [Py.lower] in H. subst lowercase. specialize (IH _ eq_refl).
    destruct c as [[] [] [] [] [] [] [] []];
      match goal with
      | |- any_case (String ?C _) _ =>
          let d := eval vm_compute in (Py.lower_char C) in
          change (Py.lower_char C) with d;
          first [ exact (any_case_same C _ _ IH)
                | refine (any_case_upper d _ _ _ IH); cbn; lia ]
      end.
Qed.

Lemma mentions_contains (payout_text : string) :
  Py.contains "payout" (Py.lower payout_text) = true <-> mentions_payout payout_text.
Proof.
  rewrite contains_app. split.
  - intros (a & b & H).
    destruct (lower_app_inv _ _ _ H) as (t1 & t & -> & _ & Ht).
    destruct (lower_app_inv _ _ _ Ht) as (w & t2 & -> & Hw & _).
    exists t1, w, t2. split; [reflexivity | now apply lower_any_case].
  - intros (before & word & after & -> & Hw).
    exists (Py.lower before), (Py.lower after).
    now rewrite !lower_app, (any_case_lower _ _ eq_refl Hw).
Qed.

(** *** The first run of digits and commas *)

Lemma span_spec (p : ascii -> bool) (s : string) :
  s = fst (span p s) +:+ snd (span p s) /\
  all_chars p (fst (span p s)) = true /\ stops p (snd (span p s)) = true.
Proof.
  induction s as [|c s IH]; [now repeat split|].
  cbn [span]. destruct (p c) eqn:Hc.
  - destruct (span p s) as [run rest]. cbn [fst snd] in *.
    destruct IH as (Hs & Hrun & Hrest). rewrite append_cons, <- Hs.
    cbn [all_chars]. now rewrite Hc, Hrun.
  - cbn [fst snd stops all_chars]. now rewrite Hc.
Qed.

Lemma search_first_run (payout_text run : string) :
  search_digits_commas payout_text = Some run -> first_run payout_text run.
Proof.
  induction payout_text as [|c s IH]; [discriminate|].
  cbn [search_digits_commas]. destruct (is_amount_char c) eqn:Hc.
  - intros [= <-].
    destruct (span_spec is_amount_char (String c s)) as (Hs & Hrun & Hrest).
    exists EmptyString, (snd (span is_amount_char (String c s))).
    rewrite append_empty. split; [exact Hs|]. split; [|now repeat split].
    cbn [span]. rewrite Hc. now destruct (span is_amount_char s).
  - intros H. destruct (IH H) as (before & after & -> & Hne & Hb & Hr & Ha).
    exists (String c before), after. rewrite append_cons.
    split; [reflexivity|]. split; [exact Hne|]. split; [|now split].
    cbn [all_chars]. unfold not_amount_char at 1. now rewrite Hc, Hb.
Qed.

Lemma first_run_search (payout_text run : string) :
  first_run payout_text run -> search_digits_commas payout_text = Some run.
Proof.
  intros (before & after & -> & Hne & Hb & Hr & Ha).
  rewrite (search_digits_commas_skip _ _ Hb). now apply search_digits_commas_run.
Qed.

Lemma search_none (payout_text : string) :
  search_digits_commas payout_text = None <-> all_chars not_amount_char payout_text = true.
Proof.
  induction payout_text as [|c s IH]; [now split|].
  cbn [search_digits_commas all_chars]. unfold not_amount_char at 1.
  destruct (is_amount_char c); cbn [negb andb]; [split; discriminate | exact IH].
Qed.

(** *** The number read from a run *)

Lemma has_digit_commas (run : string) :
  all_chars is_amount_char run = true ->
  has_digit run = false -> Py.remove_commas run = EmptyString.
Proof.
  induction run as [|c run IH]; [reflexivity|].
  cbn [all_chars has_digit Py.remove_commas]. intros Hall Hd.
  apply andb_prop in Hall as [Hc Hall]. apply orb_false_elim in Hd as [Hnd Hd].
  unfold is_amount_char in Hc. rewrite Hnd in Hc. cbn [orb] in Hc. rewrite Hc.
  now apply IH.
Qed.

Lemma has_digit_kept (run : string) :
  all_chars is_amount_char run = true ->
  has_digit run = true -> Py.remove_commas run <> EmptyString.
Proof.
  induction run as [|c run IH]; [discriminate|].
  cbn [all_chars has_digit Py.remove_commas]. intros Hall Hd.
  apply andb_prop in Hall as [Hc Hall].
  destruct (Py.is_digit c) eqn:Hdc.
  - now rewrite (digit_not_comma _ Hdc).
  - unfold is_amount_char in Hc. rewrite Hdc in Hc. cbn [orb] in Hc, Hd. rewrite Hc.
    now apply IH.
Qed.

Lemma digits_number_commas (run : string) (acc : N) :
  all_chars is_amount_char run = true ->
  digits_number acc (Py.remove_commas run) = digits_number acc run.
Proof.
  revert acc. induction run as [|c run IH]; intros acc Hall; [reflexivity|].
  cbn [all_chars] in Hall. apply andb_prop in Hall as [Hc Hall].
  cbn [Py.remove_commas digits_number].
  destruct (Py.is_digit c) eqn:Hdc.
  - rewrite (digit_not_comma _ Hdc). cbn [digits_number]. rewrite Hdc. now apply IH.
  - unfold is_amount_char in Hc. rewrite Hdc in Hc. cbn [orb] in Hc. rewrite Hc.
    now apply IH.
Qed.

Lemma read_digits_number (ds : string) (acc : N) (count : nat) :
  all_chars Py.is_digit ds = true ->
  Py.read_digits acc count ds = (digits_number acc ds, (count + String.length ds)%nat,
                                 EmptyString).
Proof.
  revert acc count. induction ds as [|c ds IH]; intros acc count Hds.
  - cbn. now rewrite Nat.add_0_r.
  - cbn [all_chars] in Hds. apply andb_prop in Hds as [Hc Hds].
    cbn [Py.read_digits digits_number String.length]. rewrite Hc, (IH _ _ Hds).
    f_equal. f_equal. lia.
Qed.

(** [float] on a text of digits: the whole number they denote. *)
Lemma float_digits (ds : string) :
  all_chars Py.is_digit ds = true -> ds <> EmptyString ->
  exists q, Py.float ds = Return q /\ (q == inject_Z (Z.of_N (digits_number 0 ds)))%Q.
Proof.
  intros Hds Hne. unfold Py.float, Py.parse_float.
  rewrite float_strip_no_space
    by (revert Hds; apply all_chars_impl; intros c Hc;
        apply decimal_char_not_space, digit_is_decimal, Hc).
  destruct ds as [|c r]; [congruence|].
  pose proof Hds as Hds'. cbn [all_chars] in Hds'. apply andb_prop in Hds' as [Hc _].
  rewrite (decimal_char_no_sign _ _ (digit_is_decimal _ Hc)).
  unfold Py.read_unsigned. rewrite (read_digits_number _ 0%N O Hds).
  cbn [String.length Nat.add Py.read_digits Py.read_exponent].
  eexists. split; [reflexivity|].
  unfold Py.pow10. cbn. unfold Qeq. cbn. lia.
Qed.

Lemma run_float (run : string) :
  all_chars is_amount_char run = true ->
  (has_digit run = false -> Py.float (Py.remove_commas run) = Raise (Py.float_error "")) /\
  (has_digit run = true ->
     exists q, Py.float (Py.remove_commas run) = Return q /\
               (q == inject_Z (Z.of_N (digits_number 0 run)))%Q).
Proof.
  intros Hall. split; intros Hd.
  - now rewrite (has_digit_commas _ Hall Hd).
  - destruct (float_digits _ (remove_commas_amount _ Hall) (has_digit_kept _ Hall Hd))
      as (q & Hq & Heq).
    exists q. split; [exact Hq|]. now rewrite <- (digits_number_commas _ _ Hall).
Qed.

Lemma blocking_whole_number (q : Q) (n : N) :
  (q == inject_Z (Z.of_N n))%Q -> is_blocking (Some q) = true <-> (2 <= n)%N.
Proof.
  intros Heq. cbn [is_blocking]. rewrite Qlt_bool_iff, Heq.
  unfold blocking_threshold, Qlt, inject_Z. cbn [Qnum Qden]. lia.
Qed.

(** *** One slip *)

Lemma first_run_chars (payout_text run : string) :
  first_run payout_text run -> all_chars is_amount_char run = true.
Proof. now intros (before & after & _ & _ & _ & Hr & _). Qed.

Lemma passes_slip (payout_text : string) :
  passes payout_text ->
  exists o, slip_payout payout_text = Return o /\ is_blocking o = false.
Proof.
  intros H. unfold slip_payout.
  destruct (Py.contains "payout" (Py.lower payout_text)) eqn:Hlabel;
    [|now exists None].
  destruct H as [Hno | [Hnone | (run & Hrun & Hd & Hle)]].
  - exfalso. apply Hno. now apply mentions_contains.
  - apply search_none in Hnone. rewrite Hnone. now exists None.
  - rewrite (first_run_search _ _ Hrun).
    destruct (run_float run (first_run_chars _ _ Hrun)) as (_ & Hfloat).
    destruct (Hfloat Hd) as (q & Hq & Heq). rewrite Hq, bind_Return.
    exists (Some q). split; [reflexivity|].
    apply not_true_iff_false. rewrite (blocking_whole_number q _ Heq). lia.
Qed.

Lemma blocks_slip (payout_text : string) :
  blocks payout_text ->
  exists o, slip_payout payout_text = Return o /\ is_blocking o = true.
Proof.
  intros (Hlabel & run & Hrun & Hd & Hge). unfold slip_payout.
  apply mentions_contains in Hlabel. rewrite Hlabel, (first_run_search _ _ Hrun).
  destruct (run_float run (first_run_chars _ _ Hrun)) as (_ & Hfloat).
  destruct (Hfloat Hd) as (q & Hq & Heq). rewrite Hq, bind_Return.
  exists (Some q). split; [reflexivity|]. now apply (blocking_whole_number q _ Heq).
Qed.

Lemma unreadable_slip (payout_text : string) :
  unreadable payout_text -> slip_payout payout_text = Raise (Py.float_error "").
Proof.
  intros (Hlabel & run & Hrun & Hd). unfold slip_payout.
  apply mentions_contains in Hlabel. rewrite Hlabel, (first_run_search _ _ Hrun).
  destruct (run_float run (first_run_chars _ _ Hrun)) as (Hfloat & _).
  now rewrite (Hfloat Hd).
Qed.

(** Every slip passes, blocks, or cannot be read. *)
Lemma slip_verdict (payout_text : string) :
  passes payout_text \/ blocks payout_text \/ unreadable payout_text.
Proof.
  destruct (Py.contains "payout" (Py.lower payout_text)) eqn:Hlabel.
  - apply mentions_contains in Hlabel.
    destruct (search_digits_commas payout_text) as [run|] eqn:Hsearch.
    + apply search_first_run in Hsearch.
      destruct (has_digit run) eqn:Hd.
      * destruct (N.le_gt_cases (digits_number 0 run) 1) as [Hle | Hgt].
        -- left. right. right. now exists run.
        -- right. left. split; [exact Hlabel|]. exists run. repeat split; [assumption..|lia].
      * right. right. split; [exact Hlabel|]. now exists run.
    + left. right. left. now apply search_none.
  - left. left. intros H. apply mentions_contains in H. congruence.
Qed.

(** *** The slips in page order *)

Lemma scan_passes (front rest : list string) :
  Forall passes front ->
  scan_slips (map Return (front ++ rest)) = scan_slips (map Return rest).
Proof.
  induction 1 as [|t front Ht _ IH]; [reflexivity|].
  cbn [app map scan_slips]. rewrite bind_Return.
  destruct (passes_slip t Ht) as (o & -> & Hb). now rewrite bind_Return, Hb.
Qed.

Lemma scan_all_pass (texts : list string) :
  Forall passes texts -> scan_slips (map Return texts) = Return false.
Proof.
  intros H. rewrite <- (app_nil_r texts). now rewrite (scan_passes _ [] H).
Qed.

Lemma scan_reaches_blocking (texts : list string) :
  reaches blocks texts -> scan_slips (map Return texts) = Return true.
Proof.
  intros (front & t & back & -> & Hfront & Ht). rewrite (scan_passes _ _ Hfront).
  cbn [map scan_slips]. rewrite bind_Return.
  destruct (blocks_slip t Ht) as (o & -> & Hb). now rewrite bind_Return, Hb.
Qed.

Lemma scan_reaches_unreadable (texts : list string) :
  reaches unreadable texts -> scan_slips (map Return texts) = Raise (Py.float_error "").
Proof.
  intros (front & t & back & -> & Hfront & Ht). rewrite (scan_passes _ _ Hfront).
  cbn [map scan_slips]. rewrite bind_Return. now rewrite (unreadable_slip t Ht).
Qed.

Lemma scan_verdict (texts : list string) :
  Forall passes texts \/ reaches blocks texts \/ reaches unreadable texts.
Proof.
  induction texts as [|t texts IH]; [now left|].
  destruct (slip_verdict t) as [Ht | [Ht | Ht]].
  - destruct IH as [H | [(front & u & back & -> & Hf & Hu) | (front & u & back & -> & Hf & Hu)]].
    + left. now constructor.
    + right. left. exists (t :: front), u, back.
      split; [reflexivity|]. split; [now constructor | exact Hu].
    + right. right. exists (t :: front), u, back.
      split; [reflexivity|]. split; [now constructor | exact Hu].
  - right. left. exists [], t, texts. split; [reflexivity|]. now split.
  - right. right. exists [], t, texts. split; [reflexivity|]. now split.
Qed.

Lemma check_open_wagers_all_fail (views : nat -> activity_view) (e0 e1 e2 : exn) :
  _check_wagers (views 0%nat) = Raise e0 ->
  _check_wagers (views 1%nat) = Raise e1 ->
  _check_wagers (views 2%nat) = Raise e2 ->
  check_open_wagers views =
    mk_run (Raise e2) 3%nat
      [Called 0; Warned "check_open_wagers" 1 3 e0 2; Slept 2;
       Called 1; Warned "check_open_wagers" 2 3 e1 4; Slept 4; Called 2].
Proof.
  intros H0 H1 H2. unfold check_open_wagers, _retry_operation.
  change (range default_max_retries) with [0; 1; 2].
  rewrite (retry_loop_failure _ _ _ _ _ _ _ _ 1%nat e0) by now rewrite H0.
  change (0 =? default_max_retries - 1) with false. cbv iota.
  rewrite (retry_loop_failure _ _ _ _ _ _ _ _ 2%nat e1) by now rewrite H1.
  change (1 =? default_max_retries - 1) with false. cbv iota.
  rewrite (retry_loop_failure _ _ _ _ _ _ _ _ 3%nat e2) by now rewrite H2.
  reflexivity.
Qed.

(** C7, as amended.  [check_open_wagers] goes through the slips of a
    readable page in page order and stops at the first that does not
    pass.  A slip blocks when its text holds the word payout, in any case,
    and the digits of the first run of digits and commas in the text
    denote 2 or more; it cannot be read when it holds the word and its
    first run holds commas only; it passes otherwise.
    - Every page is of one of three kinds: a blocking slip is reached,
      every slip passes, or an unreadable slip is reached.
    - When a blocking slip is reached on the first attempt the result is
      True, and when every slip passes, so also when there is no slip, it
      is False, after that single attempt.
    - On a page that shows the same slips at every attempt the result is
      True exactly when a blocking slip is reached, False exactly when
      every slip passes, and the [ValueError] of [float('')], raised after
      three attempts, exactly when an unreadable slip is reached. *)
Theorem check_open_wagers_blocking (views : nat -> activity_view) (texts : list string)
    (Hfirst : shows (views O) texts) :
  let r := check_open_wagers views in
  (reaches blocks texts \/ Forall passes texts \/ reaches unreadable texts) /\
  (reaches blocks texts -> r = mk_run (Return (Some true)) 1%nat [Called 0]) /\
  (Forall passes texts -> r = mk_run (Return (Some false)) 1%nat [Called 0]) /\
  ((forall i, (i < 3)%nat -> shows (views i) texts) ->
     (run_result r = Return (Some true) <-> reaches blocks texts) /\
     (run_result r = Return (Some false) <-> Forall passes texts) /\
     (run_result r = Raise (Py.float_error "") <-> reaches unreadable texts) /\
     (reaches unreadable texts ->
        calls (run_log r) = 3%nat /\ sleeps (run_log r) = [2; 4])).
Proof.
  intros r.
  assert (Hreturn : forall b, scan_slips (map Return texts) = Return b ->
            r = mk_run (Return (Some b)) 1%nat [Called 0]).
  { intros b Hb. apply check_open_wagers_first.
    now rewrite (_check_wagers_shows _ _ Hfirst). }
  pose proof (scan_all_pass texts) as Hpass.
  pose proof (scan_reaches_blocking texts) as Hblock.
  pose proof (scan_reaches_unreadable texts) as Hbad.
  assert (Hcases : reaches blocks texts \/ Forall passes texts \/ reaches unreadable texts)
    by (destruct (scan_verdict texts) as [H | [H | H]]; tauto).
  split; [exact Hcases|].
  split; [intros H; exact (Hreturn true (Hblock H))|].
  split; [intros H; exact (Hreturn false (Hpass H))|].
  intros Hshows.
  assert (Hraise : forall e, scan_slips (map Return texts) = Raise e ->
            run_result r = Raise e /\ calls (run_log r) = 3%nat /\
            sleeps (run_log r) = [2; 4]).
  { intros e He. unfold r.
    assert (Hscan : forall i, (i < 3)%nat -> _check_wagers (views i) = Raise e).
    { intros i Hi. now rewrite (_check_wagers_shows _ _ (Hshows i Hi)). }
    rewrite (check_open_wagers_all_fail views e e e) by (apply Hscan; lia).
    now repeat split. }
  split; [|split; [|split]].
  - split; [|intros H; now rewrite (Hreturn true (Hblock H))].
    intros Hr. destruct Hcases as [H | [H | H]]; [exact H | exfalso..].
    + rewrite (Hreturn false (Hpass H)) in Hr. discriminate Hr.
    + destruct (Hraise _ (Hbad H)) as (Hr' & _). rewrite Hr' in Hr. discriminate Hr.
  - split; [|intros H; now rewrite (Hreturn false (Hpass H))].
    intros Hr. destruct Hcases as [H | [H | H]]; [exfalso | exact H | exfalso].
    + rewrite (Hreturn true (Hblock H)) in Hr. discriminate Hr.
    + destruct (Hraise _ (Hbad H)) as (Hr' & _). rewrite Hr' in Hr. discriminate Hr.
  - split; [|intros H; now apply (Hraise _ (Hbad H))].
    intros Hr. destruct Hcases as [H | [H | H]]; [exfalso.. | exact H].
    + rewrite (Hreturn true (Hblock H)) in Hr. discriminate Hr.
    + rewrite (Hreturn false (Hpass H)) in Hr. discriminate Hr.
  - intros H. now apply (Hraise _ (Hbad H)).
Qed.

Lemma any_case_refl (word : string) : any_case word word.
Proof. induction word; now constructor. Qed.

(** The slips of the test-suite: a payout of $50.00 blocks, a payout of
    $1.50 does not, and neither does an empty activity view.  The label
    decides: a slip that shows $50.00 without the word passes, and the
    word counts in capitals too.  A slip with the word and a comma in
    front of any digit makes the check raise. *)
Lemma check_open_wagers_blocking_witness :
  run_result (check_open_wagers (fun _ => ok_view ["Potential payout: $50.00"]))
    = Return (Some true) /\
  run_result (check_open_wagers (fun _ => ok_view ["Potential payout: $1.50"]))
    = Return (Some false) /\
  run_result (check_open_wagers (fun _ => ok_view [])) = Return (Some false) /\
  run_result (check_open_wagers (fun _ => ok_view ["Balance: $50.00"; "PAYOUT $2.00"]))
    = Return (Some true) /\
  run_result (check_open_wagers (fun _ => ok_view ["Balance: $50.00"]))
    = Return (Some false) /\
  run_result (check_open_wagers (fun _ => ok_view ["Payout, pending"]))
    = Raise (ValueError "could not convert string to float: ''").
Proof.
  assert (Hlabel : mentions_payout "Potential payout: $50.00").
  { exists "Potential ", "payout", ": $50.00". split; [reflexivity | apply any_case_refl]. }
  assert (Hlabel' : mentions_payout "Potential payout: $1.50").
  { exists "Potential ", "payout", ": $1.50". split; [reflexivity | apply any_case_refl]. }
  assert (Hcapitals : mentions_payout "PAYOUT $2.00").
  { exists "", "PAYOUT", " $2.00". split; [reflexivity|].
    apply (any_case_upper "p"); [cbn; lia|]. apply (any_case_upper "a"); [cbn; lia|].
    apply (any_case_upper "y"); [cbn; lia|]. apply (any_case_upper "o"); [cbn; lia|].
    apply (any_case_upper "u"); [cbn; lia|]. apply (any_case_upper "t"); [cbn; lia|].
    constructor. }
  assert (Hbalance : passes "Balance: $50.00").
  { left. intros H. apply mentions_contains in H. discriminate H. }
  split; [|split; [|split; [|split; [|split]]]].
  - destruct (check_open_wagers_blocking (fun _ => ok_view ["Potential payout: $50.00"])
                ["Potential payout: $50.00"] (ok_view_shows _)) as (_ & Htrue & _).
    rewrite Htrue; [reflexivity|].
    exists [], "Potential payout: $50.00", []. split; [reflexivity|]. split; [constructor|].
    split; [exact Hlabel|]. exists "50". split; [|split; [reflexivity | vm_compute; discriminate]].
    exists "Potential payout: $", ".00". now repeat split.
  - destruct (check_open_wagers_blocking (fun _ => ok_view ["Potential payout: $1.50"])
                ["Potential payout: $1.50"] (ok_view_shows _)) as (_ & _ & Hfalse & _).
    rewrite Hfalse; [reflexivity|].
    constructor; [|constructor]. right. right.
    exists "1". split; [|split; [reflexivity | vm_compute; discriminate]].
    exists "Potential payout: $", ".50". now repeat split.
  - destruct (check_open_wagers_blocking (fun _ => ok_view []) [] (ok_view_shows _))
      as (_ & _ & Hfalse & _).
    rewrite Hfalse; [reflexivity | constructor].
  - destruct (check_open_wagers_blocking
                (fun _ => ok_view ["Balance: $50.00"; "PAYOUT $2.00"])
                ["Balance: $50.00"; "PAYOUT $2.00"] (ok_view_shows _)) as (_ & Htrue & _).
    rewrite Htrue; [reflexivity|].
    exists ["Balance: $50.00"], "PAYOUT $2.00", []. split; [reflexivity|].
    split; [now constructor|].
    split; [exact Hcapitals|]. exists "2". split; [|split; [reflexivity | vm_compute; discriminate]].
    exists "PAYOUT $", ".00". now repeat split.
  - destruct (check_open_wagers_blocking (fun _ => ok_view ["Balance: $50.00"])
                ["Balance: $50.00"] (ok_view_shows _)) as (_ & _ & Hfalse & _).
    rewrite Hfalse; [reflexivity | now constructor].
  - destruct (check_open_wagers_blocking (fun _ => ok_view ["Payout, pending"])
                ["Payout, pending"] (ok_view_shows _)) as (_ & _ & _ & Hstable).
    apply (Hstable (fun _ _ => ok_view_shows _)).
    exists [], "Payout, pending", []. split; [reflexivity|]. split; [constructor|].
    split.
    + exists "", "Payout", ", pending". split; [reflexivity|].
      apply (any_case_upper "p"); [cbn; lia|]. apply any_case_refl.
    + exists ",". split; [|reflexivity].
      exists "Payout", " pending". now repeat split.
Defined.

(** C7 as stated fails.  The slip that displays a payout of $50.00 after
    the words [1 pick] does not block, and the slip that displays a
    payout of $1.50 after a risk of $5.00 does: the first number of the
    text is read, not the amount after the label.  And a slip whose first
    run holds commas only makes the check raise, although a slip with a
    payout of $50.00 follows it. *)
Lemma first_number_of_slip_decides :
  (displays_payout "1 pick. Potential payout: $50.00" "50.00" /\
   (exists q, Py.float "50.00" = Return q /\ (blocking_threshold < q)%Q) /\
   run_result (check_open_wagers (fun _ => ok_view ["1 pick. Potential payout: $50.00"]))
   = Return (Some false)) /\
  (displays_payout "Risk $5.00 to win. Potential payout: $1.50" "1.50" /\
   (exists q, Py.float "1.50" = Return q /\ (q <= blocking_threshold)%Q) /\
   run_result (check_open_wagers
                 (fun _ => ok_view ["Risk $5.00 to win. Potential payout: $1.50"]))
   = Return (Some true)) /\
  (displays_payout "Potential payout: $50.00" "50.00" /\
   run_result (check_open_wagers
                 (fun _ => ok_view ["Payout, pending"; "Potential payout: $50.00"]))
   = Raise (ValueError "could not convert string to float: ''")).
Proof.
  split; [|split].
  - split; [now exists "1 pick. Potential "|].
    split; [eexists; split; [reflexivity | reflexivity] | reflexivity].
  - split; [now exists "Risk $5.00 to win. Potential "|].
    split; [eexists; split; [reflexivity | discriminate] | reflexivity].
  - split; [now exists "Potential " | reflexivity].
Qed.

(** ** Reading the balance *)

Lemma decorated_removed (s t : string) :
  decorated s t -> all_chars Py.is_digit s = true -> remove_money_marks t = s.
Proof.
  induction 1 as [|c s t _ IH|s t _ IH|s t _ IH]; intros Hs.
  - reflexivity.
  - cbn [all_chars] in Hs. apply andb_prop in Hs as [Hc Hs].
    cbn [remove_money_marks]. rewrite (digit_not_comma _ Hc).
    replace (Ascii.eqb c "$") with false
      by (clear -Hc; destruct c as [[] [] [] [] [] [] [] []];
          first [reflexivity | discriminate Hc]).
    cbn [orb]. now rewrite IH.
  - cbn [remove_money_marks]. now apply IH.
  - cbn [remove_money_marks]. now apply IH.
Qed.

Lemma decorated_no_space (s t : string) :
  decorated s t -> all_chars Py.is_digit s = true -> all_chars not_space t = true.
Proof.
  induction 1 as [|c s t _ IH|s t _ IH|s t _ IH]; intros Hs.
  - reflexivity.
  - cbn [all_chars] in Hs |- *. apply andb_prop in Hs as [Hc Hs].
    rewrite (decimal_char_not_space _ (digit_is_decimal _ Hc)). now apply IH.
  - cbn [all_chars]. now apply IH.
  - cbn [all_chars]. now apply IH.
Qed.

Lemma get_balance_first (views : nat -> account_view) (q : Q) :
  _get_balance (views O) = Return q ->
  get_balance views = mk_run (Return (Some q)) 1%nat [Called 0].
Proof.
  intros H. unfold get_balance, _retry_operation.
  change (range default_max_retries) with [0; 1; 2].
  now rewrite (retry_loop_success _ _ _ _ _ _ _ _ 1%nat q) by now rewrite H.
Qed.

(** X6.  Thousands separators and the currency sign do not matter to the
    balance: when the balance element shows the numeral of a whole number
    [n] below [2 ^ 53] with commas and dollar signs inserted anywhere,
    [get_balance] returns [n] after a single attempt.  (From [2 ^ 53] on
    not every whole number is a float, and [float] would round.) *)
Theorem balance_ignores_money_marks (views : nat -> account_view) (n : N)
    (balance_text : string)
    (Hexact : Z.of_N n < exact_integers)
    (Hview : views O = account_showing balance_text)
    (Htext : decorated (numeral n) balance_text) :
  exists q,
    get_balance views = mk_run (Return (Some q)) 1%nat [Called 0] /\
    (q == inject_Z (Z.of_N n))%Q.
Proof.
  destruct (float_numeral n) as (q & Hq & Heq).
  exists q. split; [|exact Heq].
  apply get_balance_first. rewrite Hview.
  unfold _get_balance, account_showing.
  cbn [nav_account load_account balance_element]. rewrite !bind_Return.
  pose proof (string_of_uint_digits (N.to_uint n)) as Hd. fold (numeral n) in Hd.
  rewrite (strip_no_space _ (decorated_no_space _ _ Htext Hd)).
  now rewrite (decorated_removed _ _ Htext Hd).
Qed.

Lemma balance_ignores_money_marks_witness :
  exists q,
    get_balance (fun _ => account_showing "$1,000") = mk_run (Return (Some q)) 1%nat [Called 0] /\
    (q == 1000)%Q.
Proof.
  apply (balance_ignores_money_marks (fun _ => account_showing "$1,000") 1000%N "$1,000"
           eq_refl eq_refl).
  change (numeral 1000) with "1000".
  apply decorated_dollar, decorated_keep, decorated_comma.
  repeat apply decorated_keep. apply decorated_nil.
Defined.

Lemma get_balance_all_fail (views : nat -> account_view) (e0 e1 e2 : exn) :
  _get_balance (views 0%nat) = Raise e0 ->
  _get_balance (views 1%nat) = Raise e1 ->
  _get_balance (views 2%nat) = Raise e2 ->
  get_balance views =
    mk_run (Raise e2) 3%nat
      [Called 0; Warned "get_balance" 1 3 e0 2; Slept 2;
       Called 1; Warned "get_balance" 2 3 e1 4; Slept 4; Called 2].
Proof.
  intros H0 H1 H2. unfold get_balance, _retry_operation.
  change (range default_max_retries) with [0; 1; 2].
  rewrite (retry_loop_failure _ _ _ _ _ _ _ _ 1%nat e0) by now rewrite H0.
  change (0 =? default_max_retries - 1) with false. cbv iota.
  rewrite (retry_loop_failure _ _ _ _ _ _ _ _ 2%nat e1) by now rewrite H1.
  change (1 =? default_max_retries - 1) with false. cbv iota.
  rewrite (retry_loop_failure _ _ _ _ _ _ _ _ 3%nat e2) by now rewrite H2.
  reflexivity.
Qed.

(** X7.  A balance that cannot be read is an error, never a default: when
    on each of the three attempts the page can be reached but holds no
    balance element, or the text left after removing commas and dollar
    signs is empty, [get_balance] raises after the third attempt, having
    slept 2 and then 4 seconds, and returns no value. *)
Theorem balance_unreadable_raises (views : nat -> account_view)
    (Hviews : forall i, (i < 3)%nat ->
       nav_account (views i) = Return tt /\ load_account (views i) = Return tt /\
       (balance_element (views i) = Return None \/
        exists balance_text,
          balance_element (views i) = Return (Some balance_text) /\
          remove_money_marks (Py.strip balance_text) = EmptyString)) :
  exists e,
    run_result (get_balance views) = Raise e /\
    (e = Exception "Balance element not found" \/
     e = ValueError "could not convert string to float: ''") /\
    calls (run_log (get_balance views)) = 3%nat /\
    sleeps (run_log (get_balance views)) = [2; 4].
Proof.
  assert (Hfail : forall i, (i < 3)%nat ->
            _get_balance (views i) = Raise (Exception "Balance element not found") \/
            _get_balance (views i) = Raise (ValueError "could not convert string to float: ''")).
  { intros i Hi. destruct (Hviews i Hi) as (Hn & Hl & [Hel | (t & Hel & Hempty)]);
      unfold _get_balance; rewrite Hn, Hl, Hel, !bind_Return.
    - now left.
    - right. now rewrite Hempty. }
  destruct (Hfail 0%nat ltac:(lia)) as [H0 | H0];
    destruct (Hfail 1%nat ltac:(lia)) as [H1 | H1];
    destruct (Hfail 2%nat ltac:(lia)) as [H2 | H2];
    rewrite (get_balance_all_fail views _ _ _ H0 H1 H2);
    eexists; (split; [reflexivity|]); (split; [auto|]); split; reflexivity.
Qed.

Lemma balance_unreadable_raises_witness :
  run_result (get_balance (fun _ => account_showing "$"))
    = Raise (ValueError "could not convert string to float: ''") /\
  calls (run_log (get_balance (fun _ => account_showing "$"))) = 3%nat.
Proof.
  destruct (balance_unreadable_raises (fun _ => account_showing "$"))
    as (e & Hr & _ & Hc & _).
  - intros i _. split; [reflexivity|]. split; [reflexivity|].
    right. exists "$". split; reflexivity.
  - split; [|exact Hc]. pose proof Hr as Hr'. vm_compute in Hr'.
    injection Hr' as <-. exact Hr.
Defined.

(** ** Runs of the driver *)

(** Case analysis on what the collaborators answered. *)
Ltac run_unfold :=
  unfold Main.run, Main.run_try, Main.run_except, Main.run_finally, Main.remove_screenshot,
    Main.collect_phase, Main.betting_phase, Main.automator_method,
    Main.notifier_send_bet_confirmation, Main.call, Main.throw, Main.set_screenshot_path,
    mbind, mret, Main.M_bind, Main.M_ret.

Ltac run_simpl :=
  cbn -[Qle_bool Qlt_bool Main.goal_balance Main.min_bet_threshold
        Main.min_payout_threshold Main.max_payout_threshold truthy].

Ltac run_cases :=
  run_simpl;
  repeat (match goal with
          | |- context [match ?x with Return _ => _ | Raise _ => _ end] =>
              is_var x; destruct x
          | |- context [if ?x then _ else _] => is_var x; destruct x
          | |- context [negb ?x] => is_var x; destruct x
          | |- context [Qle_bool ?a ?b] => destruct (Qle_bool a b) eqn:?
          | |- context [Qlt_bool ?a ?b] => destruct (Qlt_bool a b) eqn:?
          | |- context [truthy ?a] => destruct (truthy a) eqn:?
          | |- context [?f ?p] =>
              match type of (f p) with bool => is_var f; destruct (f p) eqn:? end
          end; run_simpl).

Lemma run_ends_with_cleanup (v : Main.cycle_view) :
  snd (Main.run v) = Return tt /\ ends_with_cleanup (Main.trace (fst (Main.run v))) = true.
Proof.
  destruct v as [login bal1 wagers rewards bal2 strategy shot bal3 slip eshot close fexists rm].
  run_unfold. run_cases; split; reflexivity.
Qed.

Lemma ends_with_cleanup_spec (tr : list Main.action) :
  ends_with_cleanup tr = true ->
  exists pre post,
    tr = pre ++ [Main.Close] ++ post /\
    List.filter is_close pre = [] /\ List.filter is_removal pre = [] /\
    (post = [] \/ exists p, post = [Main.RemoveFile p]).
Proof.
  induction tr as [|a tr IH]; [discriminate|].
  destruct a; cbn [ends_with_cleanup]; intros H;
    try (destruct (IH H) as (pre & post & -> & Hc & Hr & Hpost);
         eexists (_ :: pre), post;
         (split; [reflexivity|]); cbn [List.filter is_close is_removal];
         (split; [exact Hc|]); (split; [exact Hr | exact Hpost])).
  - exists [], tr. split; [reflexivity|]. split; [reflexivity|]. split; [reflexivity|].
    destruct tr as [|b tr]; [now left|].
    destruct b; try discriminate H. destruct tr; [|discriminate H].
    right. now eexists.
  - discriminate H.
Qed.

(** X8.  Cleanup always happens, once.  Whatever the collaborators
    answer, [run] returns normally, closes the session exactly once, does
    so after every other call on the collaborators, and afterwards removes
    at most one file. *)
Theorem run_always_cleans_up (v : Main.cycle_view) :
  snd (Main.run v) = Return tt /\
  exists pre post,
    Main.trace (fst (Main.run v)) = pre ++ [Main.Close] ++ post /\
    List.filter is_close pre = [] /\ List.filter is_removal pre = [] /\
    (post = [] \/ exists p, post = [Main.RemoveFile p]).
Proof.
  destruct (run_ends_with_cleanup v) as [Hr Hc].
  split; [exact Hr | now apply ends_with_cleanup_spec].
Qed.

(** X9.  How a failure is reported.  The trace of a run is the trace of
    its [try] block, then, exactly when that block raised an exception
    [e], an error screenshot followed by an error notification carrying
    [str(e)] and the path of that screenshot, then [Close] and at most one
    file removal.  A failing login or a failing first balance read makes
    the [try] block raise that very exception. *)
Theorem run_reports_errors (v : Main.cycle_view) :
  (exists post,
     Main.trace (fst (Main.run v))
       = Main.trace (fst (Main.run_try v initial_frame))
         ++ handler_actions v (snd (Main.run_try v initial_frame))
         ++ [Main.Close] ++ post /\
     (post = [] \/ exists p, post = [Main.RemoveFile p])) /\
  (forall e, Main.login_outcome v = Raise e ->
     Main.run_try v initial_frame
       = ({| Main.screenshot_path := None;
             Main.trace := [Main.StatusUpdate Main.BotStarted; Main.Login] |}, Raise e)) /\
  (forall e, Main.login_outcome v = Return tt -> Main.first_balance v = Raise e ->
     Main.run_try v initial_frame
       = ({| Main.screenshot_path := None;
             Main.trace := [Main.StatusUpdate Main.BotStarted; Main.Login;
                            Main.GetBalance] |}, Raise e)).
Proof.
  split; [|split].
  - unfold Main.run. fold initial_frame.
    destruct (Main.run_try v initial_frame) as [fr [u|e]]; cbn [fst snd handler_actions].
    + unfold Main.run_finally, Main.remove_screenshot, Main.call, mbind, Main.M_bind.
      cbn -[truthy app]. destruct (Main.close_outcome v); cbn -[truthy app].
      * destruct (Main.screenshot_path fr) as [p|]; cbn -[truthy app].
        -- destruct (truthy (Some p) && Main.file_exists v p); cbn -[truthy app];
             rewrite <- ?app_assoc; cbn [app];
             eexists; (split; [reflexivity|]); [right; now eexists | now left].
        -- eexists; split; [reflexivity | now left].
      * eexists; split; [reflexivity | now left].
    + unfold Main.run_except, Main.run_finally, Main.remove_screenshot, Main.call,
        Main.set_screenshot_path, mbind, Main.M_bind.
      cbn -[truthy app]. destruct (Main.close_outcome v); cbn -[truthy app].
      * destruct (truthy (Some (Main.error_screenshot v))
                  && Main.file_exists v (Main.error_screenshot v)); cbn -[truthy app];
          rewrite <- ?app_assoc; cbn [app];
          eexists; (split; [reflexivity|]); [right; now eexists | now left].
      * rewrite <- ?app_assoc. cbn [app]. eexists; split; [reflexivity | now left].
  - intros e H. unfold Main.run_try, Main.call, mbind, Main.M_bind, initial_frame.
    cbn. now rewrite H.
  - intros e Hl Hb. unfold Main.run_try, Main.call, mbind, Main.M_bind, initial_frame.
    cbn. rewrite Hl. cbn. now rewrite Hb.
Qed.

(** End-to-end scenario 4: the error screenshot is taken once, the
    notification carries the message of the exception and the path, and
    the session is closed. *)
Lemma run_reports_errors_witness :
  Main.trace (fst (Main.run scenario4))
  = [Main.StatusUpdate Main.BotStarted; Main.Login; Main.GetBalance;
     Main.TakeErrorScreenshot;
     Main.ErrorNotification "Test exception" "error_screenshot.png";
     Main.Close].
Proof.
  destruct (run_reports_errors scenario4) as ((post & Htrace & Hpost) & _ & Hbal).
  rewrite (Hbal (Exception "Test exception") eq_refl eq_refl) in Htrace.
  cbn [fst snd handler_actions Main.trace app exn_str Main.error_screenshot scenario4]
    in Htrace.
  rewrite Htrace. destruct Hpost as [-> | (p & ->)]; [reflexivity|].
  exfalso. vm_compute in Htrace. discriminate Htrace.
Defined.

Lemma Qle_bool_true (x y : Q) : (x <= y)%Q -> Qle_bool x y = true.
Proof. apply Qle_bool_iff. Qed.

Lemma Qle_bool_false (x y : Q) : (y < x)%Q -> Qle_bool x y = false.
Proof. apply Qle_bool_false_iff. Qed.

Lemma Qlt_bool_true (x y : Q) : (x < y)%Q -> Qlt_bool x y = true.
Proof. apply Qlt_bool_iff. Qed.

Lemma Qlt_bool_false (x y : Q) : (y <= x)%Q -> Qlt_bool x y = false.
Proof.
  intros H. apply not_true_iff_false. rewrite Qlt_bool_iff. now apply Qle_not_lt.
Qed.

(** X10.  Goal reached.  When the login succeeds and the first balance
    read is at least the goal of 10, the run sends the success
    notification with that balance, disables the workflow once, and closes
    the session; it checks no wagers, claims no rewards, builds no parlay
    and removes no file. *)
Theorem run_goal_reached (v : Main.cycle_view) (balance : Q)
    (Hlogin : Main.login_outcome v = Return tt)
    (Hbalance : Main.first_balance v = Return balance)
    (Hgoal : (Main.goal_balance <= balance)%Q) :
  Main.trace (fst (Main.run v))
  = [Main.StatusUpdate Main.BotStarted; Main.Login; Main.GetBalance;
     Main.SuccessNotification balance; Main.DisableWorkflow; Main.Close].
Proof.
  destruct v as [login bal1 wagers rewards bal2 strategy shot bal3 slip eshot close fexists rm].
  cbn [Main.login_outcome Main.first_balance] in Hlogin, Hbalance. subst login bal1.
  run_unfold. run_simpl. rewrite (Qle_bool_true _ _ Hgoal). run_simpl.
  now destruct close.
Qed.

Lemma run_goal_reached_witness :
  Main.trace (fst (Main.run (cycle 15 15 false false)))
  = [Main.StatusUpdate Main.BotStarted; Main.Login; Main.GetBalance;
     Main.SuccessNotification 15; Main.DisableWorkflow; Main.Close].
Proof.
  apply (run_goal_reached (cycle 15 15 false false) 15%Q eq_refl eq_refl).
  discriminate.
Defined.

(** X11.  An open wager stops the cycle.  When the balance is below the
    goal and the wager check reports a blocking wager, the run does
    nothing more than close the session: no reward is claimed, no parlay
    is built and, apart from the start message, nothing is sent. *)
Theorem run_blocked_by_open_wager (v : Main.cycle_view) (balance : Q)
    (Hlogin : Main.login_outcome v = Return tt)
    (Hbalance : Main.first_balance v = Return balance)
    (Hgoal : (balance < Main.goal_balance)%Q)
    (Hwagers : Main.open_wagers v = Return true) :
  Main.trace (fst (Main.run v))
  = [Main.StatusUpdate Main.BotStarted; Main.Login; Main.GetBalance;
     Main.CheckOpenWagers; Main.Close].
Proof.
  destruct v as [login bal1 wagers rewards bal2 strategy shot bal3 slip eshot close fexists rm].
  cbn [Main.login_outcome Main.first_balance Main.open_wagers] in Hlogin, Hbalance, Hwagers.
  subst login bal1 wagers.
  run_unfold. run_simpl. rewrite (Qle_bool_false _ _ Hgoal). run_simpl.
  rewrite !andb_false_r. run_simpl. now destruct close.
Qed.

Lemma run_blocked_by_open_wager_witness :
  Main.trace (fst (Main.run (cycle 5 5 true true)))
  = [Main.StatusUpdate Main.BotStarted; Main.Login; Main.GetBalance;
     Main.CheckOpenWagers; Main.Close].
Proof.
  apply (run_blocked_by_open_wager (cycle 5 5 true true) 5%Q eq_refl eq_refl);
    reflexivity.
Defined.

(** X12.  Rewards that do not suffice.  When the balance is below the bet
    threshold of 1.80, no wager blocks, the rewards are claimed and the
    balance read afterwards is still below 1.80, the run reports the
    insufficient balance and stops: rewards are claimed once, two status
    messages are sent, and no parlay is built. *)
Theorem run_insufficient_after_rewards (v : Main.cycle_view) (balance after_rewards : Q)
    (Hlogin : Main.login_outcome v = Return tt)
    (Hbalance : Main.first_balance v = Return balance)
    (Hlow : (balance < Main.min_bet_threshold)%Q)
    (Hwagers : Main.open_wagers v = Return false)
    (Hrewards : Main.rewards_outcome v = Return tt)
    (Hafter : Main.balance_after_rewards v = Return after_rewards)
    (Hstill : (after_rewards < Main.min_bet_threshold)%Q) :
  Main.trace (fst (Main.run v))
  = [Main.StatusUpdate Main.BotStarted; Main.Login; Main.GetBalance;
     Main.CheckOpenWagers; Main.ClaimRewards; Main.GetBalance;
     Main.StatusUpdate (Main.StillInsufficient after_rewards); Main.Close].
Proof.
  destruct v as [login bal1 wagers rewards bal2 strategy shot bal3 slip eshot close fexists rm].
  cbn [Main.login_outcome Main.first_balance Main.open_wagers Main.rewards_outcome
       Main.balance_after_rewards] in Hlogin, Hbalance, Hwagers, Hrewards, Hafter.
  subst login bal1 wagers rewards bal2.
  assert (Hg : Qle_bool Main.goal_balance balance = false).
  { apply Qle_bool_false. unfold Main.min_bet_threshold in Hlow.
    unfold Main.goal_balance. lra. }
  run_unfold. run_simpl. rewrite Hg. run_simpl.
  rewrite (Qlt_bool_true _ _ Hlow). run_simpl.
  rewrite (Qlt_bool_true _ _ Hstill). run_simpl. now destruct close.
Qed.

Lemma run_insufficient_after_rewards_witness :
  Main.trace (fst (Main.run (cycle 1 0.5 false false)))
  = [Main.StatusUpdate Main.BotStarted; Main.Login; Main.GetBalance;
     Main.CheckOpenWagers; Main.ClaimRewards; Main.GetBalance;
     Main.StatusUpdate (Main.StillInsufficient 0.5); Main.Close].
Proof.
  apply (run_insufficient_after_rewards (cycle 1 0.5 false false) 1%Q 0.5%Q
           eq_refl eq_refl); reflexivity.
Defined.

Lemma truthy_nonempty (p : string) : truthy (Some p) = true -> p <> "".
Proof. now destruct p. Qed.

Ltac trace_members :=
  repeat match goal with
         | H : In _ (_ :: _) |- _ => destruct H as [H | H]; [try discriminate H|]
         | H : In _ [] |- _ => destruct H
         | H : _ \/ _ |- _ => destruct H as [H | H]; [try discriminate H|]
         | H : False |- _ => destruct H
         end.

(** X13.  Which file a run removes.  A run removes a file only after an
    error: the path removed is the one the error screenshot returned, it
    is not empty, the file exists, and the error notification carried the
    same path.  In particular a run that ended without an error removes
    nothing, and the screenshot of the bet slip is never the reason for a
    removal. *)
Theorem run_removes_only_error_screenshot (v : Main.cycle_view) (p : string)
    (Hrm : In (Main.RemoveFile p) (Main.trace (fst (Main.run v)))) :
  p = Main.error_screenshot v /\ p <> "" /\ Main.file_exists v p = true /\
  In Main.TakeErrorScreenshot (Main.trace (fst (Main.run v))) /\
  exists e, In (Main.ErrorNotification e p) (Main.trace (fst (Main.run v))).
Proof.
  revert p Hrm.
  destruct v as [login bal1 wagers rewards bal2 strategy shot bal3 slip eshot close fexists rm].
  run_unfold. run_cases; cbn [fst Main.trace Main.error_screenshot Main.file_exists];
    intros p Hrm; trace_members;
    injection Hrm as <-;
    repeat match goal with
           | H : truthy (Some _) = true |- _ => apply truthy_nonempty in H
           end;
    (split; [reflexivity|]); (split; [assumption|]); (split; [assumption|]);
    (split; [cbn; tauto|]); eexists; cbn; eauto 20.
Qed.

Lemma run_removes_only_error_screenshot_witness :
  In (Main.RemoveFile "screenshots/error_20231201_120001.png")
     (Main.trace (fst (Main.run (cycle 5 5 false true)))) /\
  In Main.TakeErrorScreenshot (Main.trace (fst (Main.run (cycle 5 5 false true)))).
Proof.
  assert (Hrm : In (Main.RemoveFile "screenshots/error_20231201_120001.png")
                   (Main.trace (fst (Main.run (cycle 5 5 false true))))).
  { vm_compute. tauto. }
  split; [exact Hrm|].
  exact (proj1 (proj2 (proj2 (proj2
           (run_removes_only_error_screenshot (cycle 5 5 false true) _ Hrm))))).
Defined.


(** X14.  When the driver touches the sports page.  A parlay is built only
    with the payout band 50 to 100, only when the wager check returned
    False, only when the first balance was below the goal of 10, and only
    with a balance of at least 1.80: either the first balance, or, when
    that was below 1.80, the balance read after the rewards were claimed. *)
Theorem run_builds_parlay_only_when_allowed (v : Main.cycle_view) (lo hi : Q)
    (Hbuilt : In (Main.ExecuteStrategy lo hi) (Main.trace (fst (Main.run v)))) :
  lo = Main.min_payout_threshold /\ hi = Main.max_payout_threshold /\
  Main.login_outcome v = Return tt /\
  Main.open_wagers v = Return false /\
  exists balance,
    Main.first_balance v = Return balance /\
    Qle_bool Main.goal_balance balance = false /\
    (Qle_bool Main.min_bet_threshold balance = true \/
     Qlt_bool balance Main.min_bet_threshold = true /\
     Main.rewards_outcome v = Return tt /\
     exists after_rewards,
       Main.balance_after_rewards v = Return after_rewards /\
       Qle_bool Main.min_bet_threshold after_rewards = true).
Proof.
  revert lo hi Hbuilt.
  destruct v as [login bal1 wagers rewards bal2 strategy shot bal3 slip eshot close fexists rm].
  run_unfold. run_cases;
    cbn [fst Main.trace Main.login_outcome Main.open_wagers Main.first_balance
         Main.rewards_outcome Main.balance_after_rewards];
    intros lo hi Hbuilt; trace_members;
    injection Hbuilt as <- <-;
    repeat match goal with u : unit |- _ => destruct u end;
    (split; [reflexivity|]); (split; [reflexivity|]); (split; [reflexivity|]);
    (split; [reflexivity|]); eexists; (split; [reflexivity|]); (split; [assumption|]);
    first [ left; assumption
          | right; (split; [assumption|]); (split; [reflexivity|]);
            eexists; split; [reflexivity | assumption] ].
Qed.

Lemma run_builds_parlay_only_when_allowed_witness :
  In (Main.ExecuteStrategy Main.min_payout_threshold Main.max_payout_threshold)
     (Main.trace (fst (Main.run (cycle 1 5 false false)))) /\
  Main.open_wagers (cycle 1 5 false false) = Return false.
Proof.
  assert (Hb : In (Main.ExecuteStrategy Main.min_payout_threshold Main.max_payout_threshold)
                  (Main.trace (fst (Main.run (cycle 1 5 false false))))).
  { vm_compute. tauto. }
  split; [exact Hb|].
  exact (proj1 (proj2 (proj2 (proj2
           (run_builds_parlay_only_when_allowed (cycle 1 5 false false) _ _ Hb))))).
Defined.

(** X15.  When the driver claims rewards.  Rewards are claimed at most
    once in a run, and only when the login succeeded, the first balance
    was below the bet threshold of 1.80 and the wager check returned
    False. *)
Theorem run_claims_rewards_only_when_low (v : Main.cycle_view)
    (Hclaimed : In Main.ClaimRewards (Main.trace (fst (Main.run v)))) :
  length (List.filter is_claim_rewards (Main.trace (fst (Main.run v)))) = 1%nat /\
  Main.login_outcome v = Return tt /\
  Main.open_wagers v = Return false /\
  exists balance,
    Main.first_balance v = Return balance /\
    Qlt_bool balance Main.min_bet_threshold = true.
Proof.
  revert Hclaimed.
  destruct v as [login bal1 wagers rewards bal2 strategy shot bal3 slip eshot close fexists rm].
  run_unfold. run_cases;
    cbn [fst Main.trace Main.login_outcome Main.open_wagers Main.first_balance];
    intros Hclaimed; trace_members;
    repeat match goal with u : unit |- _ => destruct u end;
    (split; [reflexivity|]); (split; [reflexivity|]); (split; [reflexivity|]);
    eexists; (split; [reflexivity | assumption]).
Qed.

Lemma run_claims_rewards_only_when_low_witness :
  In Main.ClaimRewards (Main.trace (fst (Main.run (cycle 1 5 false false)))) /\
  length (List.filter is_claim_rewards (Main.trace (fst (Main.run (cycle 1 5 false false)))))
  = 1%nat.
Proof.
  assert (Hc : In Main.ClaimRewards (Main.trace (fst (Main.run (cycle 1 5 false false))))).
  { vm_compute. tauto. }
  split; [exact Hc|].
  exact (proj1 (run_claims_rewards_only_when_low (cycle 1 5 false false) Hc)).
Defined.


(** X16.  A built parlay always ends in the error handler.  Once the
    strategy has returned True and the bet-slip screenshot has been taken,
    the run never reads the payout of the slip: it reads the balance, and
    then either that read fails and its exception is reported, or the
    lookup of [get_current_payout] on the automator fails and that
    AttributeError is reported, with the path of the error screenshot. *)
Theorem run_parlay_ends_in_handler (v : Main.cycle_view)
    (Hshot : In Main.TakeBetScreenshot (Main.trace (fst (Main.run v)))) :
  Main.strategy_outcome v = Return true /\
  ~ In Main.ReadSlipPayout (Main.trace (fst (Main.run v))) /\
  exists message,
    In (Main.ErrorNotification message (Main.error_screenshot v))
       (Main.trace (fst (Main.run v))) /\
    match Main.final_balance v with
    | Return _ => message = "'FliffAutomator' object has no attribute 'get_current_payout'"
    | Raise e => message = exn_str e
    end.
Proof.
  revert Hshot.
  destruct v as [login bal1 wagers rewards bal2 strategy shot bal3 slip eshot close fexists rm].
  run_unfold. run_cases;
    cbn [fst Main.trace Main.strategy_outcome Main.final_balance Main.error_screenshot];
    intros Hshot; trace_members;
    (split; [reflexivity|]);
    (split; [intros Hread; trace_members|]);
    eexists; (split; [cbn; eauto 20 | reflexivity]).
Qed.

Lemma run_parlay_ends_in_handler_witness :
  In Main.TakeBetScreenshot (Main.trace (fst (Main.run Main.scenario3))) /\
  ~ In Main.ReadSlipPayout (Main.trace (fst (Main.run Main.scenario3))).
Proof.
  assert (Hs : In Main.TakeBetScreenshot (Main.trace (fst (Main.run Main.scenario3)))).
  { vm_compute. tauto. }
  split; [exact Hs|].
  exact (proj1 (proj2 (run_parlay_ends_in_handler Main.scenario3 Hs))).
Defined.


(** ** Login *)

(** X17.  The location prompt cannot fail a login.  Whether the prompt
    appears, times out, or the click on it raises, [_login] returns the
    same result, and apart from the click on the prompt it makes the same
    calls on the page. *)
Theorem login_ignores_location_prompt (self : Fliff.FliffAutomator)
    (env : gmap string string) (v : Fliff.login_view)
    (prompt : result bool) (click : result unit) :
  snd (Fliff._login self env (with_prompt v prompt click)) = snd (Fliff._login self env v) /\
  List.filter (fun c => negb (is_prompt_click c))
    (fst (Fliff._login self env (with_prompt v prompt click)))
  = List.filter (fun c => negb (is_prompt_click c)) (fst (Fliff._login self env v)).
Proof.
  unfold Fliff._login, Fliff.step.
  destruct v as [open setup goto button fill click0 prompt0 cclick load].
  cbn [Fliff.page_open Fliff.setup_outcome Fliff.goto_outcome Fliff.login_button
       Fliff.fill_outcome Fliff.click_login_outcome Fliff.location_continue
       Fliff.click_continue_outcome Fliff.load_outcome with_prompt].
  destruct open; [|destruct setup as [[]|?]; [|now split]];
    (destruct goto as [[]|?]; [|now split]);
    (destruct button as [[|]|?]; [|now split..]); cbn [negb];
    (destruct (fill Fliff.UsernameInput (getenv env "FLIFF_USERNAME")) as [[]|?];
       [|now split]);
    (destruct (fill Fliff.PasswordInput (getenv env "FLIFF_PASSWORD")) as [[]|?];
       [|now split]);
    (destruct click0 as [[]|?]; [|now split]);
    destruct load as [[]|?];
    destruct prompt as [[|]|?], prompt0 as [[|]|?]; now split.
Qed.

(** X18.  When a login succeeds.  [_login] returns normally exactly when
    the browser is open or can be set up, the login page loads, the login
    button is found, both fields accept what the environment gives for
    the user name and the password, the click on the button and the final
    wait succeed.  The location prompt is no part of the condition. *)
Theorem login_succeeds_iff (self : Fliff.FliffAutomator)
    (env : gmap string string) (v : Fliff.login_view) :
  snd (Fliff._login self env v) = Return tt <->
  (Fliff.page_open v = true \/ Fliff.setup_outcome v = Return tt) /\
  Fliff.goto_outcome v = Return tt /\
  Fliff.login_button v = Return true /\
  Fliff.fill_outcome v Fliff.UsernameInput (getenv env "FLIFF_USERNAME") = Return tt /\
  Fliff.fill_outcome v Fliff.PasswordInput (getenv env "FLIFF_PASSWORD") = Return tt /\
  Fliff.click_login_outcome v = Return tt /\
  Fliff.load_outcome v = Return tt.
Proof.
  unfold Fliff._login, Fliff.step.
  destruct v as [open setup goto button fill click prompt cclick load].
  cbn [Fliff.page_open Fliff.setup_outcome Fliff.goto_outcome Fliff.login_button
       Fliff.fill_outcome Fliff.click_login_outcome Fliff.location_continue
       Fliff.click_continue_outcome Fliff.load_outcome].
  destruct open; [|destruct setup as [[]|?]];
    (destruct goto as [[]|?]);
    (destruct button as [[|]|?]); cbn [negb];
    (destruct (fill Fliff.UsernameInput (getenv env "FLIFF_USERNAME")) as [[]|?]);
    (destruct (fill Fliff.PasswordInput (getenv env "FLIFF_PASSWORD")) as [[]|?]);
    (destruct click as [[]|?]);
    destruct load as [[]|?];
    cbn [snd];
    (split; [intros H; try discriminate H; repeat split; auto
            | intros (H0 & H1 & H2 & H3 & H4 & H5 & H6);
              try discriminate; try reflexivity;
              destruct H0 as [H0|H0]; discriminate H0]).
Qed.

(** X19.  What is typed, and when.  [_login] fills a field only after the
    login page has loaded and the login button has been found, and what it
    types into the field is what the environment gives for that field's
    variable at that moment, also when the variable is not set. *)
Theorem login_types_environment_values (self : Fliff.FliffAutomator)
    (env : gmap string string) (v : Fliff.login_view)
    (target : Fliff.field) (value : option string)
    (Hfill : In (Fliff.Fill target value) (fst (Fliff._login self env v))) :
  Fliff.goto_outcome v = Return tt /\
  Fliff.login_button v = Return true /\
  value = getenv env (credential_key target).
Proof.
  revert Hfill. unfold Fliff._login, Fliff.step.
  destruct v as [open setup goto button fill click prompt cclick load].
  cbn [Fliff.page_open Fliff.setup_outcome Fliff.goto_outcome Fliff.login_button
       Fliff.fill_outcome Fliff.click_login_outcome Fliff.location_continue
       Fliff.click_continue_outcome Fliff.load_outcome].
  destruct open; [|destruct setup as [[]|?]];
    (destruct goto as [[]|?]);
    (destruct button as [[|]|?]); cbn [negb];
    (destruct (fill Fliff.UsernameInput (getenv env "FLIFF_USERNAME")) as [[]|?]);
    (destruct (fill Fliff.PasswordInput (getenv env "FLIFF_PASSWORD")) as [[]|?]);
    (destruct click as [[]|?]);
    destruct load as [[]|?];
    destruct prompt as [[|]|?];
    cbn [fst app]; intros Hfill; trace_members;
    injection Hfill as <- <-; repeat split.
Qed.

Lemma login_types_environment_values_witness :
  In (Fliff.Fill Fliff.UsernameInput None)
     (fst (Fliff._login default_automator ∅ (login_page true (Return false)))) /\
  Fliff.login_button (login_page true (Return false)) = Return true.
Proof.
  assert (H : In (Fliff.Fill Fliff.UsernameInput None)
                 (fst (Fliff._login default_automator ∅ (login_page true (Return false))))).
  { vm_compute. tauto. }
  split; [exact H|].
  exact (proj1 (proj2 (login_types_environment_values _ _ _ _ _ H))).
Defined.


(** ** Discovery of candidates *)

Lemma scan_proposals_acc (g : game_view) (ps : list proposal_view) (acc : list candidate) :
  fst (scan_proposals g ps acc) = acc ++ fst (scan_proposals g ps []).
Proof.
  revert acc. induction ps as [|p ps IH]; intros acc; cbn [scan_proposals fst].
  - now rewrite app_nil_r.
  - destruct (odds_text ← Py.strip <$> odds_label p; _convert_odds_to_decimal odds_text)
      as [d|e]; cbn [fst]; [|now rewrite app_nil_r].
    destruct (in_safe_range d).
    + rewrite (IH (acc ++ _)), (IH ([] ++ _)). cbn [app]. now rewrite <- app_assoc.
    + apply IH.
Qed.

Lemma scan_games_acc (gs : list game_view) (acc : list candidate) :
  scan_games gs acc = acc ++ scan_games gs [].
Proof.
  revert acc. induction gs as [|g gs IH]; intros acc; cbn [scan_games].
  - now rewrite app_nil_r.
  - destruct (proposals g) as [ps|e]; [|apply IH].
    rewrite (IH (fst (scan_proposals g ps acc))), (IH (fst (scan_proposals g ps []))).
    rewrite (scan_proposals_acc g ps acc). now rewrite app_assoc.
Qed.

Lemma scan_games_app (gs1 gs2 : list game_view) :
  scan_games (gs1 ++ gs2) [] = scan_games gs1 [] ++ scan_games gs2 [].
Proof.
  induction gs1 as [|g gs1 IH]; [reflexivity|].
  cbn [app scan_games]. destruct (proposals g) as [ps|e]; [|exact IH].
  rewrite (scan_games_acc (gs1 ++ gs2)), (scan_games_acc gs1), IH.
  now rewrite app_assoc.
Qed.

Lemma scan_proposals_sound (g : game_view) (ps : list proposal_view) (c : candidate) :
  In c (fst (scan_proposals g ps [])) ->
  game c = g /\ In (element c) ps /\
  exists label,
    odds_label (element c) = Return label /\
    _convert_odds_to_decimal (Py.strip label) = Return (odds c) /\
    in_safe_range (odds c) = true.
Proof.
  induction ps as [|p ps IH]; cbn [scan_proposals fst]; [intros []|].
  destruct (odds_label p) as [label|e] eqn:Hlabel; cbn [fmap result_fmap];
    rewrite ?bind_Return, ?bind_Raise; [|intros []].
  destruct (_convert_odds_to_decimal (Py.strip label)) as [d|e] eqn:Hd; [|intros []].
  destruct (in_safe_range d) eqn:Hsafe.
  - rewrite scan_proposals_acc. cbn [app]. intros [<- | Hin].
    + cbn [game element odds]. split; [reflexivity|]. split; [now left|].
      exists label. now rewrite Hlabel.
    + destruct (IH Hin) as (Hg & Hel & Hrest). split; [exact Hg|]. split; [now right | exact Hrest].
  - intros Hin. destruct (IH Hin) as (Hg & Hel & Hrest).
    split; [exact Hg|]. split; [now right | exact Hrest].
Qed.

(** X20.  Every candidate was really read off the page.  Each entry of
    [safe_games] is an unlocked cell of one of the listed games, the odds
    recorded for it are the conversion of the cell's label, and they lie
    between -250 and 200. *)
Theorem scan_games_sound (gs : list game_view) (c : candidate)
    (Hin : In c (scan_games gs [])) :
  discovered gs c.
Proof.
  revert Hin. induction gs as [|g gs IH]; cbn [scan_games]; [intros []|].
  assert (Hlater : In c (scan_games gs []) -> discovered (g :: gs) c).
  { intros Hin. destruct (IH Hin) as (Hg & Hrest). split; [now right | exact Hrest]. }
  destruct (proposals g) as [ps|e] eqn:Hps; [|exact Hlater].
  rewrite scan_games_acc. intros Hin. apply in_app_or in Hin as [Hin | Hin]; [|now apply Hlater].
  destruct (scan_proposals_sound g ps c Hin) as (Hg & Hel & label & Hl & Hd & Hs).
  split; [left; now symmetry|].
  exists ps, label. rewrite Hg. now repeat split.
Qed.

Lemma scan_games_sound_witness :
  discovered three_legs
    {| element := cell "+150" "Potential payout: $2.50"; odds := 2.50%Q;
       game := {| proposals := Return [cell "+150" "Potential payout: $2.50";
                                       cell "-110" "Potential payout: $75.50"] |} |}.
Proof.
  apply (scan_games_sound three_legs). vm_compute. tauto.
Defined.

Lemma scan_proposals_stops (g : game_view) (ps rest : list proposal_view)
    (bad : proposal_view) (e : exn) (acc : list candidate) :
  (odds_text ← Py.strip <$> odds_label bad; _convert_odds_to_decimal odds_text) = Raise e ->
  fst (scan_proposals g (ps ++ bad :: rest) acc) = fst (scan_proposals g ps acc).
Proof.
  intros Hbad. revert acc. induction ps as [|p ps IH]; intros acc; cbn [app scan_proposals].
  - now rewrite Hbad.
  - destruct (odds_text ← Py.strip <$> odds_label p; _convert_odds_to_decimal odds_text)
      as [d|e']; [apply IH | reflexivity].
Qed.

(** X21.  A failure stays inside its game.  The candidates found are the
    candidates of each game, one game after the other: a game whose cells
    cannot be listed contributes nothing, and a game in which a label
    cannot be read or converted contributes the cells accepted before that
    label; neither takes anything away from the games before or after. *)
Theorem scan_games_isolates_failures (before after : list game_view) (g : game_view) :
  scan_games (before ++ g :: after) []
  = scan_games before [] ++ scan_games [g] [] ++ scan_games after [] /\
  (forall e, proposals g = Raise e -> scan_games [g] [] = []) /\
  (forall ps bad rest e,
     proposals g = Return (ps ++ bad :: rest) ->
     (odds_text ← Py.strip <$> odds_label bad; _convert_odds_to_decimal odds_text) = Raise e ->
     scan_games [g] [] = fst (scan_proposals g ps [])).
Proof.
  split; [|split].
  - rewrite scan_games_app. f_equal. exact (scan_games_app [g] after).
  - intros e H. cbn [scan_games]. now rewrite H.
  - intros ps bad rest e H Hbad. cbn [scan_games]. rewrite H.
    now apply scan_proposals_stops with (e := e).
Qed.


Lemma scan_games_isolates_failures_witness :
  scan_games ([ {| proposals := Return [cell "+150" "Potential payout: $2.50"] |} ]
              ++ unreadable_game
              :: [ {| proposals := Return [cell "+100" "Potential payout: $151.00"] |} ]) []
  = scan_games [ {| proposals := Return [cell "+150" "Potential payout: $2.50"] |} ] []
    ++ scan_games [ {| proposals := Return [cell "+100" "Potential payout: $151.00"] |} ] [].
Proof.
  destruct (scan_games_isolates_failures
              [ {| proposals := Return [cell "+150" "Potential payout: $2.50"] |} ]
              [ {| proposals := Return [cell "+100" "Potential payout: $151.00"] |} ]
              unreadable_game) as (Happ & Hnone & _).
  rewrite Happ, (Hnone _ eq_refl). reflexivity.
Defined.


(** ** The search for the workflow *)

Lemma find_workflow_first (path : string) (before after : list GitHub.json)
    (r : result (option GitHub.json)) (w : GitHub.json) :
  Forall (other_path path) before ->
  GitHub.find_workflow path [w] = r ->
  (r = Return None -> False) ->
  GitHub.find_workflow path (before ++ w :: after) = r.
Proof.
  intros Hbefore Hw Hr. induction Hbefore as [|b before (p & Hp & Hs) _ IH]; cbn [app].
  - cbn [GitHub.find_workflow] in *.
    destruct (GitHub.py_get w "path" GitHub.JNull) as [p|e]; rewrite ?bind_Return, ?bind_Raise in *;
      [|exact Hw].
    destruct (GitHub.json_is_str p path); [exact Hw | now contradiction Hr].
  - cbn [GitHub.find_workflow]. now rewrite Hp, bind_Return, Hs.
Qed.

(** X22.  Only the first match counts, and a malformed entry before it
    hides it.  The search stops at the first listed workflow whose path is
    the target path: what is listed after it is never looked at.  An
    entry before it that is no object makes the search raise, so that
    [disable_workflow] returns False and sends no disable request, even
    though the workflow is listed further on. *)
Theorem first_match_or_malformed (m : GitHub.GitHubAPIManager) (api : GitHub.api_view)
    (before after : list GitHub.json) (w : GitHub.json)
    (Hlisting : GitHubFacts.listing_ok m api (before ++ w :: after))
    (Hbefore : Forall (other_path (GitHub.workflow_path m)) before) :
  (GitHubFacts.has_path (GitHub.workflow_path m) w ->
     GitHub.find_workflow (GitHub.workflow_path m) (before ++ w :: after) = Return (Some w) /\
     (GitHub.disable_workflow m api = Return true <-> GitHubFacts.disable_ok m api w)) /\
  (raises (GitHub.py_get w "path" GitHub.JNull) = true ->
     raises (GitHub.find_workflow (GitHub.workflow_path m) (before ++ w :: after)) = true /\
     GitHub.disable_workflow m api = Return false).
Proof.
  destruct Hlisting as (resp & body & ws & Hget & Hst & Hbody & Hws & Hit).
  split.
  - intros (p & Hp & Hs).
    assert (Hfind : GitHub.find_workflow (GitHub.workflow_path m) (before ++ w :: after)
                    = Return (Some w)).
    { apply find_workflow_first; [exact Hbefore | | discriminate].
      cbn [GitHub.find_workflow]. now rewrite Hp, bind_Return, Hs. }
    split; [exact Hfind|].
    unfold GitHub.disable_workflow, GitHub.disable_workflow_body.
    rewrite Hget, bind_Return, Hst, bind_Return, Hbody, bind_Return, Hws, bind_Return,
      Hit, bind_Return, Hfind, bind_Return.
    split.
    + intros H.
      destruct (GitHub.py_getitem w "id") as [wid|e] eqn:Hid;
        [rewrite bind_Return in H | discriminate H].
      destruct (GitHub.put_disable api (GitHub.github_repository m) wid) as [resp2|e] eqn:Hput;
        [rewrite bind_Return in H | discriminate H].
      destruct (GitHub.raise_for_status resp2) as [u|e] eqn:Hst2; [|discriminate H].
      apply result_unit_tt in Hst2. now exists wid, resp2.
    + intros (wid & resp2 & Hid & Hput & Hst2).
      now rewrite Hid, bind_Return, Hput, bind_Return, Hst2.
  - intros Hbad.
    destruct (GitHub.py_get w "path" GitHub.JNull) as [p|e] eqn:Hp; [discriminate Hbad|].
    assert (Hfind : GitHub.find_workflow (GitHub.workflow_path m) (before ++ w :: after)
                    = Raise e).
    { apply find_workflow_first; [exact Hbefore | | discriminate].
      cbn [GitHub.find_workflow]. now rewrite Hp. }
    split; [now rewrite Hfind|].
    unfold GitHub.disable_workflow, GitHub.disable_workflow_body.
    now rewrite Hget, bind_Return, Hst, bind_Return, Hbody, bind_Return, Hws, bind_Return,
      Hit, bind_Return, Hfind.
Qed.

(** A listing whose first entry is a string: the workflow listed after it
    is not disabled. *)
Lemma first_match_or_malformed_witness :
  GitHub.disable_workflow GitHubFacts.test_manager
    (GitHubFacts.api_with [GitHubFacts.other_workflow; GitHub.JStr "main.yml";
                           GitHubFacts.main_workflow]
       (Return (GitHubFacts.ok_response GitHub.JNull))) = Return false.
Proof.
  refine (proj2 (proj2 (first_match_or_malformed GitHubFacts.test_manager _
                   [GitHubFacts.other_workflow] [GitHubFacts.main_workflow]
                   (GitHub.JStr "main.yml") _ _) eq_refl)).
  - eexists _, _, _. repeat split; reflexivity.
  - constructor; [|constructor]. eexists. split; reflexivity.
Defined.


(** ** Notifications *)

(** X23.  What a bet confirmation delivers.  The text goes out first; the
    photo of the bet slip is sent only after the text was delivered, and
    only when the file exists.  The value returned is True exactly when
    both arrived: a confirmation whose text was delivered but whose
    screenshot is missing or refused is reported as failed. *)
Theorem bet_confirmation_delivery (ch : Telegram.channel_view)
    (wager_amount potential_payout : Q) (screenshot_path : string) :
  Telegram.send_bet_confirmation ch wager_amount potential_payout screenshot_path
  = ((if text_delivered ch
      then [Telegram.BetPlacedText wager_amount potential_payout] else [])
     ++ (if text_delivered ch && photo_delivered ch
         then [Telegram.Photo screenshot_path "Bet slip confirmation"] else []),
     text_delivered ch && photo_delivered ch).
Proof.
  unfold Telegram.send_bet_confirmation, Telegram.send_message, Telegram.send_photo,
    text_delivered, photo_delivered.
  destruct ch as [[u|e] [|] [u'|e']]; reflexivity.
Qed.

(** X24.  Success and error notifications with an optional screenshot.
    The text goes out first.  A photo is attempted only when a non-empty
    path was given and the text was delivered.  With no path, or with the
    empty path that a failed screenshot leaves, the value returned is
    whether the text was delivered; with a path it is whether both
    arrived. *)
Theorem notification_optional_screenshot (ch : Telegram.channel_view)
    (screenshot_path : option string) :
  (forall error_message,
     Notices.send_error_notification ch error_message screenshot_path
     = ((if text_delivered ch then [inl (Notices.ErrorText error_message)] else [])
        ++ (if truthy screenshot_path && text_delivered ch && photo_delivered ch
            then [inr (Telegram.Photo (default "" screenshot_path) "Error screenshot")]
            else []),
        text_delivered ch && (negb (truthy screenshot_path) || photo_delivered ch))) /\
  (forall balance,
     Notices.send_success_notification ch balance screenshot_path
     = ((if text_delivered ch then [inl (Notices.SuccessText balance)] else [])
        ++ (if truthy screenshot_path && text_delivered ch && photo_delivered ch
            then [inr (Telegram.Photo (default "" screenshot_path) "Final balance screenshot")]
            else []),
        text_delivered ch && (negb (truthy screenshot_path) || photo_delivered ch))) /\
  (forall message,
     Notices.send_status_update ch message
     = (if text_delivered ch then [inl (Notices.StatusText message)] else [],
        text_delivered ch)).
Proof.
  unfold Notices.send_error_notification, Notices.send_success_notification,
    Notices.send_status_update, Notices.with_screenshot, Notices.send_message,
    Notices.send_photo, Telegram.send_photo, text_delivered, photo_delivered.
  destruct ch as [[u|e] [|] [u'|e']]; destruct screenshot_path as [[|c s]|];
    repeat split; reflexivity.
Qed.


(** ** Construction *)

Lemma truthy_set_to (env : gmap string string) (key : string) :
  truthy (getenv env key) = true -> set_to env key (default "" (getenv env key)).
Proof.
  unfold getenv, set_to. destruct (env !! key) as [[|c s]|]; try discriminate.
  intros _. now split.
Qed.

(** X25.  What a constructed orchestrator holds.  When the construction
    succeeds, the automator is the one built from the environment, each of
    the four required variables was set to a non-empty text, the
    components hold exactly these texts, the workflow file is [main.yml],
    and the messaging client accepted the bot token.  A required variable
    that is set to the empty text counts as missing: the construction
    raises. *)
Theorem orchestrator_construction (Bot : string -> result unit) (env : gmap string string) :
  (forall o, Main.__init__ Bot env = Return o ->
     Fliff.__init__ env = Return (Main.automator o) /\
     set_to env "GITHUB_TOKEN" (GitHub.github_token (Main.github_manager o)) /\
     set_to env "GITHUB_REPOSITORY" (GitHub.github_repository (Main.github_manager o)) /\
     GitHub.workflow_filename (Main.github_manager o) = "main.yml" /\
     set_to env "TELEGRAM_BOT_TOKEN" (Telegram.bot_token (Main.telegram_notifier o)) /\
     set_to env "TELEGRAM_CHAT_ID" (Telegram.chat_id (Main.telegram_notifier o)) /\
     Bot (Telegram.bot_token (Main.telegram_notifier o)) = Return tt) /\
  (forall key, In key required_keys -> truthy (getenv env key) = false ->
     raises (Main.__init__ Bot env) = true).
Proof.
  assert (Hok : forall o, Main.__init__ Bot env = Return o ->
     Fliff.__init__ env = Return (Main.automator o) /\
     set_to env "GITHUB_TOKEN" (GitHub.github_token (Main.github_manager o)) /\
     set_to env "GITHUB_REPOSITORY" (GitHub.github_repository (Main.github_manager o)) /\
     GitHub.workflow_filename (Main.github_manager o) = "main.yml" /\
     set_to env "TELEGRAM_BOT_TOKEN" (Telegram.bot_token (Main.telegram_notifier o)) /\
     set_to env "TELEGRAM_CHAT_ID" (Telegram.chat_id (Main.telegram_notifier o)) /\
     Bot (Telegram.bot_token (Main.telegram_notifier o)) = Return tt).
  { intros o H. unfold Main.__init__ in H.
    destruct (Fliff.__init__ env) as [a|e]; [rewrite bind_Return in H | discriminate H].
    unfold GitHub.__init__ in H.
    destruct (truthy (getenv env "GITHUB_TOKEN")) eqn:Hgt; cbn [negb] in H; [|discriminate H].
    destruct (truthy (getenv env "GITHUB_REPOSITORY")) eqn:Hgr; cbn [negb] in H;
      [|discriminate H].
    rewrite bind_Return in H. unfold Telegram.__init__ in H.
    destruct (truthy (getenv env "TELEGRAM_BOT_TOKEN")) eqn:Htt; cbn [negb] in H;
      [|discriminate H].
    destruct (truthy (getenv env "TELEGRAM_CHAT_ID")) eqn:Htc; cbn [negb] in H;
      [|discriminate H].
    destruct (Bot (default "" (getenv env "TELEGRAM_BOT_TOKEN"))) as [u|e] eqn:Hbot;
      [rewrite !bind_Return in H | discriminate H].
    apply result_unit_tt in Hbot. injection H as <-.
    cbn [Main.automator Main.github_manager Main.telegram_notifier GitHub.github_token
         GitHub.github_repository GitHub.workflow_filename Telegram.bot_token Telegram.chat_id].
    repeat split; try (now apply truthy_set_to); try exact Hbot;
      now apply truthy_set_to. }
  split; [exact Hok|].
  intros key Hkey Hfalse.
  destruct (Main.__init__ Bot env) as [o|e] eqn:Hinit; [|reflexivity].
  exfalso. destruct (Hok o eq_refl) as (_ & (H1 & N1) & (H2 & N2) & _ & (H3 & N3) & (H4 & N4) & _).
  unfold getenv in Hfalse.
  destruct Hkey as [<- | [<- | [<- | [<- | []]]]].
  - rewrite H1 in Hfalse. destruct (GitHub.github_token _); [now apply N1 | discriminate].
  - rewrite H2 in Hfalse. destruct (GitHub.github_repository _); [now apply N2 | discriminate].
  - rewrite H3 in Hfalse. destruct (Telegram.bot_token _); [now apply N3 | discriminate].
  - rewrite H4 in Hfalse. destruct (Telegram.chat_id _); [now apply N4 | discriminate].
Qed.

(** An environment in which the repository is set to the empty text. *)
Lemma orchestrator_construction_witness :
  raises (Main.__init__ any_bot (<["GITHUB_REPOSITORY" := ""]> GitHubFacts.test_env)) = true.
Proof.
  apply (orchestrator_construction any_bot
           (<["GITHUB_REPOSITORY" := ""]> GitHubFacts.test_env)) with (key := "GITHUB_REPOSITORY").
  - cbn. tauto.
  - reflexivity.
Defined.

(** X26.  The location of the browser.  With neither variable set the
    automator is built at latitude 40.7128 and longitude -74.0060.  A
    variable that is set is converted with [float]: when the conversion of
    either raises, the automator is not built and no orchestrator is,
    whatever the other variables hold. *)
Theorem geolocation_configuration (Bot : string -> result unit) (env : gmap string string) :
  (env !! "GEOLOCATION_LATITUDE" = None -> env !! "GEOLOCATION_LONGITUDE" = None ->
     exists self, Fliff.__init__ env = Return self /\
       Fliff.base_url self = "https://fliff.com" /\
       (Fliff.latitude self == 40.7128)%Q /\ (Fliff.longitude self == -74.0060)%Q) /\
  (forall key text e,
     key = "GEOLOCATION_LATITUDE" \/ key = "GEOLOCATION_LONGITUDE" ->
     env !! key = Some text -> Py.float text = Raise e ->
     raises (Fliff.__init__ env) = true /\ raises (Main.__init__ Bot env) = true).
Proof.
  split.
  - intros Hlat Hlon. unfold Fliff.__init__, getenv_default. rewrite Hlat, Hlon.
    eexists. split; [vm_compute; reflexivity|]. cbn. repeat split; reflexivity.
  - intros key text e Hkey Hset Hfloat.
    assert (Hf : raises (Fliff.__init__ env) = true).
    { unfold Fliff.__init__, getenv_default.
      destruct Hkey as [-> | ->]; rewrite Hset, ?Hfloat; [reflexivity|].
      match goal with |- context [Py.float ?x ≫= _] => destruct (Py.float x) end;
        [discriminate Hfloat || reflexivity | reflexivity]. }
    split; [exact Hf|]. unfold Main.__init__.
    destruct (Fliff.__init__ env); [discriminate Hf | reflexivity].
Qed.

Lemma geolocation_configuration_witness :
  raises (Main.__init__ any_bot (<["GEOLOCATION_LONGITUDE" := "74W"]> GitHubFacts.test_env))
  = true.
Proof.
  refine (proj2 (proj2 (geolocation_configuration any_bot
            (<["GEOLOCATION_LONGITUDE" := "74W"]> GitHubFacts.test_env))
            "GEOLOCATION_LONGITUDE" "74W" _ (or_intror eq_refl) eq_refl eq_refl)).
Defined.


(** ** Placing the bet *)

Lemma int_bounds (x : Q) :
  (0 <= x)%Q ->
  0 <= Bet.int x /\ (inject_Z (Bet.int x) <= x)%Q /\ (x < inject_Z (Bet.int x) + 1)%Q.
Proof.
  destruct x as [num den]. unfold Qle, Bet.int. cbn [Qnum Qden]. intros H.
  assert (Hnum : 0 <= num) by lia.
  rewrite Z.quot_div_nonneg by lia.
  pose proof (Z.mul_div_le num (Z.pos den) ltac:(lia)) as Hle.
  pose proof (Z.mul_succ_div_gt num (Z.pos den) ltac:(lia)) as Hgt.
  split; [apply Z.div_pos; lia|]. split.
  - unfold Qle, inject_Z. cbn [Qnum Qden]. lia.
  - rewrite <- (inject_Z_plus _ 1). unfold Qlt, inject_Z. cbn [Qnum Qden]. lia.
Qed.

(** X27.  The cents of a wager are dropped.  For an amount that is not
    negative, whatever [_place_bet] types into the wager field is the
    decimal numeral of a whole number [n] with [n <= wager_amount < n + 1],
    and it reads back as [n]: 1.80 is typed as 1, and an amount below 1 as
    0. *)
Theorem place_bet_types_whole_units (v : Bet.bet_view) (wager_amount : Q) (text : string)
    (Hamount : (0 <= wager_amount)%Q)
    (Hfill : In (Bet.FillWager text) (fst (Bet._place_bet v wager_amount))) :
  exists n : N,
    text = numeral n /\
    (inject_Z (Z.of_N n) <= wager_amount)%Q /\ (wager_amount < inject_Z (Z.of_N n) + 1)%Q /\
    exists q, Py.float text = Return q /\ (q == inject_Z (Z.of_N n))%Q.
Proof.
  destruct (int_bounds wager_amount Hamount) as (Hpos & Hle & Hlt).
  assert (Htext : text = Bet.str (Bet.int wager_amount)).
  { revert Hfill. unfold Bet._place_bet, Bet.take_bet_screenshot, Bet.step.
    destruct v as [ts slip shot input cinput fill submit csubmit conf].
    cbn [Bet.timestamp Bet.bet_slip_element Bet.screenshot_outcome Bet.wager_input
         Bet.click_input Bet.fill_outcome Bet.submit_button Bet.click_submit
         Bet.confirmation].
    destruct slip as [[|]|?]; [destruct shot as [[]|?]| |];
      (destruct input as [[|]|?]); cbn [negb];
      (destruct cinput as [[]|?]);
      (destruct (fill (Bet.str (Bet.int wager_amount))) as [[]|?]);
      (destruct submit as [[|]|?]); cbn [negb];
      (destruct csubmit as [[]|?]);
      (destruct conf as [[]|?]);
      cbn [fst app]; intros Hfill; trace_members; now injection Hfill as <-. }
  exists (Z.to_N (Bet.int wager_amount)).
  rewrite Z2N.id by exact Hpos.
  assert (Hstr : Bet.str (Bet.int wager_amount) = numeral (Z.to_N (Bet.int wager_amount))).
  { unfold Bet.str. now replace (Bet.int wager_amount <? 0) with false by lia. }
  split; [now rewrite Htext|]. split; [exact Hle|]. split; [exact Hlt|].
  rewrite Htext, Hstr.
  destruct (float_numeral (Z.to_N (Bet.int wager_amount))) as (q & Hq & Heq).
  exists q. split; [exact Hq|]. now rewrite Z2N.id in Heq by exact Hpos.
Qed.

Lemma place_bet_types_whole_units_witness :
  exists n : N,
    "1" = numeral n /\ (inject_Z (Z.of_N n) <= 1.80)%Q /\ (1.80 < inject_Z (Z.of_N n) + 1)%Q.
Proof.
  destruct (place_bet_types_whole_units (bet_page (Return tt)) 1.80%Q "1")
    as (n & Hn & Hle & Hlt & _).
  - discriminate.
  - vm_compute. tauto.
  - exists n. now repeat split.
Defined.


Lemma place_bet_submits (v : Bet.bet_view) (wager_amount : Q) :
  submits v wager_amount ->
  submissions (fst (Bet._place_bet v wager_amount)) = 1%nat /\
  snd (Bet._place_bet v wager_amount)
  = match Bet.confirmation v with Return _ => Return true | Raise e => Raise e end.
Proof.
  intros (Hin & Hcin & Hfill & Hsub & Hcsub).
  unfold Bet._place_bet, Bet.take_bet_screenshot, Bet.step.
  rewrite Hin, Hcin, Hfill, Hsub, Hcsub. cbn [negb].
  destruct (Bet.bet_slip_element v) as [[|]|?]; [destruct (Bet.screenshot_outcome v)| |];
    destruct (Bet.confirmation v); split; reflexivity.
Qed.

Lemma attempt_submits (views : nat -> Bet.bet_view) (wager_amount : Q)
    (i : nat) (page : list Bet.page_call) :
  submits (views i) wager_amount ->
  exists page',
    Bet.attempt views wager_amount (i, page)
    = ((S i, page'),
       match Bet.confirmation (views i) with Return _ => Return true | Raise e => Raise e end) /\
    submissions page' = S (submissions page).
Proof.
  intros H. destruct (place_bet_submits _ _ H) as [Hn Hout].
  unfold Bet.attempt. cbn [fst snd].
  destruct (Bet._place_bet (views i) wager_amount) as [log out]. cbn [fst snd] in Hn, Hout.
  exists (page ++ log). split; [now rewrite Hout|].
  unfold submissions in *. rewrite List.filter_app, length_app. lia.
Qed.

(** X28.  A bet whose confirmation does not show is submitted again.
    When every attempt gets as far as the click on the submit button, then
    each attempt whose wait for the confirmation raises is followed, after
    a wait of 2 and then 4 seconds, by an attempt that clicks submit
    again: if the confirmation shows on attempt [k + 1], [place_bet]
    returns True after [k + 1] submissions; if it does not show on any of
    the three attempts, [place_bet] raises after three submissions. *)
Theorem place_bet_resubmits (views : nat -> Bet.bet_view) (wager_amount : Q)
    (Hsubmits : forall i, (i < 3)%nat -> submits (views i) wager_amount) :
  (forall k, (k < 3)%nat ->
     (forall j, (j < k)%nat -> raises (Bet.confirmation (views j)) = true) ->
     raises (Bet.confirmation (views k)) = false ->
     let r := Bet.place_bet views wager_amount in
     run_result r = Return (Some true) /\
     submissions (snd (run_world r)) = S k /\
     sleeps (run_log r) = backoff default_delay k) /\
  ((forall j, (j < 3)%nat -> raises (Bet.confirmation (views j)) = true) ->
     let r := Bet.place_bet views wager_amount in
     raises (run_result r) = true /\
     submissions (snd (run_world r)) = 3%nat /\
     sleeps (run_log r) = [2; 4]).
Proof.
  destruct (attempt_submits views wager_amount 0 [] (Hsubmits 0%nat ltac:(lia)))
    as (p1 & E0 & N1).
  destruct (attempt_submits views wager_amount 1 p1 (Hsubmits 1%nat ltac:(lia)))
    as (p2 & E1 & N2).
  destruct (attempt_submits views wager_amount 2 p2 (Hsubmits 2%nat ltac:(lia)))
    as (p3 & E2 & N3).
  change (submissions []) with 0%nat in N1.
  unfold Bet.place_bet, _retry_operation.
  change (range default_max_retries) with [0; 1; 2].
  split.
  - intros k Hk Hfail Hok.
    destruct k as [|[|[|k]]]; [| | |lia].
    + destruct (Bet.confirmation (views 0%nat)) as [u|e]; [|discriminate Hok].
      rewrite (retry_loop_success _ _ _ _ _ _ _ _ _ _ E0). cbn [run_result run_world run_log snd].
      split; [reflexivity|]. split; [now rewrite ?N3, ?N2, ?N1 | reflexivity].
    + pose proof (Hfail 0%nat ltac:(lia)) as F0.
      destruct (Bet.confirmation (views 0%nat)) as [u|e0]; [discriminate F0|].
      destruct (Bet.confirmation (views 1%nat)) as [u|e]; [|discriminate Hok].
      rewrite (retry_loop_failure _ _ _ _ _ _ _ _ _ _ E0).
      change (0 =? default_max_retries - 1) with false. cbv iota.
      rewrite (retry_loop_success _ _ _ _ _ _ _ _ _ _ E1). cbn [run_result run_world run_log snd].
      split; [reflexivity|]. split; [now rewrite ?N3, ?N2, ?N1 | reflexivity].
    + pose proof (Hfail 0%nat ltac:(lia)) as F0. pose proof (Hfail 1%nat ltac:(lia)) as F1.
      destruct (Bet.confirmation (views 0%nat)) as [u|e0]; [discriminate F0|].
      destruct (Bet.confirmation (views 1%nat)) as [u|e1]; [discriminate F1|].
      destruct (Bet.confirmation (views 2%nat)) as [u|e]; [|discriminate Hok].
      rewrite (retry_loop_failure _ _ _ _ _ _ _ _ _ _ E0).
      change (0 =? default_max_retries - 1) with false. cbv iota.
      rewrite (retry_loop_failure _ _ _ _ _ _ _ _ _ _ E1).
      change (1 =? default_max_retries - 1) with false. cbv iota.
      rewrite (retry_loop_success _ _ _ _ _ _ _ _ _ _ E2). cbn [run_result run_world run_log snd].
      split; [reflexivity|]. split; [now rewrite ?N3, ?N2, ?N1 | reflexivity].
  - intros Hfail.
    pose proof (Hfail 0%nat ltac:(lia)) as F0. pose proof (Hfail 1%nat ltac:(lia)) as F1.
    pose proof (Hfail 2%nat ltac:(lia)) as F2.
    destruct (Bet.confirmation (views 0%nat)) as [u|e0]; [discriminate F0|].
    destruct (Bet.confirmation (views 1%nat)) as [u|e1]; [discriminate F1|].
    destruct (Bet.confirmation (views 2%nat)) as [u|e2]; [discriminate F2|].
    rewrite (retry_loop_failure _ _ _ _ _ _ _ _ _ _ E0).
    change (0 =? default_max_retries - 1) with false. cbv iota.
    rewrite (retry_loop_failure _ _ _ _ _ _ _ _ _ _ E1).
    change (1 =? default_max_retries - 1) with false. cbv iota.
    rewrite (retry_loop_failure _ _ _ _ _ _ _ _ _ _ E2).
    change (2 =? default_max_retries - 1) with true. cbv iota.
    cbn [run_result run_world run_log snd].
      split; [reflexivity|]. split; [now rewrite ?N3, ?N2, ?N1 | reflexivity].
Qed.

(** The confirmation times out twice and shows on the third attempt: the
    bet has been submitted three times. *)
Lemma place_bet_resubmits_witness :
  run_result (Bet.place_bet slow_confirmation 5) = Return (Some true) /\
  submissions (snd (run_world (Bet.place_bet slow_confirmation 5))) = 3%nat /\
  sleeps (run_log (Bet.place_bet slow_confirmation 5)) = [2; 4].
Proof.
  assert (Hs : forall i, (i < 3)%nat -> submits (slow_confirmation i) 5).
  { intros i _. now repeat split. }
  exact (proj1 (place_bet_resubmits slow_confirmation 5 Hs) 2%nat
           ltac:(lia)
           (fun j Hj => match j as j0 return (j0 < 2)%nat -> raises (Bet.confirmation (slow_confirmation j0)) = true with
                        | 0%nat | 1%nat => fun _ => eq_refl
                        | S (S j') => fun H => ltac:(lia)
                        end Hj)
           eq_refl).
Defined.


(** ** Claiming rewards *)

Lemma claim_buttons_clicks (buttons : list Rewards.button_view) (index count : nat) :
  (exists later, claimable_from index buttons
                 = clicked (fst (Rewards.claim_buttons buttons index count)) ++ later) /\
  (forall n, snd (Rewards.claim_buttons buttons index count) = Return n ->
     clicked (fst (Rewards.claim_buttons buttons index count)) = claimable_from index buttons /\
     n = (count + length (claimable_from index buttons))%nat /\
     paused (fst (Rewards.claim_buttons buttons index count))
     = Z.of_nat (length (claimable_from index buttons))).
Proof.
  revert index count. induction buttons as [|b rest IH]; intros index count.
  - cbn. split; [now exists [] | intros n [= <-]; repeat split; lia].
  - cbn [Rewards.claim_buttons claimable_from]. unfold claimable.
    destruct (Rewards.label b) as [text|e].
    + destruct (Py.contains "claim" (Py.lower text)).
      * destruct (Rewards.click_outcome b) as [u|e].
        -- destruct (IH (S index) (S count)) as [(later & Hpre) Hall].
           destruct (Rewards.claim_buttons rest (S index) (S count)) as [log out].
           cbn [fst snd] in *. split.
           ++ exists later.
              change (clicked (Rewards.ClickReward index :: Rewards.Sleep 1 :: log))
                with (index :: clicked log). now rewrite Hpre.
           ++ intros n Hn. destruct (Hall n Hn) as (Hc & Hcount & Hp).
              change (clicked (Rewards.ClickReward index :: Rewards.Sleep 1 :: log))
                with (index :: clicked log).
              split; [now rewrite Hc|]. split; [cbn [length]; lia|].
              change (paused (Rewards.ClickReward index :: Rewards.Sleep 1 :: log))
                with (1 + paused log). rewrite Hp. cbn [length]. lia.
        -- cbn. split; [now eexists | discriminate].
      * apply IH.
    + cbn. split; [now eexists | discriminate].
Qed.

Lemma clicked_app (a b : list Rewards.page_call) : clicked (a ++ b) = clicked a ++ clicked b.
Proof. unfold clicked. apply omap_app. Qed.

Lemma paused_app (a b : list Rewards.page_call) : paused (a ++ b) = paused a + paused b.
Proof.
  unfold paused. rewrite omap_app. induction (omap _ a) as [|x xs IH]; cbn; [reflexivity | lia].
Qed.

(** X29.  Which rewards are claimed.  Reward buttons are clicked in page
    order and only when their text contains [claim] in any case: the
    buttons clicked are always the first of the claimable ones.  When
    [_claim_rewards] returns, every claimable button has been clicked
    once, the count it logs is their number, and it has paused one second
    for each of them, and two more when the shop had a claim button. *)
Theorem rewards_claimed_are_labelled (v : Rewards.rewards_view) :
  (forall buttons, Rewards.reward_buttons v = Return buttons ->
     exists later,
       claimable_from 0 buttons = clicked (fst (Rewards._claim_rewards v)) ++ later) /\
  (snd (Rewards._claim_rewards v) = Return tt ->
     exists buttons shop,
       Rewards.reward_buttons v = Return buttons /\
       Rewards.shop_claim v = Return shop /\
       clicked (fst (Rewards._claim_rewards v)) = claimable_from 0 buttons /\
       In (Rewards.Claimed (length (claimable_from 0 buttons))) (fst (Rewards._claim_rewards v)) /\
       paused (fst (Rewards._claim_rewards v))
       = match shop with Some _ => 2 | None => 0 end
         + Z.of_nat (length (claimable_from 0 buttons))).
Proof.
  unfold Rewards._claim_rewards.
  destruct v as [nav load shop nav2 load2 buttons0].
  cbn [Rewards.nav_shop Rewards.load_shop Rewards.shop_claim Rewards.nav_rewards
       Rewards.load_rewards Rewards.reward_buttons].
  split.
  - intros buttons ->.
    destruct (claim_buttons_clicks buttons 0 0) as [(later & Hpre) _].
    destruct nav as [[]|?]; [|now eexists]. destruct load as [[]|?]; [|now eexists].
    destruct shop as [[[[]|?]|]|?]; rewrite ?bind_Return, ?bind_Raise;
      try (now eexists);
      (destruct nav2 as [[]|?]; [|now eexists]); (destruct load2 as [[]|?]; [|now eexists]);
      rewrite ?bind_Return;
      destruct (Rewards.claim_buttons buttons 0 0) as [log [n|e]]; cbn [fst snd] in *;
      exists later; rewrite ?clicked_app; cbn [clicked omap app]; rewrite ?app_nil_r;
      exact Hpre.
  - destruct nav as [[]|?]; [|discriminate]. destruct load as [[]|?]; [|discriminate].
    destruct shop as [[[[]|?]|]|?]; rewrite ?bind_Return, ?bind_Raise; try discriminate;
      (destruct nav2 as [[]|?]; [|discriminate]); (destruct load2 as [[]|?]; [|discriminate]);
      rewrite ?bind_Return;
      (destruct buttons0 as [buttons|?]; [|discriminate]);
      destruct (claim_buttons_clicks buttons 0 0) as [_ Hall];
      (destruct (Rewards.claim_buttons buttons 0 0) as [log [n|e]]; [|discriminate]);
      cbn [fst snd] in *; intros _;
      destruct (Hall n eq_refl) as (Hc & Hn & Hp); cbn [Nat.add] in Hn; subst n;
      eexists buttons, _; (split; [reflexivity|]); (split; [reflexivity|]);
      rewrite ?clicked_app, ?paused_app, ?Hc, ?Hp;
      (split; [cbn [clicked omap app]; now rewrite ?app_nil_r|]);
      (split; [rewrite ?in_app_iff; cbn; tauto|]);
      cbn; lia.
Qed.

Lemma rewards_claimed_are_labelled_witness :
  clicked (fst (Rewards._claim_rewards rewards_page)) = [0; 2]%nat /\
  paused (fst (Rewards._claim_rewards rewards_page)) = 4.
Proof.
  destruct (proj2 (rewards_claimed_are_labelled rewards_page) eq_refl)
    as (buttons & shop & Hb & Hs & Hc & _ & Hp).
  injection Hb as <-. injection Hs as <-. split; [exact Hc | exact Hp].
Defined.
